(** * Process support of the OS161 kernel: kern/proc/proc.c

    A shallow embedding of the process object, the pid table and the
    fork / _exit / waitpid system calls, and the properties of the
    process life cycle proved about them.

    The kernel state is passed explicitly.  Every function of proc.c is a
    computation in a small state-and-outcome monad [M]: it returns, ends the
    calling thread, sleeps on the condition variable, halts the system
    (panic, KASSERT) or steps outside what C defines (a dangling or null
    dereference, an array index outside the table).

    enter_usermode, which copies the trap frame onto the stack of the new
    thread and leaves for user mode, is the one function left out. *)

From stdpp Require Import gmap strings list fin_maps numbers.

Local Open Scope Z_scope.

(** ** Data model *)

(** Kernel pointers.  Every kind of kernel object lives in a map of its own,
    keyed by its address; the null pointer is [None] of [option addr]. *)
Abbreviation addr := positive (only parsing).

(** The status of a pid-table slot (the enumeration of proc.h). *)
Inductive pstatus := READY | RUNNING | ZOMBIE | ORPHAN.

#[global] Instance pstatus_eq_dec : EqDecision pstatus.
Proof. solve_decision. Defined.

(** Modelled from the spec: the constants of the headers that proc.c
    includes (limits.h: PID_MIN and PID_MAX; kern/errno.h: ENOMEM and ENPROC)
    and the integer values of the status enumeration of proc.h.  None of
    these files is among the sources, and no value is fixed here. *)
Class kconfig := KConfig {
  PID_MIN : Z;
  PID_MAX : Z;
  ENOMEM : Z;
  ENPROC : Z;
  status_code : pstatus → Z }.

(** struct trapframe: the registers that sys_fork writes, and the rest.
    Registers are 32 bits wide. *)
Record trapframe := Trapframe {
  tf_v0 : Z;
  tf_v1 : Z;
  tf_a3 : Z;
  tf_epc : Z;
  tf_other : list Z }.

Definition wrap32 (x : Z) : Z := x mod 2 ^ 32.

(** struct proc.  A field that was never stored to reads as null (0 for
    the pid). *)
Record proc := Proc {
  p_name : option addr;
  p_threads : list addr;
  p_addrspace : option addr;
  p_cwd : option addr;
  proc_ft : option addr;
  children : option addr;
  pid : Z }.

Definition proc_blank : proc :=
  {| p_name := None; p_threads := []; p_addrspace := None; p_cwd := None;
     proc_ft := None; children := None; pid := 0 |}.

Definition set_p_name (v : option addr) (p : proc) : proc :=
  {| p_name := v; p_threads := p_threads p; p_addrspace := p_addrspace p;
     p_cwd := p_cwd p; proc_ft := proc_ft p; children := children p; pid := pid p |}.
Definition set_p_threads (v : list addr) (p : proc) : proc :=
  {| p_name := p_name p; p_threads := v; p_addrspace := p_addrspace p;
     p_cwd := p_cwd p; proc_ft := proc_ft p; children := children p; pid := pid p |}.
Definition set_p_addrspace (v : option addr) (p : proc) : proc :=
  {| p_name := p_name p; p_threads := p_threads p; p_addrspace := v;
     p_cwd := p_cwd p; proc_ft := proc_ft p; children := children p; pid := pid p |}.
Definition set_p_cwd (v : option addr) (p : proc) : proc :=
  {| p_name := p_name p; p_threads := p_threads p; p_addrspace := p_addrspace p;
     p_cwd := v; proc_ft := proc_ft p; children := children p; pid := pid p |}.
Definition set_proc_ft (v : option addr) (p : proc) : proc :=
  {| p_name := p_name p; p_threads := p_threads p; p_addrspace := p_addrspace p;
     p_cwd := p_cwd p; proc_ft := v; children := children p; pid := pid p |}.
Definition set_children (v : option addr) (p : proc) : proc :=
  {| p_name := p_name p; p_threads := p_threads p; p_addrspace := p_addrspace p;
     p_cwd := p_cwd p; proc_ft := proc_ft p; children := v; pid := pid p |}.
Definition set_pid (v : Z) (p : proc) : proc :=
  {| p_name := p_name p; p_threads := p_threads p; p_addrspace := p_addrspace p;
     p_cwd := p_cwd p; proc_ft := proc_ft p; children := children p; pid := v |}.

(** struct pidtable: three arrays indexed by pid, the counter of free slots
    and the hint.  An array is a map from index to cell; a cell is present
    once the code has stored to it.  The two pointers pid_lock and pid_cv
    are not kept: proc.c only hands them to the calls of synch.h, which
    appear in the trace. *)
Record pidtable := PidTable {
  pid_procs : gmap Z (option addr);
  pid_status : gmap Z pstatus;
  pid_waitcode : gmap Z Z;
  pid_available : Z;
  pid_next : Z }.

Definition pidtable_blank : pidtable :=
  {| pid_procs := ∅; pid_status := ∅; pid_waitcode := ∅;
     pid_available := 0; pid_next := 0 |}.

Definition set_pid_procs (f : gmap Z (option addr) → gmap Z (option addr))
    (t : pidtable) : pidtable :=
  {| pid_procs := f (pid_procs t); pid_status := pid_status t;
     pid_waitcode := pid_waitcode t; pid_available := pid_available t;
     pid_next := pid_next t |}.
Definition set_pid_status (f : gmap Z pstatus → gmap Z pstatus)
    (t : pidtable) : pidtable :=
  {| pid_procs := pid_procs t; pid_status := f (pid_status t);
     pid_waitcode := pid_waitcode t; pid_available := pid_available t;
     pid_next := pid_next t |}.
Definition set_pid_waitcode (f : gmap Z Z → gmap Z Z) (t : pidtable) : pidtable :=
  {| pid_procs := pid_procs t; pid_status := pid_status t;
     pid_waitcode := f (pid_waitcode t); pid_available := pid_available t;
     pid_next := pid_next t |}.
Definition set_pid_available (v : Z) (t : pidtable) : pidtable :=
  {| pid_procs := pid_procs t; pid_status := pid_status t;
     pid_waitcode := pid_waitcode t; pid_available := v;
     pid_next := pid_next t |}.
Definition set_pid_next (v : Z) (t : pidtable) : pidtable :=
  {| pid_procs := pid_procs t; pid_status := pid_status t;
     pid_waitcode := pid_waitcode t; pid_available := pid_available t;
     pid_next := v |}.

(** What the pid-table monitor and the thread system are asked to do, in
    order: a ghost trace kept beside the state. *)
Inductive event :=
  | LockAcquire
  | LockRelease
  | CvBroadcast
  | CvWait
  | AsDeactivate
  | ThreadFork (p tf : addr) (result : Z)
  | ThreadExit.

(** The kernel state that proc.c reads and writes. *)
Record kstate := KState {
  procs : gmap addr proc;                (* live struct proc objects *)
  names : gmap addr string;              (* live strings of kstrdup *)
  filetables : gmap addr (list Z);       (* live file tables *)
  arrays : gmap addr (list addr);        (* live struct array objects *)
  trapframes : gmap addr trapframe;      (* live trap frames *)
  addrspaces : gmap addr Z;              (* live address spaces *)
  vnodes : gmap addr Z;                  (* reference counts of vnodes *)
  words : gmap addr Z;                   (* int32_t cells of out-parameters *)
  kproc : option addr;                   (* struct proc *kproc *)
  curproc : option addr;                 (* curthread->t_proc *)
  ptable : pidtable;                     (* *pidtable *)
  oracle : list Z;                       (* results of the fallible calls to come *)
  log : list event }.

Definition set_procs (f : gmap addr proc → gmap addr proc) (s : kstate) : kstate :=
  {| procs := f (procs s); names := names s; filetables := filetables s;
     arrays := arrays s; trapframes := trapframes s; addrspaces := addrspaces s;
     vnodes := vnodes s; words := words s; kproc := kproc s; curproc := curproc s;
     ptable := ptable s; oracle := oracle s; log := log s |}.
Definition set_names (f : gmap addr string → gmap addr string) (s : kstate) : kstate :=
  {| procs := procs s; names := f (names s); filetables := filetables s;
     arrays := arrays s; trapframes := trapframes s; addrspaces := addrspaces s;
     vnodes := vnodes s; words := words s; kproc := kproc s; curproc := curproc s;
     ptable := ptable s; oracle := oracle s; log := log s |}.
Definition set_filetables (f : gmap addr (list Z) → gmap addr (list Z))
    (s : kstate) : kstate :=
  {| procs := procs s; names := names s; filetables := f (filetables s);
     arrays := arrays s; trapframes := trapframes s; addrspaces := addrspaces s;
     vnodes := vnodes s; words := words s; kproc := kproc s; curproc := curproc s;
     ptable := ptable s; oracle := oracle s; log := log s |}.
Definition set_arrays (f : gmap addr (list addr) → gmap addr (list addr))
    (s : kstate) : kstate :=
  {| procs := procs s; names := names s; filetables := filetables s;
     arrays := f (arrays s); trapframes := trapframes s; addrspaces := addrspaces s;
     vnodes := vnodes s; words := words s; kproc := kproc s; curproc := curproc s;
     ptable := ptable s; oracle := oracle s; log := log s |}.
Definition set_trapframes (f : gmap addr trapframe → gmap addr trapframe)
    (s : kstate) : kstate :=
  {| procs := procs s; names := names s; filetables := filetables s;
     arrays := arrays s; trapframes := f (trapframes s); addrspaces := addrspaces s;
     vnodes := vnodes s; words := words s; kproc := kproc s; curproc := curproc s;
     ptable := ptable s; oracle := oracle s; log := log s |}.
Definition set_addrspaces (f : gmap addr Z → gmap addr Z) (s : kstate) : kstate :=
  {| procs := procs s; names := names s; filetables := filetables s;
     arrays := arrays s; trapframes := trapframes s; addrspaces := f (addrspaces s);
     vnodes := vnodes s; words := words s; kproc := kproc s; curproc := curproc s;
     ptable := ptable s; oracle := oracle s; log := log s |}.
Definition set_vnodes (f : gmap addr Z → gmap addr Z) (s : kstate) : kstate :=
  {| procs := procs s; names := names s; filetables := filetables s;
     arrays := arrays s; trapframes := trapframes s; addrspaces := addrspaces s;
     vnodes := f (vnodes s); words := words s; kproc := kproc s; curproc := curproc s;
     ptable := ptable s; oracle := oracle s; log := log s |}.
Definition set_words (f : gmap addr Z → gmap addr Z) (s : kstate) : kstate :=
  {| procs := procs s; names := names s; filetables := filetables s;
     arrays := arrays s; trapframes := trapframes s; addrspaces := addrspaces s;
     vnodes := vnodes s; words := f (words s); kproc := kproc s; curproc := curproc s;
     ptable := ptable s; oracle := oracle s; log := log s |}.
Definition set_kproc (v : option addr) (s : kstate) : kstate :=
  {| procs := procs s; names := names s; filetables := filetables s;
     arrays := arrays s; trapframes := trapframes s; addrspaces := addrspaces s;
     vnodes := vnodes s; words := words s; kproc := v; curproc := curproc s;
     ptable := ptable s; oracle := oracle s; log := log s |}.
Definition set_curproc (v : option addr) (s : kstate) : kstate :=
  {| procs := procs s; names := names s; filetables := filetables s;
     arrays := arrays s; trapframes := trapframes s; addrspaces := addrspaces s;
     vnodes := vnodes s; words := words s; kproc := kproc s; curproc := v;
     ptable := ptable s; oracle := oracle s; log := log s |}.
Definition set_ptable (f : pidtable → pidtable) (s : kstate) : kstate :=
  {| procs := procs s; names := names s; filetables := filetables s;
     arrays := arrays s; trapframes := trapframes s; addrspaces := addrspaces s;
     vnodes := vnodes s; words := words s; kproc := kproc s; curproc := curproc s;
     ptable := f (ptable s); oracle := oracle s; log := log s |}.
Definition set_oracle (v : list Z) (s : kstate) : kstate :=
  {| procs := procs s; names := names s; filetables := filetables s;
     arrays := arrays s; trapframes := trapframes s; addrspaces := addrspaces s;
     vnodes := vnodes s; words := words s; kproc := kproc s; curproc := curproc s;
     ptable := ptable s; oracle := v; log := log s |}.
Definition set_log (f : list event → list event) (s : kstate) : kstate :=
  {| procs := procs s; names := names s; filetables := filetables s;
     arrays := arrays s; trapframes := trapframes s; addrspaces := addrspaces s;
     vnodes := vnodes s; words := words s; kproc := kproc s; curproc := curproc s;
     ptable := ptable s; oracle := oracle s; log := f (log s) |}.

(** The state before proc_bootstrap, with the results [o] of the fallible
    calls that the run will make. *)
Definition kstate_init (o : list Z) : kstate :=
  {| procs := ∅; names := ∅; filetables := ∅; arrays := ∅; trapframes := ∅;
     addrspaces := ∅; vnodes := ∅; words := ∅; kproc := None; curproc := None;
     ptable := pidtable_blank; oracle := o; log := [] |}.

(** ** The monad of kernel computations *)

Inductive outcome (A : Type) :=
  | Ret (a : A) (s : kstate)      (* the call returns a *)
  | Exited (s : kstate)           (* thread_exit: the calling thread is gone *)
  | Blocked (s : kstate)          (* asleep in cv_wait, never woken again *)
  | Panic (msg : string)          (* panic or failed KASSERT: the system halts *)
  | Undefined.                    (* behaviour that C does not define *)
Arguments Ret {A} a s.
Arguments Exited {A} s.
Arguments Blocked {A} s.
Arguments Panic {A} msg%_string.
Arguments Undefined {A}.

Definition M (A : Type) : Type := kstate → outcome A.

#[global] Instance M_ret : MRet M := λ A a s, Ret a s.
#[global] Instance M_bind : MBind M := λ A B k m s,
  match m s with
  | Ret a s' => k a s'
  | Exited s' => Exited s'
  | Blocked s' => Blocked s'
  | Panic msg => Panic msg
  | Undefined => Undefined
  end.

Definition get : M kstate := λ s, Ret s s.
Definition modify (f : kstate → kstate) : M unit := λ s, Ret tt (f s).
Definition panic {A} (msg : string) : M A := λ _, Panic msg.
Arguments panic {A} msg%_string.
Definition undefined {A} : M A := λ _, Undefined.
(** KASSERT(b): halts the system when [b] is false. *)
Definition KASSERT (b : bool) : M unit :=
  if b then mret tt else panic "assertion failed".
Definition emit (e : event) : M unit := modify (set_log (λ l, l ++ [e])).

(** A pointer that must not be null where it is dereferenced. *)
Definition deref {A} (o : option A) : M A :=
  match o with Some a => mret a | None => undefined end.

(** The result of the next fallible call: 0 is success.  A run that has
    used up its list meets no further failure. *)
Definition draw : M Z := λ s,
  match oracle s with
  | [] => Ret 0 s
  | r :: o => Ret r (set_oracle o s)
  end.

(** ** The kernel services that proc.c calls *)

(** Typed kernel heap: a region is a field of the state holding the live
    objects of one kind, given by its getter [fld] and its updater [upd]. *)
Section region.
Context {V : Type}.
Variable fld : kstate → gmap addr V.
Variable upd : (gmap addr V → gmap addr V) → kstate → kstate.

(** A new object at an address that is not live. *)
Definition alloc (v : V) : M addr :=
  s ← get;
  let a := fresh (dom (fld s)) in
  modify (upd <[a := v]>);; mret a.

(** kmalloc and its kin: null when the allocation fails. *)
Definition kmalloc (v : V) : M (option addr) :=
  r ← draw;
  if decide (r = 0) then a ← alloc v; mret (Some a) else mret None.

(** Reading through a pointer: defined for a live object only. *)
Definition load (a : addr) : M V :=
  s ← get; deref (fld s !! a).

Definition store (a : addr) (v : V) : M unit :=
  load a;; modify (upd <[a := v]>).

(** kfree: a no-op on null, undefined on an object that is not live. *)
Definition kfree (o : option addr) : M unit :=
  match o with
  | None => mret tt
  | Some a => load a;; modify (upd (delete a))
  end.
End region.

Definition load_proc : addr → M proc := load procs.
Definition store_proc (a : addr) (f : proc → proc) : M unit :=
  p ← load_proc a; store procs set_procs a (f p).

Definition kstrdup (name : string) : M (option addr) := kmalloc names set_names name.
Arguments kstrdup name%_string.

(** filetable.h.  A file table is one kernel object; its contents are a
    list of open-file handles. *)
Definition ft_create : M (option addr) := kmalloc filetables set_filetables [].
Definition ft_init_std (ft : option addr) : M Z :=
  ft ← deref ft;
  r ← draw;
  if decide (r = 0) then store filetables set_filetables ft [0; 1; 2];; mret 0
  else mret r.
Definition ft_copy (src dst : option addr) : M unit :=
  src ← deref src; dst ← deref dst;
  l ← load filetables src; store filetables set_filetables dst l.
Definition ft_destroy (ft : option addr) : M unit :=
  ft ← deref ft; kfree filetables set_filetables (Some ft).

(** array.h *)
Definition array_create : M (option addr) := kmalloc arrays set_arrays [].
Definition array_num (a : option addr) : M nat :=
  a ← deref a; l ← load arrays a; mret (length l).
Definition array_get (a : option addr) (i : nat) : M addr :=
  a ← deref a; l ← load arrays a;
  match l !! i with
  | Some x => mret x
  | None => panic "array_get: index out of range"
  end.
Definition array_add (a : option addr) (x : addr) : M Z :=
  a ← deref a; l ← load arrays a;
  r ← draw;
  if decide (r = 0) then store arrays set_arrays a (l ++ [x]);; mret 0
  else mret r.
Definition array_remove (a : option addr) (i : nat) : M unit :=
  a ← deref a; l ← load arrays a;
  if decide (i < length l)%nat then store arrays set_arrays a (delete i l)
  else panic "array_remove: index out of range".
Definition array_destroy (a : option addr) : M unit :=
  a ← deref a; kfree arrays set_arrays (Some a).

(** addrspace.h *)
Definition as_copy (old : option addr) : M (Z * option addr) :=
  old ← deref old; c ← load addrspaces old;
  r ← draw;
  if decide (r = 0) then a ← alloc addrspaces set_addrspaces c; mret (0, Some a)
  else mret (r, None).
Definition as_destroy (a : option addr) : M unit :=
  a ← deref a; kfree addrspaces set_addrspaces (Some a).
Definition as_deactivate : M unit := emit AsDeactivate.

(** vnode.h *)
Definition VOP_INCREF (vn : addr) : M unit :=
  n ← load vnodes vn; store vnodes set_vnodes vn (n + 1).
Definition VOP_DECREF (vn : addr) : M unit :=
  n ← load vnodes vn; store vnodes set_vnodes vn (n - 1).

(** synch.h and thread.h *)
Definition lock_acquire : M unit := emit LockAcquire.
Definition lock_release : M unit := emit LockRelease.
Definition cv_broadcast : M unit := emit CvBroadcast.
(** cv_wait gives up the lock and sleeps; the thread holds the lock again
    when it wakes and finds the table [t] that the other threads have left. *)
Definition cv_wait (t : pidtable) : M unit :=
  emit CvWait;; modify (set_ptable (λ _, t)).
Definition cv_sleep {A} : M A := λ s, Blocked (set_log (λ l, l ++ [CvWait]) s).
Definition thread_fork (p tf : addr) : M Z :=
  r ← draw; emit (ThreadFork p tf r);; mret r.
Definition thread_exit {A} : M A :=
  λ s, Exited (set_log (λ l, l ++ [ThreadExit]) s).

(** Stores through an int32_t pointer. *)
Definition store_word (p : option addr) (v : Z) : M unit :=
  p ← deref p; modify (set_words <[p := v]>).

Definition get_curproc : M addr := s ← get; deref (curproc s).

Section proc_c.
Context `{kconfig}.

(** *** The arrays of the pid table *)

(** Modelled from the spec: struct pidtable is declared in proc.h, which
    is not among the sources; its arrays have one cell per pid below
    PID_MAX.  A store outside the array and a read of a cell that was
    never stored to are undefined. *)
Definition in_table (i : Z) : bool := bool_decide (0 ≤ i < PID_MAX).

Definition tbl_status (i : Z) : M pstatus :=
  s ← get; deref (pid_status (ptable s) !! i).
Definition tbl_set_status (i : Z) (v : pstatus) : M unit :=
  if in_table i then modify (set_ptable (set_pid_status <[i := v]>))
  else undefined.
Definition tbl_set_proc (i : Z) (v : option addr) : M unit :=
  if in_table i then modify (set_ptable (set_pid_procs <[i := v]>))
  else undefined.
Definition tbl_set_waitcode (i : Z) (v : Z) : M unit :=
  if in_table i then modify (set_ptable (set_pid_waitcode <[i := v]>))
  else undefined.

(** *** proc_create *)
Definition proc_create (name : string) : M (option addr) :=
  proc ← kmalloc procs set_procs proc_blank;
  match proc with
  | None => mret None
  | Some proc =>
    nm ← kstrdup name;
    store_proc proc (set_p_name nm);;
    match nm with
    | None => kfree procs set_procs (Some proc);; mret None
    | Some _ =>
      ft ← ft_create;
      store_proc proc (set_proc_ft ft);;
      match ft with
      | None =>
        p ← load_proc proc;
        kfree names set_names (p_name p);;
        kfree procs set_procs (Some proc);;
        mret None
      | Some _ =>
        ch ← array_create;
        store_proc proc (set_children ch);;
        match ch with
        | None =>
          p ← load_proc proc;
          kfree filetables set_filetables (proc_ft p);;
          kfree names set_names (p_name p);;
          kfree procs set_procs (Some proc);;
          mret None
        | Some _ =>
          store_proc proc (set_p_threads []);;      (* threadarray_init *)
          store_proc proc (set_p_addrspace None);;
          store_proc proc (set_p_cwd None);;
          store_proc proc (set_pid 1);;
          mret (Some proc)
        end
      end
    end
  end.
Arguments proc_create name%_string.

(** *** proc_setas, proc_getas *)
Definition proc_setas (newas : option addr) : M (option addr) :=
  s ← get;
  match curproc s with
  | None => panic "assertion failed"               (* KASSERT(proc != NULL) *)
  | Some proc =>
    p ← load_proc proc;
    store_proc proc (set_p_addrspace newas);;
    mret (p_addrspace p)
  end.

Definition proc_getas : M (option addr) :=
  s ← get;
  match curproc s with
  | None => mret None
  | Some proc => p ← load_proc proc; mret (p_addrspace p)
  end.

(** *** proc_destroy *)

(** for (i = 0; i < n; i++) array_remove(a, 0); *)
Fixpoint array_clear (a : option addr) (n : nat) : M unit :=
  match n with
  | O => mret tt
  | S n' => array_remove a 0;; array_clear a n'
  end.

Definition proc_destroy (proc : addr) : M unit :=
  (* KASSERT(proc != NULL) holds of every [addr] *)
  s ← get;
  KASSERT (bool_decide (Some proc ≠ kproc s));;
  (* VFS fields *)
  p ← load_proc proc;
  match p_cwd p with
  | Some vn => VOP_DECREF vn;; store_proc proc (set_p_cwd None)
  | None => mret tt
  end;;
  (* PID fields *)
  p ← load_proc proc;
  children_size ← array_num (children p);
  array_clear (children p) children_size;;
  (* VM fields *)
  match p_addrspace p with
  | Some _ =>
    s ← get;
    as_ ← (if decide (Some proc = curproc s)
           then as_ ← proc_setas None; as_deactivate;; mret as_
           else store_proc proc (set_p_addrspace None);; mret (p_addrspace p));
    as_destroy as_
  | None => mret tt
  end;;
  ft_destroy (proc_ft p);;
  (* threadarray_remove(&proc->p_threads, 0) for every entry, then
     threadarray_cleanup *)
  store_proc proc (set_p_threads []);;
  array_destroy (children p);;
  kfree names set_names (p_name p);;
  kfree procs set_procs (Some proc).

(** *** proc_bootstrap *)
Definition proc_bootstrap : M unit :=
  kp ← proc_create "[kernel]";
  modify (set_kproc kp);;
  match kp with
  | None => panic "proc_create for kproc failed"
  | Some _ => mret tt
  end.

(** *** pidtable_bootstrap *)

(** for (i = lo; i < lo + n; i++) { procs[i] = NULL; status[i] = READY; waitcode[i] = 0; } *)
Fixpoint bootstrap_slots (n : nat) (i : Z) : M unit :=
  match n with
  | O => mret tt
  | S n' =>
    tbl_set_proc i None;;
    tbl_set_status i READY;;
    tbl_set_waitcode i 0;;
    bootstrap_slots n' (i + 1)
  end.

Definition pidtable_bootstrap : M unit :=
  (* pidtable = kmalloc(sizeof(struct pidtable)): a table of unwritten cells *)
  r ← draw;
  (if decide (r = 0) then modify (set_ptable (λ _, pidtable_blank))
   else panic "Unable to initialize PID table.");;
  (* pid_lock = lock_create(...): [e_lock] is 0 when pid_lock is not NULL *)
  e_lock ← draw;
  (if decide (e_lock = 0) then mret tt
   else panic "Unable to intialize PID table's lock.");;
  (* pid_cv = cv_create(...); the test that follows is on pid_lock again *)
  draw;;
  (if decide (e_lock = 0) then mret tt
   else panic "Unable to intialize PID table's cv.");;
  (* Set the kernel thread parameters *)
  s ← get;
  kp ← deref (kproc s);
  k ← load_proc kp;
  tbl_set_proc (pid k) (Some kp);;
  tbl_set_status (pid k) RUNNING;;
  tbl_set_waitcode (pid k) 0;;
  modify (set_ptable (set_pid_available (PID_MAX - 1)));;
  modify (set_ptable (set_pid_next PID_MIN));;
  (* Populate the initial PID stats array with ready status *)
  bootstrap_slots (Z.to_nat (PID_MAX - PID_MIN)) PID_MIN.

(** *** pidtable_add *)

(** for (i = next; i < PID_MAX; i++) if (status[i] == READY) { pid_next = i; break; } *)
Fixpoint scan_ready (n : nat) (i : Z) : M unit :=
  match n with
  | O => mret tt
  | S n' =>
    st ← tbl_status i;
    if decide (st = READY) then modify (set_ptable (set_pid_next i))
    else scan_ready n' (i + 1)
  end.

Definition pidtable_add (proc : addr) : M Z :=
  lock_acquire;;
  (* Add the given process to the parent *)
  cur ← get_curproc;
  c ← load_proc cur;
  array_add (children c) proc;;
  s ← get;
  if decide (pid_available (ptable s) > 0) then
    let next := pid_next (ptable s) in
    tbl_set_proc next (Some proc);;
    tbl_set_status next RUNNING;;
    tbl_set_waitcode next 0;;
    modify (set_ptable (λ t, set_pid_available (pid_available t - 1) t));;
    s ← get;
    (if decide (pid_available (ptable s) > 0)
     then scan_ready (Z.to_nat (PID_MAX - next)) next
     else modify (set_ptable (set_pid_next (-1))));;   (* Full signal *)
    lock_release;;
    mret next
  else
    panic "PID table full!".

(** *** proc_create_runprogram *)
Definition proc_create_runprogram (name : string) : M (option addr) :=
  newproc ← proc_create name;
  match newproc with
  | None => mret None
  | Some newproc =>
    p ← load_proc newproc;
    ret ← ft_init_std (proc_ft p);
    if decide (ret ≠ 0) then kfree procs set_procs (Some newproc);; mret None
    else
      pid ← pidtable_add newproc;
      store_proc newproc (set_pid pid);;
      (if decide (pid = -1) then panic "Could not add new process to pid table"
       else mret tt);;
      store_proc newproc (set_p_addrspace None);;
      cur ← get_curproc;
      c ← load_proc cur;
      match p_cwd c with
      | Some vn => VOP_INCREF vn;; store_proc newproc (set_p_cwd (Some vn))
      | None => mret tt
      end;;
      mret (Some newproc)
  end.

(** *** pidtable_pid_status *)
Definition pidtable_pid_status (pid : Z) : M pstatus :=
  lock_acquire;;
  status ← tbl_status pid;
  lock_release;;
  mret status.

(** *** pidtable_update_children *)

(** One turn of the loop, at index [i]. *)
Definition update_child (proc : addr) (i : nat) : M unit :=
  p ← load_proc proc;
  child ← array_get (children p) i;
  (* KASSERT(child != NULL) holds of every [addr] *)
  c ← load_proc child;
  let child_pid := pid c in
  st ← tbl_status child_pid;
  if decide (st = RUNNING) then
    tbl_set_status child_pid ORPHAN
  else if decide (st = ZOMBIE) then
    modify (set_ptable (λ t, set_pid_available (pid_available t + 1) t));;
    c ← load_proc child; tbl_set_proc (pid c) None;;
    c ← load_proc child; tbl_set_status (pid c) READY;;
    c ← load_proc child; tbl_set_waitcode (pid c) 0;;
    proc_destroy child
  else
    panic "Tried to modify a child that did not exist.".

(** for (i = n - 1; i >= 0; i--) *)
Fixpoint update_children_from (proc : addr) (n : nat) : M unit :=
  match n with
  | O => mret tt
  | S i => update_child proc i;; update_children_from proc i
  end.

Definition pidtable_update_children (proc : addr) : M unit :=
  p ← load_proc proc;
  num_child ← array_num (children p);
  update_children_from proc num_child.

(** *** pidtable_exit *)
Definition pidtable_exit (proc : addr) (waitcode : Z) : M Empty_set :=
  lock_acquire;;
  (* Begin by orphaning all children *)
  pidtable_update_children proc;;
  p ← load_proc proc;
  st ← tbl_status (pid p);
  (if decide (st = RUNNING) then
     tbl_set_status (pid p) ZOMBIE;;
     tbl_set_waitcode (pid p) waitcode
   else if decide (st = ORPHAN) then
     modify (set_ptable (λ t, set_pid_available (pid_available t + 1) t));;
     tbl_set_proc (pid p) None;;
     tbl_set_status (pid p) READY;;
     tbl_set_waitcode (pid p) 0;;
     cur ← get_curproc;
     proc_destroy cur
   else
     panic "Tried to remove a bad process.");;
  cv_broadcast;;
  lock_release;;
  thread_exit.

(** *** sys_fork *)
Definition sys_fork (tf : addr) (retval0 : option addr) : M Z :=
  new_proc ← proc_create "new_proc";
  match new_proc with
  | None => mret ENOMEM
  | Some new_proc =>
    new_tf ← kmalloc trapframes set_trapframes (Trapframe 0 0 0 0 []);
    match new_tf with
    | None => kfree procs set_procs (Some new_proc);; mret ENOMEM
    | Some new_tf =>
      cur ← get_curproc;
      c ← load_proc cur;
      '(result, as_) ← as_copy (p_addrspace c);
      if decide (result ≠ 0) then mret result
      else
        store_proc new_proc (set_p_addrspace as_);;
        c ← load_proc cur;
        match p_cwd c with
        | Some vn => VOP_INCREF vn;; store_proc new_proc (set_p_cwd (Some vn))
        | None => mret tt
        end;;
        pid ← pidtable_add new_proc;
        store_proc new_proc (set_pid pid);;
        if decide (pid = -1) then mret ENPROC
        else
          store_word retval0 pid;;
          c ← load_proc cur;
          n ← load_proc new_proc;
          ft_copy (proc_ft c) (proc_ft n);;
          (* memcpy(new_tf, tf, sizeof(struct trapframe)) *)
          t ← load trapframes tf;
          store trapframes set_trapframes new_tf t;;
          store trapframes set_trapframes new_tf
            (Trapframe 0 (tf_v1 t) (tf_a3 t) (wrap32 (tf_epc t + 4)) (tf_other t));;
          t ← load trapframes tf;
          store trapframes set_trapframes tf
            (Trapframe 0 0 0 (tf_epc t) (tf_other t));;
          result ← thread_fork new_proc new_tf;
          if decide (result ≠ 0) then mret result
          else mret 0
    end
  end.

(** *** sys_getpid *)
Definition sys_getpid (retval0 : option addr) : M Z :=
  lock_acquire;;
  cur ← get_curproc;
  c ← load_proc cur;
  store_word retval0 (pid c);;
  lock_release;;
  mret 0.

(** *** sys_waitpid *)

(** while (status != ZOMBIE) { cv_wait(...); status = pid_status[pid]; }
    [wakes] lists the tables that the thread finds each time it wakes; when
    the list is used up no broadcast reaches the thread any more. *)
Fixpoint wait_zombie (pid : Z) (status : pstatus) (wakes : list pidtable)
    : M pstatus :=
  if decide (status = ZOMBIE) then mret status
  else match wakes with
       | [] => cv_sleep
       | t :: wakes' =>
         cv_wait t;;
         status ← tbl_status pid;
         wait_zombie pid status wakes'
       end.

Definition sys_waitpid (pid : Z) (retval0 : option addr) (wakes : list pidtable)
    : M Z :=
  lock_acquire;;
  status ← tbl_status pid;
  status ← wait_zombie pid status wakes;
  lock_release;;
  match retval0 with
  | Some _ => store_word retval0 (status_code status)
  | None => mret tt
  end;;
  mret 0.

(** *** sys__exit *)
Definition sys__exit (waitcode : Z) : M Z :=
  cur ← get_curproc;
  pidtable_exit cur waitcode;;
  panic "Exit syscall should never get to this point.".
End proc_c.

Arguments in_table {_} i : simpl never.

(** ** Booting, and a configuration to run the model on *)

(** The boot sequence: the kernel process, whose thread is the current
    one, then the pid table. *)
Definition boot `{kconfig} : M unit :=
  proc_bootstrap;;
  s ← get; modify (set_curproc (kproc s));;
  pidtable_bootstrap.

(** A small configuration: pids 2 to 5, the status codes in the order of
    the enumeration. *)
Definition small_config : kconfig :=
  {| PID_MIN := 2; PID_MAX := 6; ENOMEM := 3; ENPROC := 12;
     status_code := λ st, match st with
                          | READY => 0 | RUNNING => 1 | ZOMBIE => 2 | ORPHAN => 3
                          end |}.

(** ** The threads of a process: proc_addthread, proc_remthread *)

(** Modelled from the spec: array.h, which declares the thread arrays, is
    not among the sources.  The thread array of a process: threadarray_num,
    threadarray_get, threadarray_add and threadarray_remove on
    &proc->p_threads.  As for the arrays above, an index out of range fails
    the assertion of array.h, and threadarray_add is the one call that can
    fail. *)
Definition threadarray_num (proc : addr) : M nat :=
  p ← load_proc proc; mret (length (p_threads p)).
Definition threadarray_get (proc : addr) (i : nat) : M addr :=
  p ← load_proc proc;
  match p_threads p !! i with
  | Some t => mret t
  | None => panic "array_get: index out of range"
  end.
Definition threadarray_add (proc t : addr) : M Z :=
  p ← load_proc proc;
  r ← draw;
  if decide (r = 0)
  then store_proc proc (set_p_threads (p_threads p ++ [t]));; mret 0
  else mret r.
Definition threadarray_remove (proc : addr) (i : nat) : M unit :=
  p ← load_proc proc;
  if decide (i < length (p_threads p))%nat
  then store_proc proc (set_p_threads (delete i (p_threads p)))
  else panic "array_remove: index out of range".

(** Modelled from the spec: struct thread is declared in thread.h, which
    is not among the sources.  proc.c reads and writes one field of it,
    t_proc, the process that the thread belongs to.  The threads are not
    part of the kernel state above: they are a map from the address of a
    thread to its t_proc, handed to the two functions and handed back by
    them. *)
Abbreviation threads := (gmap addr (option addr)) (only parsing).

(** *** proc_addthread *)

(** The spinlock p_lock and the interrupt level (splhigh, splx) order the
    thread with the others and leave no mark on the state. *)
Definition proc_addthread (proc t : addr) (ts : threads) : M (Z * threads) :=
  t_proc ← deref (ts !! t);
  KASSERT (bool_decide (t_proc = None));;
  result ← threadarray_add proc t;
  if decide (result ≠ 0) then mret (result, ts)
  else mret (0, <[t := Some proc]> ts).

(** *** proc_remthread *)

(** for (i = i0; i < i0 + n; i++)
      if (threadarray_get(&proc->p_threads, i) == t) { remove; return; }
    The result tells whether the loop was left by its return.  The panic
    that follows the loop prints the two pointers; its message is kept
    without them. *)
Fixpoint find_thread (proc t : addr) (n i : nat) : M bool :=
  match n with
  | O => mret false
  | S n' =>
    x ← threadarray_get proc i;
    if decide (x = t) then threadarray_remove proc i;; mret true
    else find_thread proc t n' (S i)
  end.

Definition proc_remthread (t : addr) (ts : threads) : M threads :=
  t_proc ← deref (ts !! t);
  match t_proc with
  | None => panic "assertion failed"                 (* KASSERT(proc != NULL) *)
  | Some proc =>
    num ← threadarray_num proc;
    found ← find_thread proc t num 0;
    if (found : bool) then mret (<[t := None]> ts)
    else panic "Thread has escaped from its process"
  end.

(** ** Scenarios *)

(** The state in which a computation leaves the kernel. *)
Definition final {A} (o : outcome A) : kstate :=
  match o with
  | Ret _ s | Exited s | Blocked s => s
  | Panic _ | Undefined => kstate_init []
  end.

(** What runprogram does around proc.c to start the first user process:
    the new thread runs as the new process, gets an address space
    (as_create, proc_setas) and enters the kernel with a trap frame. *)
Definition run_first_user `{kconfig} : M unit :=
  p ← proc_create_runprogram "sh";
  modify (set_curproc p);;
  a ← alloc addrspaces set_addrspaces 0;
  proc_setas (Some a);;
  alloc trapframes set_trapframes (Trapframe 0 0 0 4096 []);;
  mret tt.

(** The kernel (pid 1, object 1) has booted and started a user process
    (pid 2, object 2), which is running. *)
Definition s_user : kstate :=
  Eval vm_compute in
    final ((@boot small_config;; @run_first_user small_config) (kstate_init [])).

(** The user process has forked a child (pid 3, object 3). *)
Definition s_forked : kstate :=
  Eval vm_compute in
    final (@sys_fork small_config 1%positive (Some 1%positive) s_user).

(** The child has called _exit(7). *)
Definition s_child_exited : kstate :=
  Eval vm_compute in
    final (@sys__exit small_config 7 (set_curproc (Some 3%positive) s_forked)).

(** The user process is about to fork, and thread_fork (the eighth fallible
    call to come) will fail with error 7. *)
Definition s_user_nothread : kstate :=
  Eval vm_compute in set_oracle [0; 0; 0; 0; 0; 0; 0; 7] s_user.

(** The kernel has booted. *)
Definition s_boot : kstate :=
  Eval vm_compute in final (@boot small_config (kstate_init [])).

(** The parent (pid 2) runs again after its child has exited. *)
Definition s_parent_runs : kstate :=
  Eval vm_compute in set_curproc (Some 2%positive) s_child_exited.

(** The parent has exited first, orphaning the child (pid 3), which runs. *)
Definition s_orphaned : kstate :=
  Eval vm_compute in
    set_curproc (Some 3%positive)
      (final (@sys__exit small_config 0 (set_curproc (Some 2%positive) s_forked))).

(** The user process is about to fork, and the fifth allocation to come
    (the trap frame of the child) will fail. *)
Definition s_user_oom : kstate :=
  Eval vm_compute in set_oracle [0; 0; 0; 0; 1] s_user.

(** ** The process object as a value *)

(** The object that a successful proc_create returns, and the state it
    leaves: four new kernel objects, four results used up. *)
Definition new_proc_at (s : kstate) : proc :=
  {| p_name := Some (fresh (dom (names s))); p_threads := [];
     p_addrspace := None; p_cwd := None;
     proc_ft := Some (fresh (dom (filetables s)));
     children := Some (fresh (dom (arrays s))); pid := 1 |}.

Definition created (name : string) (s : kstate) : kstate :=
  set_procs <[fresh (dom (procs s)) := new_proc_at s]>
    (set_names <[fresh (dom (names s)) := name]>
       (set_filetables <[fresh (dom (filetables s)) := []]>
          (set_arrays <[fresh (dom (arrays s)) := []]>
             (set_oracle (drop 4 (oracle s)) s)))).

(** The state that a successful proc_destroy leaves, [None] when it meets a
    pointer that is null or not live: the vnode of the working directory has
    one reference less; the address space, the file table, the children
    list, the name and the object itself are freed. *)
Definition destroyed (proc : addr) (s : kstate) : option kstate :=
  p ← procs s !! proc;
  vn' ← match p_cwd p with
         | Some vn => n ← vnodes s !! vn; Some (<[vn := n - 1]> (vnodes s))
         | None => Some (vnodes s)
         end;
  arr ← children p;
  _ ← arrays s !! arr;
  as' ← match p_addrspace p with
         | Some a => _ ← addrspaces s !! a; Some (delete a (addrspaces s))
         | None => Some (addrspaces s)
         end;
  ft ← proc_ft p;
  _ ← filetables s !! ft;
  nm' ← match p_name p with
         | Some nm => _ ← names s !! nm; Some (delete nm (names s))
         | None => Some (names s)
         end;
  Some {| procs := delete proc (procs s); names := nm';
          filetables := delete ft (filetables s);
          arrays := delete arr (arrays s); trapframes := trapframes s;
          addrspaces := as'; vnodes := vn'; words := words s;
          kproc := kproc s; curproc := curproc s; ptable := ptable s;
          oracle := oracle s;
          log := log s ++ match p_addrspace p with
                          | Some _ => if decide (Some proc = curproc s)
                                      then [AsDeactivate] else []
                          | None => []
                          end |}.

(** ** The pid table as a value *)

Section table.
Context `{kconfig}.

(** The slot [i] taken for [proc] by pidtable_add. *)
Definition take_slot (i : Z) (proc : addr) (t : pidtable) : pidtable :=
  set_pid_available (pid_available t - 1)
    (set_pid_waitcode <[i := 0]>
       (set_pid_status <[i := RUNNING]>
          (set_pid_procs <[i := Some proc]> t))).

(** The slot [i] given back by pidtable_exit and pidtable_update_children. *)
Definition free_slot (i : Z) (t : pidtable) : pidtable :=
  set_pid_waitcode <[i := 0]>
    (set_pid_status <[i := READY]>
       (set_pid_procs <[i := None]>
          (set_pid_available (pid_available t + 1) t))).

(** What the scan of pidtable_add finds in [n] cells from [i] on: the first
    READY one, none, or ([None]) a cell that holds no status. *)
Fixpoint scan_find (n : nat) (i : Z) (m : gmap Z pstatus) : option (option Z) :=
  match n with
  | O => Some None
  | S n' =>
    match m !! i with
    | None => None
    | Some st => if decide (st = READY) then Some (Some i) else scan_find n' (i + 1) m
    end
  end.

(** The slots [i], ..., [i + n - 1] as the loop of pidtable_bootstrap leaves
    them. *)
Fixpoint ready_slots (n : nat) (i : Z) (t : pidtable) : pidtable :=
  match n with
  | O => t
  | S n' =>
    ready_slots n' (i + 1)
      (set_pid_waitcode <[i := 0]>
         (set_pid_status <[i := READY]>
            (set_pid_procs <[i := None]> t)))
  end.

(** The number of slots whose status is READY. *)
Definition count_ready (t : pidtable) : nat :=
  size (filter (λ kv : Z * pstatus, kv.2 = READY) (pid_status t)).

(** What the exit of a parent does for one child, written out as a
    change of the state: a running child is orphaned; a zombie child has
    its slot freed (READY, no process, code 0, the counter one up) and its
    object destroyed, that is, freed with all that [destroyed] lists; a
    child in any other state halts the system.  The kernel process cannot
    be destroyed. *)
Definition reap_or_orphan (child : addr) : M unit := λ s,
  match procs s !! child with
  | None => Undefined
  | Some c =>
    match pid_status (ptable s) !! pid c with
    | None => Undefined
    | Some RUNNING =>
      if in_table (pid c)
      then Ret tt (set_ptable (set_pid_status <[pid c := ORPHAN]>) s)
      else Undefined
    | Some ZOMBIE =>
      if in_table (pid c)
      then if decide (Some child = kproc s) then Panic "assertion failed"
           else match destroyed child (set_ptable (free_slot (pid c)) s) with
                | Some s' => Ret tt s'
                | None => Undefined
                end
      else Undefined
    | Some _ => Panic "Tried to modify a child that did not exist."
    end
  end.

(** The end of pidtable_exit: the broadcast, the release of the lock, the
    end of the thread. *)
Definition leave (s : kstate) : kstate :=
  set_log (λ l, l ++ [CvBroadcast; LockRelease; ThreadExit]) s.

(** The children [cs] are dealt with one after the other, first to last. *)
Fixpoint visit_all (cs : list addr) : M unit :=
  match cs with
  | [] => mret tt
  | c :: cs' => reap_or_orphan c;; visit_all cs'
  end.

(** The processes [ps] are registered one after the other. *)
Fixpoint add_all (ps : list addr) : M unit :=
  match ps with
  | [] => mret tt
  | p :: ps' => pidtable_add p;; add_all ps'
  end.

(** The table after [k] registrations that followed the bootstrap with no
    exit in between: the kernel slot and the first [k] slots are RUNNING,
    the others READY. *)
Definition status_after (k : Z) (j : Z) : option pstatus :=
  if decide (j = 1) then Some RUNNING
  else if decide (PID_MIN ≤ j < PID_MIN + k) then Some RUNNING
  else if decide (PID_MIN + k ≤ j < PID_MAX) then Some READY
  else None.

Definition table_after (k : Z) (t : pidtable) : Prop :=
  (∀ j, pid_status t !! j = status_after k j) ∧
  pid_available t = PID_MAX - 1 - k.

(** The hint is the sentinel -1 or no lower than the first slot. *)
Definition hint_ok (t : pidtable) : Prop :=
  pid_next t = -1 ∨ PID_MIN ≤ pid_next t.

(** pidtable_add has a current process with a children list to append to,
    and meets no allocation failure. *)
Definition add_ready (s : kstate) : Prop :=
  ∃ cur c arr l, curproc s = Some cur ∧ procs s !! cur = Some c ∧
    children c = Some arr ∧ arrays s !! arr = Some l ∧ oracle s = [].

(** ** The states that the kernel reaches *)

(** One step of the kernel as proc.c sees it: a fork, an exit, the start
    of a program, or anything that the rest of the kernel does, which leaves
    alone the pid table, private to proc.c, and the pointer kproc. *)
Inductive kstep : kstate → kstate → Prop :=
  | step_fork tf retval0 s r s' :
      sys_fork tf retval0 s = Ret r s' → kstep s s'
  | step_exit waitcode s s' :
      sys__exit waitcode s = Exited s' → kstep s s'
  | step_runprogram name s r s' :
      proc_create_runprogram name s = Ret r s' → kstep s s'
  | step_other s s' :
      ptable s' = ptable s → kproc s' = kproc s → kstep s s'.

Inductive reachable : kstate → Prop :=
  | reach_boot o s : boot (kstate_init o) = Ret tt s → reachable s
  | reach_step s s' : reachable s → kstep s s' → reachable s'.
End table.

(** ** Properties of the pid table kept by a computation *)

(** [Q] holds of the state with which a computation returns, [E] of the
    state in which it ends the thread or falls asleep. *)
Definition post {A} (Q E : kstate → Prop) (o : outcome A) : Prop :=
  match o with
  | Ret _ s => Q s
  | Exited s | Blocked s => E s
  | Panic _ | Undefined => True
  end.

(** From a table with [P] the computation [m] returns with a table with
    [Q], or leaves otherwise with a table with [E]. *)
Definition table_triple {A} (P Q E : pidtable → Prop) (m : M A) : Prop :=
  ∀ s, P (ptable s) → post (λ s', Q (ptable s')) (λ s', E (ptable s')) (m s).

(** ** Further runs and scenarios *)

(** The processes [ps] are registered one after the other; the pids that
    pidtable_add returns are collected in order. *)
Fixpoint add_each `{kconfig} (ps : list addr) : M (list Z) :=
  match ps with
  | [] => mret []
  | p :: ps' => v ← pidtable_add p; vs ← add_each ps'; mret (v :: vs)
  end.

(** The user process (object 2) has been given the threads 5 and 7, which
    belonged to no process. *)
Definition s_threads : kstate :=
  Eval vm_compute in
    final ((r ← proc_addthread 2%positive 5%positive
                  {[5%positive := None; 7%positive := None]};
            proc_addthread 2%positive 7%positive r.2) s_user).

(** The user process has a working directory (vnode 1, with one
    reference) and is about to fork from a trap frame with v0 = 9, v1 = 8,
    a3 = 1 and epc = 2^32 - 4, in a run in which nothing fails. *)
Definition s_user_cwd : kstate :=
  Eval vm_compute in
    set_oracle [0; 0; 0; 0; 0; 0; 0; 0]
      (set_trapframes <[1%positive := Trapframe 9 8 1 4294967292 [5]]>
         (set_vnodes <[1%positive := 1]>
            (set_procs (alter (set_p_cwd (Some 1%positive)) 2%positive) s_user))).

(** The user process has forked four times, getting the pids 3, 4, 5 and 5
    again for its children; the counter of free slots is at 0. *)
Definition s_full : kstate :=
  Eval vm_compute in
    set_oracle [0; 0; 0; 0; 0; 0]
      (final ((@sys_fork small_config 1%positive (Some 1%positive);;
               @sys_fork small_config 1%positive (Some 1%positive);;
               @sys_fork small_config 1%positive (Some 1%positive);;
               @sys_fork small_config 1%positive (Some 1%positive)) s_user)).

(** ** Frames *)

(** The kernel objects of [s'] are those of [s]: nothing was allocated,
    freed or stored to. *)
Definition same_objects (s s' : kstate) : Prop :=
  procs s' = procs s ∧ names s' = names s ∧ filetables s' = filetables s ∧
  arrays s' = arrays s ∧ trapframes s' = trapframes s ∧
  addrspaces s' = addrspaces s ∧ vnodes s' = vnodes s.

(** ** Properties of the whole state kept by a computation *)

(** From a state with [P] the computation [m] returns in a state with [Q],
    or ends the thread or falls asleep in a state with [E]. *)
Definition hoare {A} (P Q E : kstate → Prop) (m : M A) : Prop :=
  ∀ s, P s → post Q E (m s).

(** The trap frame at [a] is allocated. *)
Definition frame_live (a : addr) (s : kstate) : Prop :=
  is_Some (trapframes s !! a).

(** ** The discipline of the pid-table lock *)

(** Modelled from the spec: the monitor of the pid table (synch.c is not
    among the sources), as a machine that reads the trace of a thread:
    [held] tells whether the thread holds the lock.  lock_acquire
    wants the lock not held by the caller and lock_release wants it held;
    cv_wait and cv_broadcast want it held and return with it held; a thread
    that exits holding the lock keeps it for ever.  [None]: the contract
    is broken. *)
Definition lock_step (held : bool) (e : event) : option bool :=
  match e with
  | LockAcquire => if held then None else Some true
  | LockRelease => if held then Some false else None
  | CvWait | CvBroadcast => if held then Some true else None
  | ThreadExit => if held then None else Some false
  | AsDeactivate | ThreadFork _ _ _ => Some held
  end.

Definition lock_run (l : list event) : option bool :=
  foldl (λ st e, h ← st; lock_step h e) (Some false) l.

(** The trace of [s] keeps the contract, and leaves the lock held or not
    as [held] says. *)
Definition lock_is (held : bool) (s : kstate) : Prop :=
  lock_run (log s) = Some held.

(** ** Scenarios for the exit of a parent *)

(** The user process (pid 2) has forked two children (pids 3 and 4, objects
    3 and 4); the first has called _exit(7) and the parent runs. *)
Definition s_two_children : kstate :=
  Eval vm_compute in
    set_curproc (Some 2%positive)
      (final (@sys__exit small_config 7
                (set_curproc (Some 3%positive)
                   (final ((@sys_fork small_config 1%positive (Some 1%positive);;
                            @sys_fork small_config 1%positive (Some 1%positive))
                             s_user))))).

(** The user process has four children, the last two of which share pid 5,
    and the object of the first child is no longer allocated. *)
Definition s_first_freed : kstate :=
  Eval vm_compute in set_procs (delete 3%positive) s_full.

(** ** Running computations *)

Lemma run_bind {A B} (m : M A) (k : A → M B) s :
  (m ≫= k) s = match m s with
               | Ret a s' => k a s'
               | Exited s' => Exited s'
               | Blocked s' => Blocked s'
               | Panic msg => Panic msg
               | Undefined => Undefined
               end.
Proof. reflexivity. Qed.

Lemma run_bind_Ret {A B} (m : M A) (k : A → M B) s a s' :
  m s = Ret a s' → (m ≫= k) s = k a s'.
Proof. intros E. rewrite run_bind, E. reflexivity. Qed.

Lemma bind_Ret_inv {A B} (m : M A) (k : A → M B) s b s'' :
  (m ≫= k) s = Ret b s'' → ∃ a s', m s = Ret a s' ∧ k a s' = Ret b s''.
Proof. rewrite run_bind. destruct (m s); try discriminate. eauto. Qed.

Lemma kstate_eq (s1 s2 : kstate) :
  procs s1 = procs s2 → names s1 = names s2 → filetables s1 = filetables s2 →
  arrays s1 = arrays s2 → trapframes s1 = trapframes s2 →
  addrspaces s1 = addrspaces s2 → vnodes s1 = vnodes s2 → words s1 = words s2 →
  kproc s1 = kproc s2 → curproc s1 = curproc s2 → ptable s1 = ptable s2 →
  oracle s1 = oracle s2 → log s1 = log s2 → s1 = s2.
Proof. destruct s1, s2; cbn; intros; subst; reflexivity. Qed.

Lemma pidtable_eq (t1 t2 : pidtable) :
  pid_procs t1 = pid_procs t2 → pid_status t1 = pid_status t2 →
  pid_waitcode t1 = pid_waitcode t2 → pid_available t1 = pid_available t2 →
  pid_next t1 = pid_next t2 → t1 = t2.
Proof. destruct t1, t2; cbn; intros; subst; reflexivity. Qed.

(** A fresh address is not live, so freeing it again undoes its allocation. *)
Lemma fresh_lookup {V} (m : gmap positive V) : m !! fresh (dom m) = None.
Proof. apply not_elem_of_dom, is_fresh. Qed.

Lemma fresh_delete_insert {V} (m : gmap positive V) v :
  delete (fresh (dom m)) (<[fresh (dom m) := v]> m) = m.
Proof. apply delete_insert_id, fresh_lookup. Qed.

Lemma insert_fresh_ne {V} (m : gmap positive V) v :
  <[fresh (dom m) := v]> m ≠ m.
Proof.
  intros E. apply (f_equal (λ m', m' !! fresh (dom m))) in E.
  rewrite lookup_insert_eq, fresh_lookup in E. discriminate.
Qed.

Lemma lookup_insert_fresh {V} (m : gmap positive V) v a x :
  m !! a = Some x → <[fresh (dom m) := v]> m !! a = Some x.
Proof.
  intros E. rewrite lookup_insert_ne; [done|].
  intros <-. rewrite fresh_lookup in E. discriminate.
Qed.

(** Symbolic execution: the services are unfolded down to the monad, and
    the state, a record of its fields, is computed forward. *)
Ltac munfold :=
  unfold kstrdup, ft_create, ft_init_std, ft_copy, ft_destroy, array_create,
    array_num, array_get, array_add, array_remove, array_destroy, as_copy,
    as_destroy, as_deactivate, VOP_INCREF, VOP_DECREF, lock_acquire,
    lock_release, cv_broadcast, cv_wait, cv_sleep, thread_fork, thread_exit,
    store_word, get_curproc, store_proc, load_proc, kmalloc, alloc, kfree,
    store, load, emit, KASSERT, panic, undefined, deref, draw, modify, get,
    tbl_status, tbl_set_status, tbl_set_proc, tbl_set_waitcode in *;
  unfold load, deref, modify, get, undefined, panic, mbind, M_bind, mret,
    M_ret in *.

Ltac msimpl :=
  repeat (cbn in *;
    rewrite ?lookup_insert_eq, ?fresh_delete_insert, ?take_0,
      ?(decide_True (P := 0 = 0)) in * by done).

Ltac inv_lists :=
  repeat match goal with
  | H : Exists _ (_ :: _) |- _ => inversion_clear H
  | H : Exists _ [] |- _ => inversion H
  | H : Forall _ (_ :: _) |- _ => inversion_clear H
  end.

(** One case split on what the computation is stuck at: a lookup, a null
    test, a comparison. *)
Ltac mcase :=
  match goal with
  | E : ?x = _ |- context [match ?x with _ => _ end] => rewrite E
  | |- context [match ?m !! ?k with _ => _ end] => destruct (m !! k) eqn:?
  | |- context [match ?x with _ => _ end] => is_var x; destruct x
  | |- context [match children ?p with _ => _ end] => destruct (children p) eqn:?
  | |- context [match p_cwd ?p with _ => _ end] => destruct (p_cwd p) eqn:?
  | |- context [match p_addrspace ?p with _ => _ end] =>
      destruct (p_addrspace p) eqn:?
  | |- context [match proc_ft ?p with _ => _ end] => destruct (proc_ft p) eqn:?
  | |- context [match p_name ?p with _ => _ end] => destruct (p_name p) eqn:?
  | |- context [decide ?P] => destruct (decide P); simplify_eq
  | E : in_table ?x = _ |- context [in_table ?x] => rewrite E
  | |- context [in_table ?x] => destruct (in_table x) eqn:?
  end.

Ltac mexec := repeat (cbn; try done; mcase); cbn.

(** ** proc_create *)

(** C7.  proc_create always returns.  When one of its four allocations
    (the object, the name, the file table, the children list) fails, that
    is when one of the results it draws is a failure, it returns null and
    the state it leaves differs from the one it found in nothing but the
    results used up: every object allocated by the earlier steps has been
    freed.  When none fails it returns an object. *)
Theorem proc_create_unwinds (name : string) (s : kstate) :
  ∃ r s', proc_create name s = Ret r s' ∧
    (Exists (λ x, x ≠ 0) (take 4 (oracle s)) →
       r = None ∧ set_oracle (oracle s) s' = s) ∧
    (Forall (λ x, x = 0) (take 4 (oracle s)) → is_Some r).
Proof.
  destruct s as [pr nm ft ar tfs ass vn wd kp cp pt o lg].
  unfold proc_create. munfold.
  repeat (first [ progress msimpl
    | match goal with
      | |- context [match ?o with [] => _ | _ :: _ => _ end] => destruct o
      | |- context [decide (?r = 0)] => destruct (decide (r = 0)) as [->|?]
      end ]);
  (do 2 eexists; split; [reflexivity|]; split; [intros Hex | intros Hf]);
  msimpl; inv_lists; try done; eauto.
  all: split; [done|].
  all: apply kstate_eq; cbn;
    rewrite ?insert_insert_eq, ?fresh_delete_insert; done.
Qed.

(** The successful run of proc_create. *)
Lemma proc_create_ok (name : string) (s : kstate) :
  Forall (λ x, x = 0) (take 4 (oracle s)) →
  proc_create name s = Ret (Some (fresh (dom (procs s)))) (created name s).
Proof.
  destruct s as [pr nm ft ar tfs ass vn wd kp cp pt o lg].
  unfold proc_create, created, new_proc_at. munfold. intros Hf.
  repeat (first [ progress msimpl
    | match goal with
      | |- context [match ?o with [] => _ | _ :: _ => _ end] => destruct o
      | |- context [decide (?r = 0)] => destruct (decide (r = 0)) as [->|?]
      end ]);
  msimpl; inv_lists; try done.
  all: f_equal; apply kstate_eq; cbn; rewrite ?insert_insert_eq; done.
Qed.

(** ** proc_destroy *)

Lemma array_clear_run (arr : addr) (n : nat) : ∀ (s : kstate) (l : list addr),
  arrays s !! arr = Some l → (n ≤ length l)%nat →
  array_clear (Some arr) n s = Ret tt (set_arrays <[arr := drop n l]> s).
Proof.
  induction n as [|n IH]; intros s l Hl Hn; cbn [array_clear].
  - f_equal. apply kstate_eq; cbn; try done.
    rewrite drop_0. symmetry. by apply insert_id.
  - destruct l as [|x l]; cbn in Hn; [lia|].
    rewrite run_bind. unfold array_remove at 1. munfold. cbn. rewrite Hl. cbn.
    rewrite decide_True by lia. cbn. rewrite Hl. cbn.
    rewrite (IH _ l) by (cbn; rewrite ?lookup_insert_eq; first [done | lia]).
    f_equal. apply kstate_eq; cbn; try done. by rewrite insert_insert_eq.
Qed.

Lemma proc_destroy_run (proc : addr) (s : kstate) :
  proc_destroy proc s =
  if decide (Some proc = kproc s) then Panic "assertion failed"
  else match destroyed proc s with
       | Some s' => Ret tt s'
       | None => Undefined
       end.
Proof.
  destruct s as [pr nm ft ar tfs ass vn wd kp cp pt o lg].
  unfold proc_destroy, destroyed, proc_setas. cbn.
  rewrite !run_bind. unfold get at 1, KASSERT. cbn.
  destruct (decide (Some proc = kp)) as [E|E].
  { rewrite bool_decide_eq_false_2 by (intros Hn; apply Hn; exact E). done. }
  rewrite bool_decide_eq_true_2 by done.
  unfold mret at 1, M_ret at 1. cbn beta iota.
  munfold.
  repeat (cbn -[array_clear]; try done;
    first [ rewrite lookup_insert_eq
          | erewrite array_clear_run
              by (cbn; first [eassumption | apply lookup_insert_eq | lia | done])
          | mcase ]).
  all: f_equal; apply kstate_eq; cbn;
    rewrite ?delete_insert_eq, ?app_nil_r; done.
Qed.

(** What a successful proc_destroy leaves of the rest of the state. *)
Lemma destroyed_Some (proc : addr) (s s' : kstate) :
  destroyed proc s = Some s' →
  ∃ p arr, procs s !! proc = Some p ∧ children p = Some arr ∧
    procs s' = delete proc (procs s) ∧ arrays s' = delete arr (arrays s) ∧
    ptable s' = ptable s ∧ kproc s' = kproc s ∧ curproc s' = curproc s ∧
    words s' = words s ∧ trapframes s' = trapframes s ∧ oracle s' = oracle s.
Proof.
  unfold destroyed. intros Hd.
  apply bind_Some in Hd as (p & Hp & Hd).
  apply bind_Some in Hd as (vn' & _ & Hd).
  apply bind_Some in Hd as (arr & Harr & Hd).
  apply bind_Some in Hd as (l & _ & Hd).
  apply bind_Some in Hd as (as' & _ & Hd).
  apply bind_Some in Hd as (ft & _ & Hd).
  apply bind_Some in Hd as (lft & _ & Hd).
  apply bind_Some in Hd as (nm' & _ & Hd).
  injection Hd as <-. exists p, arr. cbn. done.
Qed.

Lemma destroyed_set_ptable (proc : addr) (f : pidtable → pidtable) (s : kstate) :
  destroyed proc (set_ptable f s) = set_ptable f <$> destroyed proc s.
Proof.
  unfold destroyed. cbn.
  destruct (procs s !! proc) as [p|]; cbn; [|done].
  destruct (p_cwd p) as [vn|]; cbn; [destruct (vnodes s !! vn); cbn; [|done]|];
  (destruct (children p) as [arr|]; cbn; [|done]);
  (destruct (arrays s !! arr); cbn; [|done]);
  (destruct (p_addrspace p) as [a|]; cbn;
     [destruct (addrspaces s !! a); cbn; [|done]|]);
  (destruct (proc_ft p) as [ft|]; cbn; [|done]);
  (destruct (filetables s !! ft); cbn; [|done]);
  (destruct (p_name p) as [nm|]; cbn; [destruct (names s !! nm); cbn; [|done]|]);
  done.
Qed.

(** ** sys_waitpid *)

Section waitpid.
Context `{kconfig}.

Lemma tbl_status_run (i : Z) (s : kstate) :
  tbl_status i s = match pid_status (ptable s) !! i with
                   | Some st => Ret st s
                   | None => Undefined
                   end.
Proof. unfold tbl_status. munfold. cbn. by destruct (_ !! _). Qed.

(** The loop of sys_waitpid, entered with the status just read: it leaves
    only with ZOMBIE read from the table it then holds, and touches nothing
    but the table (which the other threads write) and the trace. *)
Lemma wait_zombie_cases (pid : Z) (wakes : list pidtable) :
  ∀ status s, pid_status (ptable s) !! pid = Some status →
    match wait_zombie pid status wakes s with
    | Ret st s' => st = ZOMBIE ∧ pid_status (ptable s') !! pid = Some ZOMBIE
                   ∧ words s' = words s
    | Blocked _ => Forall (λ t, ∃ st, pid_status t !! pid = Some st ∧ st ≠ ZOMBIE)
                     (ptable s :: wakes)
    | Undefined => Exists (λ t, pid_status t !! pid = None) wakes
    | Exited _ | Panic _ => False
    end.
Proof.
  induction wakes as [|t wakes IH]; intros status s Hst; cbn.
  - destruct (decide (status = ZOMBIE)) as [->|Hne]; cbn; [done|].
    constructor; [eauto | constructor].
  - destruct (decide (status = ZOMBIE)) as [->|Hne]; cbn; [done|].
    rewrite run_bind. unfold cv_wait at 1. munfold. cbn.
    destruct (pid_status t !! pid) as [st'|] eqn:Ht; cbn.
    + specialize (IH st' (set_ptable (λ _, t) (set_log (λ l, l ++ [CvWait]) s)) Ht).
      destruct (wait_zombie _ _ _ _); try done.
      * constructor; [eauto | exact IH].
      * by apply Exists_cons_tl.
    + apply Exists_cons_hd. done.
Qed.

(** The loop sleeps for good exactly when no table it is shown has made the
    slot a zombie. *)
Lemma wait_zombie_blocks (pid : Z) (wakes : list pidtable) :
  ∀ status s, pid_status (ptable s) !! pid = Some status →
    Forall (λ t, ∃ st, pid_status t !! pid = Some st ∧ st ≠ ZOMBIE)
      (ptable s :: wakes) →
    ∃ s', wait_zombie pid status wakes s = Blocked s'.
Proof.
  induction wakes as [|t wakes IH]; intros status s Hst Hall; cbn.
  - apply Forall_cons_1 in Hall as [(st & Hst' & Hne) _].
    rewrite Hst in Hst'. injection Hst' as ->.
    rewrite decide_False by done. unfold cv_sleep. eauto.
  - apply Forall_cons_1 in Hall as [(st & Hst' & Hne) Hall].
    rewrite Hst in Hst'. injection Hst' as ->.
    rewrite decide_False by done.
    rewrite run_bind. unfold cv_wait at 1. munfold. cbn.
    pose proof Hall as Hall'.
    apply Forall_cons_1 in Hall' as [(st' & Ht & Hne') _].
    rewrite Ht. cbn. apply IH; done.
Qed.

(** sys_waitpid around its loop. *)
Lemma sys_waitpid_run (pid : Z) (retval0 : option addr) (wakes : list pidtable)
    (s : kstate) :
  sys_waitpid pid retval0 wakes s =
  match pid_status (ptable s) !! pid with
  | None => Undefined
  | Some status =>
    match wait_zombie pid status wakes (set_log (λ l, l ++ [LockAcquire]) s) with
    | Ret st s' =>
      Ret 0 (match retval0 with
             | Some a => set_words <[a := status_code st]>
             | None => λ s, s
             end (set_log (λ l, l ++ [LockRelease]) s'))
    | Exited s' => Exited s'
    | Blocked s' => Blocked s'
    | Panic msg => Panic msg
    | Undefined => Undefined
    end
  end.
Proof.
  unfold sys_waitpid. munfold. cbn.
  destruct (pid_status (ptable s) !! pid); cbn; [|done].
  destruct (wait_zombie _ _ _ _); cbn; try done.
  destruct retval0; done.
Qed.

(** C10.  sys_waitpid checks nothing about its pid: whatever the pid and
    whoever the caller, it never halts the system and returns no error.
    It reads the status of the slot and, while that is not ZOMBIE (READY,
    RUNNING or ORPHAN alike, in any slot holding a status), waits.  When
    it returns, the value is 0 and the slot is a zombie; it stores a
    result through retval0 only when retval0 is not null.  The one other
    outcome is the read of a cell that holds no status. *)
Theorem sys_waitpid_no_validation (pid : Z) (retval0 : option addr)
    (wakes : list pidtable) (s : kstate) :
  (∀ msg, sys_waitpid pid retval0 wakes s ≠ Panic msg) ∧
  (∀ s', sys_waitpid pid retval0 wakes s ≠ Exited s') ∧
  (∀ r s', sys_waitpid pid retval0 wakes s = Ret r s' →
     r = 0 ∧ pid_status (ptable s') !! pid = Some ZOMBIE ∧
     words s' = match retval0 with
                | Some a => <[a := status_code ZOMBIE]> (words s)
                | None => words s
                end) ∧
  (Forall (λ t, ∃ st, pid_status t !! pid = Some st ∧ st ≠ ZOMBIE)
     (ptable s :: wakes) →
   ∃ s', sys_waitpid pid retval0 wakes s = Blocked s') ∧
  (pid_status (ptable s) !! pid = Some ZOMBIE →
   ∃ s', sys_waitpid pid retval0 wakes s = Ret 0 s') ∧
  (sys_waitpid pid retval0 wakes s = Undefined →
   Exists (λ t, pid_status t !! pid = None) (ptable s :: wakes)).
Proof.
  rewrite sys_waitpid_run.
  destruct (pid_status (ptable s) !! pid) as [status|] eqn:Hst.
  2:{ refine (conj _ (conj _ (conj _ (conj _ (conj _ _))))); try done.
      - intros Hall. apply Forall_cons_1 in Hall as [(st & Hst' & _) _]. congruence.
      - intros _. by apply Exists_cons_hd. }
  set (s1 := set_log (λ l, l ++ [LockAcquire]) s).
  assert (Hst1 : pid_status (ptable s1) !! pid = Some status) by exact Hst.
  pose proof (wait_zombie_cases pid wakes status s1 Hst1) as Hc.
  refine (conj _ (conj _ (conj _ (conj _ (conj _ _))))).
  - intros msg. by destruct (wait_zombie _ _ _ _).
  - intros s'. by destruct (wait_zombie _ _ _ _).
  - destruct (wait_zombie _ _ _ _) as [st s2| | | |]; try done.
    destruct Hc as (-> & Hz & Hw). intros r s' [= <- <-].
    destruct retval0; cbn; rewrite ?Hw; done.
  - intros Hall.
    destruct (wait_zombie_blocks pid wakes status s1 Hst1 Hall) as [s' ->]. eauto.
  - intros [= ->]. destruct wakes; cbn; eauto.
  - destruct (wait_zombie _ _ _ _) as [st s2| | | |]; try done.
    intros _. by apply Exists_cons_tl.
Qed.

(** C1.  What sys_waitpid stores through retval0 is the code of the status
    it read last, never the exit code of the table.  Whenever it returns,
    the slot is a zombie and the word stored is the code of ZOMBIE; and on
    a slot that is already a zombie with exit code c recorded it returns at
    once, stores the code of ZOMBIE and leaves c in the table. *)
Theorem sys_waitpid_stores_status (pid : Z) (a : addr) (wakes : list pidtable)
    (s : kstate) :
  (∀ r s', sys_waitpid pid (Some a) wakes s = Ret r s' →
     pid_status (ptable s') !! pid = Some ZOMBIE ∧
     words s' !! a = Some (status_code ZOMBIE)) ∧
  (∀ c, pid_status (ptable s) !! pid = Some ZOMBIE →
     pid_waitcode (ptable s) !! pid = Some c →
     ∃ s', sys_waitpid pid (Some a) wakes s = Ret 0 s' ∧
           words s' !! a = Some (status_code ZOMBIE) ∧
           pid_waitcode (ptable s') !! pid = Some c).
Proof.
  rewrite sys_waitpid_run. split.
  - intros r s'.
    destruct (pid_status (ptable s) !! pid) as [status|] eqn:Hst; [|done].
    set (s1 := set_log (λ l, l ++ [LockAcquire]) s).
    assert (Hst1 : pid_status (ptable s1) !! pid = Some status) by exact Hst.
    pose proof (wait_zombie_cases pid wakes status s1 Hst1) as Hc.
    destruct (wait_zombie _ _ _ _) as [st s2| | | |]; try done.
    destruct Hc as (-> & Hz & _). intros [= <- <-]. cbn.
    by rewrite lookup_insert_eq.
  - intros c Hz Hc. rewrite Hz.
    destruct wakes; cbn; eexists; split; try reflexivity;
      cbn; rewrite lookup_insert_eq; done.
Qed.
End waitpid.

(** In the scenario the child exits with 7 and the parent, waiting for pid 3,
    is handed 2, the code of ZOMBIE. *)
Lemma sys_waitpid_stores_status_witness :
  ∃ s', @sys_waitpid small_config 3 (Some 1%positive) [] s_child_exited = Ret 0 s' ∧
        words s' !! 1%positive = Some 2 ∧
        pid_waitcode (ptable s') !! 3 = Some 7.
Proof.
  apply (@sys_waitpid_stores_status small_config 3 1%positive [] s_child_exited);
    vm_compute; reflexivity.
Defined.

(** The same when the parent waits first and is woken by the exit of the
    child. *)
Example sys_waitpid_woken_by_exit :
  ∃ s', @sys_waitpid small_config 3 (Some 1%positive) [ptable s_child_exited]
          s_forked = Ret 0 s' ∧
        words s' !! 1%positive = Some 2 ∧
        pid_waitcode (ptable s') !! 3 = Some 7.
Proof. eexists. vm_compute. done. Qed.

(** ** The pid table *)

Section table_run.
Context `{kconfig}.

Lemma in_table_spec (i : Z) : in_table i = true ↔ 0 ≤ i < PID_MAX.
Proof. unfold in_table. apply bool_decide_eq_true. Qed.

Lemma scan_ready_run (n : nat) : ∀ (i : Z) (s : kstate),
  scan_ready n i s =
  match scan_find n i (pid_status (ptable s)) with
  | Some (Some j) => Ret tt (set_ptable (set_pid_next j) s)
  | Some None => Ret tt s
  | None => Undefined
  end.
Proof.
  induction n as [|n IH]; intros i s; cbn; [done|].
  rewrite run_bind, tbl_status_run.
  destruct (pid_status (ptable s) !! i) as [st|]; [|done].
  destruct (decide (st = READY)); [done|]. apply IH.
Qed.

(** pidtable_add, computed: the child is appended to the children of the
    current process (unless array_add fails), and the table is worked on. *)
Lemma pidtable_add_run (proc : addr) (s : kstate) :
  pidtable_add proc s =
  match curproc s with
  | None => Undefined
  | Some cur =>
    match procs s !! cur with
    | None => Undefined
    | Some c =>
      match children c with
      | None => Undefined
      | Some arr =>
        match arrays s !! arr with
        | None => Undefined
        | Some l =>
          let s1 := set_log (λ l, l ++ [LockAcquire]) s in
          let s2 := match oracle s with
                    | [] => set_arrays <[arr := l ++ [proc]]> s1
                    | r :: o =>
                      if decide (r = 0)
                      then set_arrays <[arr := l ++ [proc]]> (set_oracle o s1)
                      else set_oracle o s1
                    end in
          let next := pid_next (ptable s) in
          if decide (pid_available (ptable s) > 0) then
            if in_table next then
              let s3 := set_ptable (take_slot next proc) s2 in
              if decide (pid_available (ptable s) - 1 > 0) then
                match scan_find (Z.to_nat (PID_MAX - next)) next
                        (<[next := RUNNING]> (pid_status (ptable s))) with
                | Some (Some j) =>
                  Ret next (set_log (λ l, l ++ [LockRelease])
                              (set_ptable (set_pid_next j) s3))
                | Some None => Ret next (set_log (λ l, l ++ [LockRelease]) s3)
                | None => Undefined
                end
              else
                Ret next (set_log (λ l, l ++ [LockRelease])
                            (set_ptable (set_pid_next (-1)) s3))
            else Undefined
          else Panic "PID table full!"
        end
      end
    end
  end.
Proof.
  destruct s as [pr nm ft ar tfs ass vn wd kp cp pt o lg].
  unfold pidtable_add. munfold. cbn.
  repeat (cbn; try done;
    first [ rewrite scan_ready_run
          | mcase
          | match goal with
            | |- context [in_table ?x] => destruct (in_table x)
            | |- context [scan_find ?a ?b ?c] =>
                destruct (scan_find a b c) as [[?|]|]
            end ]).
Qed.

Lemma scan_find_defined (n : nat) : ∀ (i : Z) (m : gmap Z pstatus),
  (∀ j, i ≤ j < i + Z.of_nat n → is_Some (m !! j)) →
  scan_find n i m ≠ None.
Proof.
  induction n as [|n IH]; intros i m Hm; cbn; [done|].
  destruct (Hm i) as [st ->]; [lia|].
  destruct (decide (st = READY)); [done|].
  apply IH. intros j Hj. apply Hm. lia.
Qed.

(** A registration that succeeds: the current process is live with a
    children list, array_add does not fail, the counter is positive, the
    hint is a slot of the table and every cell from the hint on holds a
    status.  All of the table but the hint is then known. *)
Lemma pidtable_add_ok (p cur arr : addr) (c : proc) (l : list addr)
    (o : list Z) (s : kstate) :
  curproc s = Some cur → procs s !! cur = Some c → children c = Some arr →
  arrays s !! arr = Some l → oracle s = 0 :: o →
  pid_available (ptable s) > 0 → in_table (pid_next (ptable s)) = true →
  (∀ j, pid_next (ptable s) ≤ j < PID_MAX → is_Some (pid_status (ptable s) !! j)) →
  ∃ hint,
    pidtable_add p s =
    Ret (pid_next (ptable s))
      (set_log (λ l, l ++ [LockRelease])
         (set_ptable (λ t, set_pid_next hint (take_slot (pid_next t) p t))
            (set_arrays <[arr := l ++ [p]]>
               (set_oracle o (set_log (λ l, l ++ [LockAcquire]) s))))).
Proof.
  intros Hcur Hc Harr Hl Ho Hav Hin Hcells.
  rewrite pidtable_add_run, Hcur, Hc, Harr, Hl, Ho. cbn zeta. rewrite Hin.
  rewrite (decide_True (P := 0 = 0)) by done.
  rewrite (decide_True (P := pid_available (ptable s) > 0)) by done.
  destruct (decide (pid_available (ptable s) - 1 > 0)).
  - pose proof (scan_find_defined (Z.to_nat (PID_MAX - pid_next (ptable s)))
      (pid_next (ptable s)) (<[pid_next (ptable s) := RUNNING]> (pid_status (ptable s))))
      as Hscan.
    destruct (scan_find _ _ _) as [[j|]|].
    + exists j. f_equal.
    + exists (pid_next (ptable s)). f_equal.
    + exfalso. apply Hscan; [|done]. intros j Hj.
      apply lookup_insert_is_Some'. right. apply Hcells. lia.
  - exists (-1). f_equal.
Qed.
End table_run.

(** ** pidtable_bootstrap and the counter of free slots *)

Section bootstrap.
Context `{kconfig}.

Lemma bootstrap_slots_run (n : nat) : ∀ (i : Z) (s : kstate),
  0 ≤ i → i + Z.of_nat n ≤ PID_MAX →
  bootstrap_slots n i s = Ret tt (set_ptable (ready_slots n i) s).
Proof.
  induction n as [|n IH]; intros i s Hi Hn; cbn [bootstrap_slots ready_slots].
  - by destruct s as [? ? ? ? ? ? ? ? ? ? [] ? ?].
  - assert (Hin : in_table i = true) by (apply in_table_spec; lia).
    unfold tbl_set_proc, tbl_set_status, tbl_set_waitcode.
    rewrite Hin. munfold. cbn -[bootstrap_slots ready_slots].
    rewrite IH by lia. reflexivity.
Qed.

Lemma ready_slots_status (n : nat) : ∀ (i j : Z) (t : pidtable),
  pid_status (ready_slots n i t) !! j =
  if decide (i ≤ j < i + Z.of_nat n) then Some READY else pid_status t !! j.
Proof.
  induction n as [|n IH]; intros i j t; cbn [ready_slots].
  - rewrite decide_False by lia. done.
  - rewrite IH. cbn.
    destruct (decide (i + 1 ≤ j < i + 1 + Z.of_nat n)).
    + rewrite decide_True by lia. done.
    + destruct (decide (i = j)) as [->|].
      * rewrite lookup_insert_eq, decide_True by lia. done.
      * rewrite lookup_insert_ne, decide_False by lia. done.
Qed.

Lemma ready_slots_available (n : nat) : ∀ (i : Z) (t : pidtable),
  pid_available (ready_slots n i t) = pid_available t ∧
  pid_next (ready_slots n i t) = pid_next t.
Proof.
  induction n as [|n IH]; intros i t; cbn [ready_slots]; [done|].
  destruct (IH (i + 1) (set_pid_waitcode <[i := 0]>
    (set_pid_status <[i := READY]> (set_pid_procs <[i := None]> t)))) as [-> ->].
  done.
Qed.

(** Counting READY slots: a status map is known by its lookups. *)
Lemma count_ready_insert_ready (i : Z) (t : pidtable) :
  pid_status t !! i ≠ Some READY →
  count_ready (set_pid_status <[i := READY]> t) = S (count_ready t).
Proof.
  intros Hi. unfold count_ready. cbn.
  rewrite map_filter_insert_True by done.
  apply map_size_insert_None, map_lookup_filter_None.
  right. intros st Hst. cbn. intros ->. done.
Qed.

Lemma count_ready_ext (t1 t2 : pidtable) :
  (∀ j, pid_status t1 !! j = pid_status t2 !! j) → count_ready t1 = count_ready t2.
Proof. intros E. unfold count_ready. by rewrite (map_eq _ _ E). Qed.

Lemma count_ready_slots (n : nat) : ∀ (i : Z) (t : pidtable),
  (∀ j, i ≤ j < i + Z.of_nat n → pid_status t !! j ≠ Some READY) →
  count_ready (ready_slots n i t) = (n + count_ready t)%nat.
Proof.
  induction n as [|n IH]; intros i t Hfree; cbn [ready_slots]; [done|].
  rewrite IH.
  - rewrite (count_ready_ext _ (set_pid_status <[i := READY]> t)) by done.
    rewrite count_ready_insert_ready by (apply Hfree; lia). lia.
  - intros j Hj. cbn. rewrite lookup_insert_ne by lia. apply Hfree. lia.
Qed.

Lemma count_ready_none (t : pidtable) :
  (∀ j, pid_status t !! j ≠ Some READY) → count_ready t = 0%nat.
Proof.
  intros Hno. unfold count_ready. apply map_size_empty_iff, map_empty.
  intros j. apply map_lookup_filter_None. right. intros st Hst. cbn.
  intros ->. by apply (Hno j).
Qed.

(** The table that pidtable_bootstrap builds, for a kernel process of pid 1. *)
Lemma boot_run :
  1 < PID_MIN → PID_MIN ≤ PID_MAX →
  ∃ s, boot (kstate_init []) = Ret tt s ∧ add_ready s ∧
       table_after 0 (ptable s) ∧ pid_next (ptable s) = PID_MIN ∧
       count_ready (ptable s) = Z.to_nat (PID_MAX - PID_MIN).
Proof.
  intros Hmin Hmax. unfold boot, proc_bootstrap.
  rewrite !run_bind, proc_create_ok by (cbn; constructor).
  assert (Hin : in_table 1 = true) by (apply in_table_spec; lia).
  unfold pidtable_bootstrap, tbl_set_proc, tbl_set_status, tbl_set_waitcode.
  unfold created, new_proc_at, kstate_init. munfold.
  repeat (cbn -[bootstrap_slots];
    rewrite ?lookup_insert_eq, ?Hin, ?(decide_True (P := 0 = 0)) by done).
  rewrite bootstrap_slots_run by lia.
  eexists. split; [reflexivity|].
  cbn -[ready_slots]. split; [|split; [|split]].
  - do 4 eexists. cbn. rewrite lookup_insert_eq. cbn.
    rewrite lookup_insert_eq. done.
  - split.
    + intros j. rewrite ready_slots_status. cbn. unfold status_after.
      rewrite Z2Nat.id by lia.
      destruct (decide (j = 1)) as [->|].
      * rewrite decide_False by lia. by rewrite lookup_insert_eq.
      * rewrite lookup_insert_ne, lookup_empty by done.
        destruct (decide (PID_MIN ≤ j < PID_MIN + (PID_MAX - PID_MIN))).
        -- rewrite decide_False, decide_True by lia. done.
        -- rewrite decide_False, decide_False by lia. done.
    + destruct (ready_slots_available (Z.to_nat (PID_MAX - PID_MIN)) PID_MIN
        (set_pid_next PID_MIN (set_pid_available (PID_MAX - 1)
           (set_pid_waitcode <[1 := 0]> (set_pid_status <[1 := RUNNING]>
              (set_pid_procs <[1 := Some (fresh (dom (∅ : gmap positive proc)))]>
                 pidtable_blank)))))) as [Ha _].
      rewrite Ha. cbn. lia.
  - match goal with |- pid_next (ready_slots ?n ?i ?t) = _ =>
      destruct (ready_slots_available n i t) as [_ ->] end. done.
  - rewrite count_ready_slots.
    + rewrite (count_ready_none _); [lia|].
      intros j. cbn. destruct (decide (j = 1)) as [->|].
      * by rewrite lookup_insert_eq.
      * by rewrite lookup_insert_ne, lookup_empty.
    + intros j Hj. cbn. rewrite lookup_insert_ne, lookup_empty by lia. done.
Qed.

(** C4.  Right after the bootstrap the counter of free slots is
    PID_MAX - 1, while PID_MAX - PID_MIN slots are READY: with pid 1 kept
    for the kernel (1 < PID_MIN), the counter is too large. *)
Theorem bootstrap_available_exceeds_ready :
  1 < PID_MIN → PID_MIN ≤ PID_MAX →
  ∃ s, boot (kstate_init []) = Ret tt s ∧
       pid_available (ptable s) = PID_MAX - 1 ∧
       Z.of_nat (count_ready (ptable s)) = PID_MAX - PID_MIN ∧
       pid_available (ptable s) ≠ Z.of_nat (count_ready (ptable s)).
Proof.
  intros Hmin Hmax.
  destruct (boot_run Hmin Hmax) as (s & Hs & _ & [_ Ha] & _ & Hc).
  exists s. rewrite Ha, Hc. repeat split; [done|lia..].
Qed.
End bootstrap.

Lemma bootstrap_available_exceeds_ready_witness :
  ∃ s, @boot small_config (kstate_init []) = Ret tt s ∧
       pid_available (ptable s) = 5 ∧
       Z.of_nat (count_ready (ptable s)) = 4 ∧
       pid_available (ptable s) ≠ Z.of_nat (count_ready (ptable s)).
Proof.
  apply (@bootstrap_available_exceeds_ready small_config); vm_compute; done.
Defined.

(** ** pidtable_add and the hint *)

Section hint.
Context `{kconfig}.

(** One registration in a table that has only been filled so far: the hinted
    slot is taken, and the hint moves to the next slot if there is one. *)
Lemma pidtable_add_after (p : addr) (k : Z) (s : kstate) :
  1 < PID_MIN → 0 ≤ k → PID_MIN + k < PID_MAX →
  add_ready s → table_after k (ptable s) → pid_next (ptable s) = PID_MIN + k →
  ∃ s', pidtable_add p s = Ret (PID_MIN + k) s' ∧ add_ready s' ∧
        table_after (k + 1) (ptable s') ∧
        pid_next (ptable s') =
          (if decide (PID_MIN + k + 1 < PID_MAX) then PID_MIN + k + 1
           else PID_MIN + k).
Proof.
  intros Hmin Hk Hlt (cur & c & arr & l & Hcur & Hc & Harr & Hl & Ho)
    [Hst Hav] Hnext.
  rewrite pidtable_add_run, Hcur, Hc, Harr, Hl, Ho, Hnext, Hav.
  cbn zeta.
  rewrite (decide_True (P := PID_MAX - 1 - k > 0)) by lia.
  assert (Hin : in_table (PID_MIN + k) = true) by (apply in_table_spec; lia).
  rewrite Hin. rewrite (decide_True (P := PID_MAX - 1 - k - 1 > 0)) by lia.
  replace (Z.to_nat (PID_MAX - (PID_MIN + k)))
    with (S (Z.to_nat (PID_MAX - (PID_MIN + k) - 1))) by lia.
  cbn [scan_find]. rewrite lookup_insert_eq.
  rewrite (decide_False (P := RUNNING = READY)) by done.
  assert (Hshape : ∀ j,
    <[PID_MIN + k := RUNNING]> (pid_status (ptable s)) !! j = status_after (k + 1) j).
  { intros j. destruct (decide (j = PID_MIN + k)) as [->|Hne];
      [rewrite lookup_insert_eq | rewrite lookup_insert_ne, Hst by done];
      unfold status_after; repeat case_decide; try done; lia. }
  assert (Hready : ∀ s0, add_ready
    (set_log (λ l0, l0 ++ [LockRelease])
       (set_ptable s0 (set_arrays <[arr := l ++ [p]]>
          (set_log (λ l0, l0 ++ [LockAcquire]) s))))).
  { intros s0. exists cur, c, arr, (l ++ [p]). cbn.
    rewrite lookup_insert_eq. done. }
  destruct (decide (PID_MIN + k + 1 < PID_MAX)) as [Hmore|Hlast].
  - replace (Z.to_nat (PID_MAX - (PID_MIN + k) - 1))
      with (S (Z.to_nat (PID_MAX - (PID_MIN + k) - 2))) by lia.
    cbn [scan_find]. rewrite Hshape. unfold status_after at 1.
    rewrite (decide_False (P := PID_MIN + k + 1 = 1)) by lia.
    rewrite (decide_False (P := PID_MIN ≤ PID_MIN + k + 1 < PID_MIN + (k + 1))) by lia.
    rewrite (decide_True (P := PID_MIN + (k + 1) ≤ PID_MIN + k + 1 < PID_MAX)) by lia.
    rewrite (decide_True (P := READY = READY)) by done.
    eexists. split; [reflexivity|]. split; [|split].
    + match goal with |- add_ready (set_log _ (set_ptable ?f (set_ptable ?g ?s0))) =>
        apply (Hready (λ t, f (g t))) end.
    + split; [exact Hshape | cbn; lia].
    + done.
  - replace (Z.to_nat (PID_MAX - (PID_MIN + k) - 1)) with O by lia.
    cbn [scan_find].
    eexists. split; [reflexivity|]. split; [|split].
    + apply Hready.
    + split; [exact Hshape | cbn; lia].
    + cbn. done.
Qed.

Lemma add_all_fill (ps : list addr) : ∀ (k : Z) (s : kstate),
  1 < PID_MIN → 0 ≤ k → ps ≠ [] → PID_MIN + k + Z.of_nat (length ps) = PID_MAX →
  add_ready s → table_after k (ptable s) → pid_next (ptable s) = PID_MIN + k →
  ∃ s', add_all ps s = Ret tt s' ∧
        table_after (PID_MAX - PID_MIN) (ptable s') ∧
        pid_next (ptable s') = PID_MAX - 1.
Proof.
  induction ps as [|p ps IH]; intros k s Hmin Hk Hne Hlen Hr Ht Hn; [done|].
  cbn [add_all]. cbn [length] in Hlen.
  destruct (pidtable_add_after p k s) as (s1 & Hadd & Hr1 & Ht1 & Hn1);
    [lia..|done|done|done|].
  rewrite (run_bind_Ret _ _ _ _ _ Hadd).
  destruct ps as [|p' ps].
  - cbn [add_all]. exists s1. split; [done|].
    cbn [length] in Hlen.
    rewrite decide_False in Hn1 by lia.
    replace (PID_MAX - PID_MIN) with (k + 1) by lia.
    split; [done | lia].
  - rewrite decide_True in Hn1 by (cbn [length] in Hlen; lia).
    apply (IH (k + 1)); [lia|lia|done| |done|done|lia].
    cbn [length] in *. lia.
Qed.

(** C5.  After the bootstrap, as many registrations as there are slots
    all succeed.  After the last one no READY slot remains, yet the hint is
    not the sentinel -1: it still names the last slot taken, which is
    RUNNING, and the counter of free slots is still positive. *)
Theorem hint_stale_when_table_full (ps : list addr) :
  1 < PID_MIN → PID_MIN < PID_MAX →
  Z.of_nat (length ps) = PID_MAX - PID_MIN →
  ∃ s, (boot;; add_all ps) (kstate_init []) = Ret tt s ∧
       count_ready (ptable s) = 0%nat ∧
       pid_next (ptable s) = PID_MAX - 1 ∧
       pid_next (ptable s) ≠ -1 ∧
       pid_status (ptable s) !! pid_next (ptable s) = Some RUNNING ∧
       pid_available (ptable s) = PID_MIN - 1.
Proof.
  intros Hmin Hmax Hlen.
  destruct (boot_run Hmin ltac:(lia)) as (s0 & Hboot & Hr & Ht & Hn & _).
  rewrite (run_bind_Ret _ _ _ _ _ Hboot).
  destruct (add_all_fill ps 0 s0) as (s & Hs & [Hst Hav] & Hnext);
    [lia|lia| |lia|done|done|lia|].
  { intros ->. cbn in Hlen. lia. }
  exists s. split; [done|]. split; [|split; [done|split; [lia|split]]].
  - apply count_ready_none. intros j. rewrite Hst. unfold status_after.
    repeat case_decide; try done; lia.
  - rewrite Hnext, Hst. unfold status_after.
    rewrite decide_False, decide_True by lia. done.
  - lia.
Qed.
End hint.

Lemma hint_stale_when_table_full_witness :
  ∃ s, (@boot small_config;; @add_all small_config [2; 3; 4; 5]%positive)
         (kstate_init []) = Ret tt s ∧
       @count_ready s.(ptable) = 0%nat ∧
       pid_next (ptable s) = 5 ∧
       pid_next (ptable s) ≠ -1 ∧
       pid_status (ptable s) !! pid_next (ptable s) = Some RUNNING ∧
       pid_available (ptable s) = 1.
Proof.
  apply (@hint_stale_when_table_full small_config [2; 3; 4; 5]%positive);
    vm_compute; done.
Defined.

(** The forward scan also misses a slot freed below the hint.  The first
    user process (pid 2) forks a child (pid 3); the child exits and the
    parent, exiting in turn, reaps it, so that slot 3 is READY again.  The
    kernel then starts two more programs, which get pids 4 and 5.  After
    the second of them the hint still names slot 5, now RUNNING, while slot
    3 is READY. *)
Example hint_misses_freed_slot :
  let s := final ((modify (set_curproc (Some 2%positive));;
                   @sys__exit small_config 0) s_child_exited) in
  let s' := final ((modify (set_curproc (Some 1%positive));;
                    @proc_create_runprogram small_config "a";;
                    @proc_create_runprogram small_config "b") s) in
  pid_status (ptable s) !! 3 = Some READY ∧
  pid_next (ptable s') = 5 ∧
  pid_status (ptable s') !! 5 = Some RUNNING ∧
  pid_status (ptable s') !! 3 = Some READY.
Proof. vm_compute. done. Qed.

(** ** pidtable_update_children *)

Section children.
Context `{kconfig}.

(** One turn of the loop: the child at index [i] is read from the children
    list of the parent and dealt with. *)
Lemma update_child_run (proc : addr) (i : nat) (s : kstate) :
  update_child proc i s =
  match procs s !! proc with
  | None => Undefined
  | Some p =>
    match children p with
    | None => Undefined
    | Some arr =>
      match arrays s !! arr with
      | None => Undefined
      | Some l =>
        match l !! i with
        | None => Panic "array_get: index out of range"
        | Some child => reap_or_orphan child s
        end
      end
    end
  end.
Proof.
  destruct s as [pr nm ft ar tfs ass vn wd kp cp pt o lg].
  unfold update_child, reap_or_orphan. munfold. cbn -[proc_destroy].
  destruct (pr !! proc) as [p|]; [|done]. cbn -[proc_destroy].
  destruct (children p) as [arr|]; [|done]. cbn -[proc_destroy].
  destruct (ar !! arr) as [l|]; [|done]. cbn -[proc_destroy].
  destruct (l !! i) as [child|]; [|done]. cbn -[proc_destroy].
  destruct (pr !! child) as [c|] eqn:Hc; [|done]. cbn -[proc_destroy].
  destruct (pid_status pt !! pid c) as [st|]; [|done]. cbn -[proc_destroy].
  destruct st; cbn -[proc_destroy destroyed]; try done;
    repeat (cbn -[proc_destroy destroyed]; try done;
      first [ rewrite Hc
            | rewrite proc_destroy_run
            | match goal with
              | |- context [decide ?P] => destruct (decide P)
              | E : in_table ?x = _ |- context [in_table ?x] => rewrite E
              | |- context [in_table ?x] => destruct (in_table x) eqn:?
              end ]).
Qed.

(** One child dealt with, when the system goes on: the child was RUNNING
    and is orphaned, or it was a ZOMBIE, and then its slot is freed and its
    object is gone. *)
Lemma reap_or_orphan_cases (child : addr) (s s1 : kstate) :
  reap_or_orphan child s = Ret tt s1 →
  ∃ c, procs s !! child = Some c ∧ in_table (pid c) = true ∧
    ((pid_status (ptable s) !! pid c = Some RUNNING ∧
      ptable s1 = set_pid_status <[pid c := ORPHAN]> (ptable s) ∧
      procs s1 = procs s ∧ arrays s1 = arrays s) ∨
     (pid_status (ptable s) !! pid c = Some ZOMBIE ∧
      ptable s1 = free_slot (pid c) (ptable s) ∧
      procs s1 = delete child (procs s) ∧
      ∃ arr, children c = Some arr ∧ arrays s1 = delete arr (arrays s))).
Proof.
  unfold reap_or_orphan.
  destruct (procs s !! child) as [c|] eqn:Hc; [|done].
  destruct (pid_status (ptable s) !! pid c) as [[]|] eqn:Hst; try done;
    destruct (in_table (pid c)) eqn:Hin; try done.
  - intros [= <-]. exists c. split; [done|]. split; [done|]. by left.
  - case_decide; [done|].
    destruct (destroyed _ _) as [s'|] eqn:Hd; [|done].
    intros [= <-]. exists c. split; [done|]. split; [done|]. right.
    apply destroyed_Some in Hd
      as (p & arr & Hp & Harr & Hprocs & Harrs & Hpt & _). cbn in *.
    rewrite Hc in Hp. injection Hp as <-. eauto 10.
Qed.

(** Dealing with a child leaves every other process object as it was, and
    every children list but the child's own. *)
Lemma reap_or_orphan_frame (child : addr) (s s1 : kstate) :
  reap_or_orphan child s = Ret tt s1 →
  ∃ c, procs s !! child = Some c ∧
    (∀ a, a ≠ child → procs s1 !! a = procs s !! a) ∧
    (∀ a pa, procs s1 !! a = Some pa → procs s !! a = Some pa) ∧
    (∀ arr, children c ≠ Some arr → arrays s1 !! arr = arrays s !! arr).
Proof.
  intros Hrun.
  destruct (reap_or_orphan_cases child s s1 Hrun)
    as (c & Hc & _ & [(_ & _ & Hprocs & Harrs)
                     | (_ & _ & Hprocs & arr & Harr & Harrs)]);
    exists c; (split; [done|]); rewrite Hprocs, Harrs.
  - repeat split; done.
  - split; [|split].
    + intros a Ha. by rewrite lookup_delete_ne.
    + intros a pa Ha. apply lookup_delete_Some in Ha as [_ Ha]. done.
    + intros arr' Hne. rewrite lookup_delete_ne; [done | congruence].
Qed.

(** The loop from index [length l - 1] down to 0 deals with the children
    [l] from the last to the first, whatever follows them in the list. *)
Lemma update_children_from_visit (parent arr : addr) (l : list addr) :
  ∀ (rest : list addr) (s : kstate) (p : proc),
  procs s !! parent = Some p → children p = Some arr →
  arrays s !! arr = Some (l ++ rest) →
  parent ∉ l →
  (∀ c pc, c ∈ l → procs s !! c = Some pc → children pc ≠ Some arr) →
  update_children_from parent (length l) s = visit_all (rev l) s.
Proof.
  induction l as [|c l IH] using rev_ind;
    intros rest s p Hp Harr Hl Hself Hapart; [done|].
  rewrite length_app, Nat.add_1_r, rev_unit. cbn [update_children_from visit_all length].
  rewrite !run_bind, update_child_run, Hp, Harr, Hl.
  rewrite <- app_assoc, lookup_app_r, Nat.sub_diag by done. cbn [lookup list_lookup app].
  destruct (reap_or_orphan c s) as [[] s1| | | |] eqn:Hc; try done.
  destruct (reap_or_orphan_frame c s s1 Hc) as (pc & Hpc & Hne & Hsub & Harrs).
  assert (parent ≠ c) by (intros ->; apply Hself; set_solver).
  apply (IH ([c] ++ rest) s1 p).
  - by rewrite Hne.
  - done.
  - rewrite Harrs, <- app_assoc in *; [done|].
    apply (Hapart c pc); [set_solver|done].
  - set_solver.
  - intros c' pc' Hc' Hpc'. apply (Hapart c' pc'); [set_solver|by apply Hsub].
Qed.

(** Slots that are ORPHAN or READY are left alone, and so are the objects
    that are gone and those whose slot is ORPHAN or READY. *)
Lemma reap_or_orphan_stable (child : addr) (s s1 : kstate) :
  reap_or_orphan child s = Ret tt s1 →
  (∀ j st, pid_status (ptable s) !! j = Some st → st = ORPHAN ∨ st = READY →
     pid_status (ptable s1) !! j = Some st ∧
     pid_procs (ptable s1) !! j = pid_procs (ptable s) !! j) ∧
  (∀ a, procs s !! a = None → procs s1 !! a = None) ∧
  (∀ a pa, procs s !! a = Some pa →
     pid_status (ptable s) !! pid pa = Some ORPHAN ∨
     pid_status (ptable s) !! pid pa = Some READY →
     procs s1 !! a = Some pa).
Proof.
  intros Hrun.
  destruct (reap_or_orphan_cases child s s1 Hrun)
    as (c & Hc & _ & [(Hst & Hpt & Hprocs & _) | (Hst & Hpt & Hprocs & _)]);
    rewrite Hpt, Hprocs; cbn.
  - split; [|split; [done|done]].
    intros j st Hj Hor. rewrite lookup_insert_ne; [done|].
    intros <-. rewrite Hst in Hj. injection Hj as <-. by destruct Hor.
  - split; [|split].
    + intros j st Hj Hor.
      assert (pid c ≠ j)
        by (intros <-; rewrite Hst in Hj; injection Hj as <-; by destruct Hor).
      by rewrite !lookup_insert_ne.
    + intros a Ha. apply lookup_delete_None. by right.
    + intros a pa Ha Hor. rewrite lookup_delete_ne; [done|].
      intros <-. rewrite Hc in Ha. injection Ha as <-.
      rewrite Hst in Hor. by destruct Hor.
Qed.

Lemma visit_all_stable (cs : list addr) : ∀ s s',
  visit_all cs s = Ret tt s' →
  (∀ j st, pid_status (ptable s) !! j = Some st → st = ORPHAN ∨ st = READY →
     pid_status (ptable s') !! j = Some st ∧
     pid_procs (ptable s') !! j = pid_procs (ptable s) !! j) ∧
  (∀ a, procs s !! a = None → procs s' !! a = None) ∧
  (∀ a pa, procs s !! a = Some pa →
     pid_status (ptable s) !! pid pa = Some ORPHAN ∨
     pid_status (ptable s) !! pid pa = Some READY →
     procs s' !! a = Some pa).
Proof.
  induction cs as [|c cs IH]; intros s s' Hrun; cbn in Hrun.
  - injection Hrun as <-. repeat split; done.
  - rewrite run_bind in Hrun.
    destruct (reap_or_orphan c s) as [[] s1| | | |] eqn:Hc; try done.
    destruct (reap_or_orphan_stable c s s1 Hc) as (Hst1 & Hgone1 & Hkeep1).
    destruct (IH s1 s' Hrun) as (Hst & Hgone & Hkeep).
    split; [|split].
    + intros j st Hj Hor. destruct (Hst1 j st Hj Hor) as [Hj1 Hp1].
      destruct (Hst j st Hj1 Hor) as [Hj' Hp']. by rewrite Hp', Hp1.
    + intros a Ha. by apply Hgone, Hgone1.
    + intros a pa Ha Hor. apply Hkeep; [by apply Hkeep1|].
      destruct Hor as [Hor | Hor];
        [left | right]; apply (Hst1 _ _ Hor); first [by left | by right].
Qed.

(** What has become of each child when the children have all been dealt
    with: a child that was RUNNING is an orphan and its object is as it
    was; a child that was a ZOMBIE is gone, and its slot is READY and
    points nowhere. *)
Lemma visit_all_settles (cs : list addr) : ∀ s s',
  visit_all cs s = Ret tt s' →
  ∀ c pc, c ∈ cs → procs s !! c = Some pc →
    (pid_status (ptable s) !! pid pc = Some RUNNING ∧
     pid_status (ptable s') !! pid pc = Some ORPHAN ∧
     procs s' !! c = Some pc) ∨
    (pid_status (ptable s) !! pid pc = Some ZOMBIE ∧
     pid_status (ptable s') !! pid pc = Some READY ∧
     pid_procs (ptable s') !! pid pc = Some None ∧
     procs s' !! c = None).
Proof.
  induction cs as [|c0 cs IH]; intros s s' Hrun c pc Hin Hpc.
  { by apply elem_of_nil in Hin. }
  cbn in Hrun. rewrite run_bind in Hrun.
  destruct (reap_or_orphan c0 s) as [[] s1| | | |] eqn:Hc0; try done.
  destruct (visit_all_stable cs s1 s' Hrun) as (Hst & Hgone & Hkeep).
  destruct (reap_or_orphan_cases c0 s s1 Hc0)
    as (pc0 & Hpc0 & _ & Hcases).
  destruct (decide (c = c0)) as [->|Hne].
  - rewrite Hpc0 in Hpc. injection Hpc as ->.
    destruct Hcases as [(Hs & Hpt & Hprocs & _) | (Hs & Hpt & Hprocs & _)].
    + left. split; [done|].
      assert (Ho : pid_status (ptable s1) !! pid pc = Some ORPHAN)
        by (rewrite Hpt; cbn; apply lookup_insert_eq).
      split; [apply (Hst _ _ Ho); by left|].
      apply Hkeep; [by rewrite Hprocs | by left].
    + right. split; [done|].
      assert (Hr : pid_status (ptable s1) !! pid pc = Some READY)
        by (rewrite Hpt; cbn; apply lookup_insert_eq).
      destruct (Hst _ _ Hr) as [Hr' Hp']; [by right|].
      split; [done|]. split.
      * rewrite Hp', Hpt. cbn. apply lookup_insert_eq.
      * apply Hgone. rewrite Hprocs. apply lookup_delete_eq.
  - apply elem_of_cons in Hin as [?|Hin]; [done|].
    assert (Hpc1 : procs s1 !! c = Some pc).
    { destruct Hcases as [(_ & _ & -> & _) | (_ & _ & -> & _)]; [done|].
      by rewrite lookup_delete_ne. }
    assert (Hsame : ∀ st, pid_status (ptable s1) !! pid pc = Some st →
              st = RUNNING ∨ st = ZOMBIE →
              pid_status (ptable s) !! pid pc = Some st).
    { intros st Hs1 Hor.
      destruct Hcases as [(_ & Hpt & _) | (_ & Hpt & _)];
        rewrite Hpt in Hs1; cbn in Hs1;
        (destruct (decide (pid pc0 = pid pc)) as [Heq|Hneq];
         [rewrite Heq, lookup_insert_eq in Hs1; injection Hs1 as <-;
          by destruct Hor
         |by rewrite lookup_insert_ne in Hs1]). }
    destruct (IH s1 s' Hrun c pc Hin Hpc1)
      as [(Hs1 & Hres) | (Hs1 & Hres)]; [left | right];
      (split; [apply Hsame; [done | first [by left | by right]] | done]).
Qed.

(** C3.  pidtable_update_children deals with the children of the process
    in reverse index order: its loop is the fold of [reap_or_orphan] over
    the children list read from the last entry to the first.  For one child
    [reap_or_orphan] does this: a RUNNING child becomes ORPHAN and nothing
    else changes; a ZOMBIE child has its slot freed (READY, no process,
    code 0, the counter of free slots one up) and its object destroyed, so
    that it is no longer allocated; a child whose status is READY or ORPHAN
    halts the system.  So, when the loop returns, every child that was
    RUNNING is an orphan with its object untouched, and every child that
    was a ZOMBIE is gone, with its slot READY and pointing nowhere.  The
    parent is not among its own children, and no child owns the parent's
    children list. *)
Theorem update_children_reverse_order (parent arr : addr) (l : list addr)
    (s : kstate) (p : proc) :
  procs s !! parent = Some p → children p = Some arr →
  arrays s !! arr = Some l →
  parent ∉ l →
  (∀ c pc, c ∈ l → procs s !! c = Some pc → children pc ≠ Some arr) →
  pidtable_update_children parent s = visit_all (rev l) s ∧
  (∀ child c s0, procs s0 !! child = Some c → in_table (pid c) = true →
     (pid_status (ptable s0) !! pid c = Some RUNNING →
      reap_or_orphan child s0
        = Ret tt (set_ptable (set_pid_status <[pid c := ORPHAN]>) s0)) ∧
     (pid_status (ptable s0) !! pid c = Some ZOMBIE →
      Some child ≠ kproc s0 → is_Some (destroyed child s0) →
      ∃ s1, reap_or_orphan child s0 = Ret tt s1 ∧
            pid_status (ptable s1) !! pid c = Some READY ∧
            pid_procs (ptable s1) !! pid c = Some None ∧
            pid_waitcode (ptable s1) !! pid c = Some 0 ∧
            pid_available (ptable s1) = pid_available (ptable s0) + 1 ∧
            procs s1 = delete child (procs s0)) ∧
     (pid_status (ptable s0) !! pid c = Some READY ∨
      pid_status (ptable s0) !! pid c = Some ORPHAN →
      reap_or_orphan child s0
        = Panic "Tried to modify a child that did not exist.")) ∧
  (∀ s', pidtable_update_children parent s = Ret tt s' →
     ∀ c pc, c ∈ l → procs s !! c = Some pc →
       (pid_status (ptable s) !! pid pc = Some RUNNING ∧
        pid_status (ptable s') !! pid pc = Some ORPHAN ∧
        procs s' !! c = Some pc) ∨
       (pid_status (ptable s) !! pid pc = Some ZOMBIE ∧
        pid_status (ptable s') !! pid pc = Some READY ∧
        pid_procs (ptable s') !! pid pc = Some None ∧
        procs s' !! c = None)).
Proof.
  intros Hp Harr Hl Hself Hapart.
  assert (Hloop : pidtable_update_children parent s = visit_all (rev l) s).
  { unfold pidtable_update_children. munfold.
    cbn -[update_children_from]. rewrite Hp.
    cbn -[update_children_from]. rewrite Harr.
    cbn -[update_children_from]. rewrite Hl.
    cbn -[update_children_from].
    apply (update_children_from_visit parent arr l [] s p); try done.
    by rewrite app_nil_r. }
  split; [exact Hloop|]. split.
  - intros child c s0 Hc Hin. unfold reap_or_orphan. rewrite Hc.
    split; [|split].
    + intros ->. by rewrite Hin.
    + intros -> Hk [sd Hd]. rewrite Hin, decide_False by done.
      rewrite destroyed_set_ptable, Hd. cbn.
      eexists. split; [reflexivity|].
      apply destroyed_Some in Hd as (p' & arr' & _ & _ & Hprocs & _ & Hpt & _).
      cbn. rewrite Hpt, Hprocs. cbn. rewrite !lookup_insert_eq. done.
    + intros [-> | ->]; done.
  - intros s' Hrun c pc Hc Hpc. rewrite Hloop in Hrun.
    apply (visit_all_settles (rev l) s s' Hrun c pc); [|done].
    rewrite list_elem_of_In, <- in_rev, <- list_elem_of_In. done.
Qed.
End children.

(** In the first scenario the parent (object 2) has two children: object 3
    (pid 3), a zombie, and object 4 (pid 4), which runs.  The loop deals
    with object 4, then with object 3: the former is an orphan, the latter
    is gone, and slot 3 is READY.  In the second scenario the object of the
    first of four children is no longer allocated and the last two children
    share pid 5: the loop, which starts from the last entry, orphans the
    last child and halts the system at the one before it; it never reads
    the first entry. *)
Lemma update_children_reverse_order_witness :
  let s' := final (@pidtable_update_children small_config 2%positive
                     s_two_children) in
  (@pidtable_update_children small_config 2%positive s_two_children =
     @visit_all small_config [4; 3]%positive s_two_children ∧
   is_Some (procs s_two_children !! 3%positive) ∧ procs s' !! 3%positive = None ∧
   pid_status (ptable s') !! 3 = Some READY ∧
   pid_procs (ptable s') !! 3 = Some None ∧
   is_Some (procs s' !! 4%positive) ∧
   pid_status (ptable s') !! 4 = Some ORPHAN) ∧
  @pidtable_update_children small_config 2%positive s_first_freed =
    Panic "Tried to modify a child that did not exist.".
Proof.
  cbv zeta.
  assert (Hp : procs s_two_children !! 2%positive =
               Some {| p_name := Some 2%positive; p_threads := [];
                       p_addrspace := Some 1%positive; p_cwd := None;
                       proc_ft := Some 2%positive; children := Some 2%positive;
                       pid := 2 |}) by (vm_compute; reflexivity).
  assert (Hl : arrays s_two_children !! 2%positive = Some [3; 4]%positive)
    by (vm_compute; reflexivity).
  destruct (@update_children_reverse_order small_config 2%positive 2%positive
              [3; 4]%positive s_two_children _ Hp eq_refl Hl)
    as (Hloop & _ & Hend).
  { intros Hin. apply elem_of_cons in Hin as [Hin | Hin]; [discriminate|].
    apply list_elem_of_singleton in Hin. discriminate. }
  { intros c pc Hc Hpc. apply elem_of_cons in Hc as [-> | Hc];
      [|apply list_elem_of_singleton in Hc; subst c];
      vm_compute in Hpc; injection Hpc as <-; discriminate. }
  assert (Hp' : procs s_first_freed !! 2%positive =
               Some {| p_name := Some 2%positive; p_threads := [];
                       p_addrspace := Some 1%positive; p_cwd := None;
                       proc_ft := Some 2%positive; children := Some 2%positive;
                       pid := 2 |}) by (vm_compute; reflexivity).
  assert (Hl' : arrays s_first_freed !! 2%positive = Some [3; 4; 5; 6]%positive)
    by (vm_compute; reflexivity).
  destruct (@update_children_reverse_order small_config 2%positive 2%positive
              [3; 4; 5; 6]%positive s_first_freed _ Hp' eq_refl Hl')
    as (Hloop' & _ & _).
  { intros Hin. repeat (apply elem_of_cons in Hin as [Hin | Hin];
                        [discriminate|]).
    by apply elem_of_nil in Hin. }
  { intros c pc Hc Hpc.
    repeat (apply elem_of_cons in Hc as [-> | Hc];
            [vm_compute in Hpc; first [discriminate
                                      | injection Hpc as <-; discriminate]|]).
    by apply elem_of_nil in Hc. }
  split.
  - assert (Hrun : @pidtable_update_children small_config 2%positive
                     s_two_children
                   = Ret tt (final (@pidtable_update_children small_config
                                      2%positive s_two_children)))
      by (vm_compute; reflexivity).
    split; [exact Hloop|].
    split; [vm_compute; eauto|].
    destruct (Hend _ Hrun 3%positive
                {| p_name := Some 3%positive; p_threads := [];
                   p_addrspace := Some 2%positive; p_cwd := None;
                   proc_ft := Some 3%positive; children := Some 3%positive;
                   pid := 3 |})
      as [(Hst & _) | (_ & Hready & Hnull & Hgone)];
      [by left | vm_compute; reflexivity | vm_compute in Hst; discriminate |].
    destruct (Hend _ Hrun 4%positive
                {| p_name := Some 4%positive; p_threads := [];
                   p_addrspace := Some 3%positive; p_cwd := None;
                   proc_ft := Some 4%positive; children := Some 4%positive;
                   pid := 4 |})
      as [(_ & Horphan & Hlive) | (Hst & _)];
      [right; by left | vm_compute; reflexivity | | vm_compute in Hst; discriminate].
    split; [exact Hgone|]. split; [exact Hready|]. split; [exact Hnull|].
    split; [rewrite Hlive; eauto | exact Horphan].
  - rewrite Hloop'. vm_compute. reflexivity.
Defined.

(** ** sys_fork *)

Section fork.
Context `{kconfig}.

(** C6.  When the allocation of the trap frame fails (the fifth result
    drawn, after the four of proc_create), sys_fork returns ENOMEM having
    freed the child's process object only: the name, the file table and
    the children list that proc_create allocated for the child are still
    allocated, and nothing refers to them any more. *)
Theorem sys_fork_trapframe_failure_leaks (tf : addr) (retval0 : option addr)
    (s : kstate) (r : Z) (o : list Z) :
  oracle s = 0 :: 0 :: 0 :: 0 :: r :: o → r ≠ 0 →
  ∃ s', sys_fork tf retval0 s = Ret ENOMEM s' ∧
    procs s' = procs s ∧ trapframes s' = trapframes s ∧
    names s' = <[fresh (dom (names s)) := "new_proc"%string]> (names s) ∧
    filetables s' = <[fresh (dom (filetables s)) := []]> (filetables s) ∧
    arrays s' = <[fresh (dom (arrays s)) := []]> (arrays s) ∧
    names s' ≠ names s ∧ filetables s' ≠ filetables s ∧ arrays s' ≠ arrays s.
Proof.
  destruct s as [pr nm ft ar tfs ass vn wd kp cp pt o' lg].
  cbn. intros -> Hr.
  unfold sys_fork, proc_create. munfold. msimpl.
  rewrite decide_False by done. msimpl.
  eexists. split; [reflexivity|]. cbn.
  rewrite ?insert_insert_eq, ?fresh_delete_insert.
  repeat split; try done; apply insert_fresh_ne.
Qed.

(** The run of sys_fork is computed forward with what is known of the
    parent. *)
Ltac fstep Hpp Has Hasc Harr Hl Hft Hftc Htf :=
  repeat (cbn -[pidtable_add];
    first [ rewrite lookup_insert_eq
          | rewrite lookup_insert_ne by done
          | rewrite Hpp | rewrite Has | rewrite Hasc | rewrite Harr
          | rewrite Hl | rewrite Hft | rewrite Hftc | rewrite Htf
          | rewrite (decide_True (P := 0 = 0)) by done
          | rewrite (decide_False (P := 0 ≠ 0)) by (intros Hz; apply Hz; done) ]);
  cbn -[pidtable_add].

(** C9.  A process that is fit to fork calls sys_fork, and everything
    succeeds until thread_fork fails with [e] (the eighth result drawn).
    sys_fork returns [e].  The child is still registered: its slot is
    RUNNING and points to it; it is still in the children list of its
    parent; the child object with its name, file table and children
    list, its copy of the address space and the duplicated trap frame are
    all still allocated; the child pid has been stored through retval0. *)
Theorem sys_fork_thread_fork_failure (tf rv parent asp arr ftp : addr)
    (pp : proc) (l : list addr) (e : Z) (o : list Z) (s : kstate) :
  oracle s = 0 :: 0 :: 0 :: 0 :: 0 :: 0 :: 0 :: e :: o → e ≠ 0 →
  curproc s = Some parent → procs s !! parent = Some pp →
  p_addrspace pp = Some asp → is_Some (addrspaces s !! asp) →
  children pp = Some arr → arrays s !! arr = Some l →
  proc_ft pp = Some ftp → is_Some (filetables s !! ftp) →
  (∀ vn, p_cwd pp = Some vn → is_Some (vnodes s !! vn)) →
  is_Some (trapframes s !! tf) →
  pid_available (ptable s) > 0 → in_table (pid_next (ptable s)) = true →
  (∀ j, pid_next (ptable s) ≤ j < PID_MAX → is_Some (pid_status (ptable s) !! j)) →
  let child := fresh (dom (procs s)) in
  let new_tf := fresh (dom (trapframes s)) in
  let pid_c := pid_next (ptable s) in
  ∃ s' pc, sys_fork tf (Some rv) s = Ret e s' ∧
    pid_status (ptable s') !! pid_c = Some RUNNING ∧
    pid_procs (ptable s') !! pid_c = Some (Some child) ∧
    arrays s' !! arr = Some (l ++ [child]) ∧
    procs s' !! child = Some pc ∧ pid pc = pid_c ∧
    p_name pc = Some (fresh (dom (names s))) ∧
    is_Some (names s' !! fresh (dom (names s))) ∧
    proc_ft pc = Some (fresh (dom (filetables s))) ∧
    is_Some (filetables s' !! fresh (dom (filetables s))) ∧
    children pc = Some (fresh (dom (arrays s))) ∧
    is_Some (arrays s' !! fresh (dom (arrays s))) ∧
    p_addrspace pc = Some (fresh (dom (addrspaces s))) ∧
    is_Some (addrspaces s' !! fresh (dom (addrspaces s))) ∧
    is_Some (trapframes s' !! new_tf) ∧
    words s' !! rv = Some pid_c ∧
    ∃ pre, log s' = pre ++ [ThreadFork child new_tf e].
Proof.
  destruct s as [pr nm ft ar tfs ass vn wd kp cp pt o' lg]. cbn.
  intros -> He -> Hpp Has [asc Hasc] Harr Hl Hft [ftc Hftc] Hcwd [tfc Htf]
    Hav Hin Hcells.
  assert (Hnp : fresh (dom pr) ≠ parent)
    by (intros <-; rewrite fresh_lookup in Hpp; done).
  assert (Hna : fresh (dom ar) ≠ arr)
    by (intros <-; rewrite fresh_lookup in Hl; done).
  assert (Hnf : fresh (dom ft) ≠ ftp)
    by (intros <-; rewrite fresh_lookup in Hftc; done).
  assert (Hnt : fresh (dom tfs) ≠ tf)
    by (intros <-; rewrite fresh_lookup in Htf; done).
  unfold sys_fork. rewrite run_bind, proc_create_ok by (cbn; repeat constructor).
  unfold created, new_proc_at. munfold.
  assert (Hcw : ∃ vs, match p_cwd pp with
                      | Some v => vn !! v = Some vs
                      | None => True
                      end).
  { destruct (p_cwd pp) as [v|]; [|by exists 0].
    destruct (Hcwd v eq_refl) as [vs Hvs]. eauto. }
  destruct Hcw as [vs Hvs].
  fstep Hpp Has Hasc Harr Hl Hft Hftc Htf.
  destruct (p_cwd pp) as [v|];
    repeat (cbn -[pidtable_add];
            first [rewrite Hvs | rewrite lookup_insert_eq]).
  all: match goal with
       | |- context [pidtable_add ?c ?S] =>
         destruct (pidtable_add_ok c parent arr pp l (e :: o) S) as [hint Hadd];
           [ reflexivity
           | cbn; rewrite ?lookup_insert_ne by done; exact Hpp
           | exact Harr
           | cbn; rewrite lookup_insert_ne by done; exact Hl
           | reflexivity | exact Hav | exact Hin | exact Hcells
           | rewrite Hadd; clear Hadd ]
       end.
  all: assert (Hn1 : pid_next pt ≠ -1) by (apply in_table_spec in Hin; lia).
  all: fstep Hpp Has Hasc Harr Hl Hft Hftc Htf.
  all: rewrite (decide_False (P := pid_next pt = -1)) by done.
  all: fstep Hpp Has Hasc Harr Hl Hft Hftc Htf.
  all: rewrite (decide_True (P := e ≠ 0)) by done.
  all: eexists _, _; (split; [reflexivity|]); cbn.
  all: rewrite ?lookup_insert_eq.
  all: rewrite ?(lookup_insert_ne _ arr (fresh (dom ar))) by done.
  all: rewrite ?lookup_insert_eq.
  all: rewrite ?(lookup_insert_ne _ tf (fresh (dom tfs))) by done.
  all: rewrite ?lookup_insert_eq.
  all: repeat split; eauto.
Qed.
End fork.

(** The user process of the scenario (pid 2) forks and thread_fork fails
    with 7: pid 3 stays RUNNING and object 3 stays a child of object 2. *)
Lemma sys_fork_thread_fork_failure_witness :
  ∃ s', @sys_fork small_config 1%positive (Some 1%positive) s_user_nothread
          = Ret 7 s' ∧
        pid_status (ptable s') !! 3 = Some RUNNING ∧
        pid_procs (ptable s') !! 3 = Some (Some 3%positive) ∧
        arrays s' !! 2%positive = Some [3%positive].
Proof.
  destruct (@sys_fork_thread_fork_failure small_config 1%positive 1%positive
              2%positive 1%positive 2%positive 2%positive
              {| p_name := Some 2%positive; p_threads := [];
                 p_addrspace := Some 1%positive; p_cwd := None;
                 proc_ft := Some 2%positive; children := Some 2%positive;
                 pid := 2 |} [] 7 [] s_user_nothread)
    as (s' & pc & Hrun & Hst & Hpr & Harr & _);
    [ vm_compute; reflexivity | vm_compute; congruence
    | vm_compute; reflexivity | vm_compute; reflexivity
    | vm_compute; reflexivity | vm_compute; eauto
    | vm_compute; reflexivity | vm_compute; reflexivity
    | vm_compute; reflexivity | vm_compute; eauto
    | intros vn Hvn; vm_compute in Hvn; discriminate
    | vm_compute; eauto
    | vm_compute; reflexivity | vm_compute; reflexivity
    | intros j Hj; change (3 ≤ j < 6) in Hj |].
  { assert (j = 3 ∨ j = 4 ∨ j = 5) as [-> | [-> | ->]];
      [lia | vm_compute; eauto..]. }
  exists s'. split; [exact Hrun|]. split; [exact Hst|].
  split; [exact Hpr | exact Harr].
Defined.

(** The user process of the scenario forks when no trap frame can be had. *)
Lemma sys_fork_trapframe_failure_leaks_witness :
  ∃ s', @sys_fork small_config 1%positive (Some 1%positive) s_user_oom
          = Ret 3 s' ∧
    names s' ≠ names s_user_oom ∧ filetables s' ≠ filetables s_user_oom ∧
    arrays s' ≠ arrays s_user_oom.
Proof.
  destruct (@sys_fork_trapframe_failure_leaks small_config 1%positive
              (Some 1%positive) s_user_oom 1 [])
    as (s' & Hrun & _ & _ & _ & _ & _ & Hn & Hf & Ha);
    [reflexivity | lia |].
  exists s'. split; [exact Hrun|]. split; [exact Hn|]. split; [exact Hf|exact Ha].
Defined.

(** When as_copy fails (the sixth result drawn), sys_fork returns its error
    and frees nothing: the child object, its name, file table and children
    list and the new trap frame all stay allocated. *)
Example sys_fork_as_copy_failure_leaks :
  let s := set_oracle [0; 0; 0; 0; 0; 5] s_user in
  ∃ s', @sys_fork small_config 1%positive (Some 1%positive) s = Ret 5 s' ∧
        size (procs s') = S (size (procs s)) ∧
        size (names s') = S (size (names s)) ∧
        size (filetables s') = S (size (filetables s)) ∧
        size (arrays s') = S (size (arrays s)) ∧
        size (trapframes s') = S (size (trapframes s)) ∧
        pid_status (ptable s') = pid_status (ptable s).
Proof. eexists. vm_compute. done. Qed.

(** ** pidtable_exit *)

Section exit.
Context `{kconfig}.

(** pidtable_exit, computed around the handling of the children. *)
Lemma pidtable_exit_run (proc : addr) (waitcode : Z) (s : kstate) :
  pidtable_exit proc waitcode s =
  match pidtable_update_children proc (set_log (λ l, l ++ [LockAcquire]) s) with
  | Ret _ s1 =>
    match procs s1 !! proc with
    | None => Undefined
    | Some p =>
      match pid_status (ptable s1) !! pid p with
      | None => Undefined
      | Some RUNNING =>
        if in_table (pid p)
        then Exited (leave (set_ptable
               (λ t, set_pid_waitcode <[pid p := waitcode]>
                       (set_pid_status <[pid p := ZOMBIE]> t)) s1))
        else Undefined
      | Some ORPHAN =>
        if in_table (pid p)
        then match curproc s1 with
             | None => Undefined
             | Some cur =>
               match proc_destroy cur (set_ptable (free_slot (pid p)) s1) with
               | Ret _ s2 => Exited (leave s2)
               | Exited s2 => Exited s2
               | Blocked s2 => Blocked s2
               | Panic msg => Panic msg
               | Undefined => Undefined
               end
             end
        else Undefined
      | Some _ => Panic "Tried to remove a bad process."
      end
    end
  | Exited s1 => Exited s1
  | Blocked s1 => Blocked s1
  | Panic msg => Panic msg
  | Undefined => Undefined
  end.
Proof.
  unfold pidtable_exit. rewrite run_bind.
  unfold lock_acquire at 1, emit at 1, modify at 1. cbn beta iota.
  rewrite run_bind.
  destruct (pidtable_update_children _ _) as [[] s1| | | |]; try done.
  destruct s1 as [pr nm ft ar tfs ass vn wd kp cp pt o lg].
  unfold leave. munfold.
  repeat (cbn -[proc_destroy]; try done; mcase).
  all: cbn -[proc_destroy].
  all: try match goal with
    | |- match proc_destroy ?c ?s1 with _ => _ end =
         match proc_destroy ?c ?s2 with _ => _ end =>
      replace s1 with s2 by (apply kstate_eq; cbn; done);
      destruct (proc_destroy c s2); cbn; try done
    end.
  all: f_equal; apply kstate_eq; cbn; rewrite <- ?app_assoc; done.
Qed.

End exit.


(** ** What every step keeps of the pid table *)

Section keeps.
Context {P E : pidtable → Prop}.

Lemma triple_bind {A B} (Q R : pidtable → Prop) (m : M A) (k : A → M B) :
  table_triple P Q E m → (∀ a, table_triple Q R E (k a)) →
  table_triple P R E (m ≫= k).
Proof.
  intros Hm Hk s Hs. rewrite run_bind. specialize (Hm s Hs).
  destruct (m s); cbn in *; try done. by apply Hk.
Qed.

Lemma keeps_bind {A B} (m : M A) (k : A → M B) :
  table_triple P P E m → (∀ a, table_triple P P E (k a)) →
  table_triple P P E (m ≫= k).
Proof. apply triple_bind. Qed.

Lemma triple_ret {A} (a : A) : table_triple P P E (mret a).
Proof. intros s Hs. exact Hs. Qed.

Lemma triple_get : table_triple P P E get.
Proof. intros s Hs. exact Hs. Qed.

Lemma triple_modify (Q : pidtable → Prop) (f : kstate → kstate) :
  (∀ s, P (ptable s) → Q (ptable (f s))) → table_triple P Q E (modify f).
Proof. intros Hf s Hs. by apply Hf. Qed.

Lemma triple_panic {A} (Q : pidtable → Prop) msg :
  table_triple P Q E (@panic A msg).
Proof. intros s Hs. exact I. Qed.

Lemma triple_undefined {A} (Q : pidtable → Prop) :
  table_triple P Q E (@undefined A).
Proof. intros s Hs. exact I. Qed.

Lemma triple_deref {A} (o : option A) : table_triple P P E (deref o).
Proof. intros s Hs. by destruct o. Qed.

Lemma triple_draw : table_triple P P E draw.
Proof. intros s Hs. unfold draw. by destruct (oracle s). Qed.

Lemma triple_cv_sleep {A} (Q : pidtable → Prop) :
  table_triple E Q E (@cv_sleep A).
Proof. intros s Hs. exact Hs. Qed.

Lemma triple_thread_exit {A} (Q : pidtable → Prop) :
  table_triple E Q E (@thread_exit A).
Proof. intros s Hs. exact Hs. Qed.
End keeps.

(** A computation built from the services keeps a property of the table
    that its stores into the table keep: the goal is taken apart along the
    binds and the case distinctions of the code. *)
Ltac punfold :=
  unfold kstrdup, ft_create, ft_init_std, ft_copy, ft_destroy, array_create,
    array_num, array_get, array_add, array_remove, array_destroy, as_copy,
    as_destroy, as_deactivate, VOP_INCREF, VOP_DECREF, lock_acquire,
    lock_release, cv_broadcast, cv_wait, thread_fork,
    store_word, get_curproc, store_proc, load_proc, kmalloc, alloc, kfree,
    store, load, emit, KASSERT,
    tbl_status, tbl_set_status, tbl_set_proc, tbl_set_waitcode.

Ltac pres :=
  repeat (cbv zeta;
    first
    [ eassumption
    | match goal with
      | Hk : ∀ _, table_triple _ _ _ _ |- _ => apply Hk
      | Hk : ∀ _ _, table_triple _ _ _ _ |- _ => apply Hk
      end
    | apply triple_ret | apply triple_get | apply triple_draw
    | apply triple_deref
    | apply triple_panic | apply triple_undefined
    | apply triple_cv_sleep | apply triple_thread_exit
    | apply triple_modify; intros ? Hkeep; exact Hkeep
    | apply keeps_bind; [|intros]
    | match goal with
      | |- table_triple _ _ _ (match ?x with _ => _ end) => destruct x
      | |- table_triple _ _ _ (if ?b then _ else _) => destruct b
      | |- table_triple _ _ _ (let (_, _) := ?x in _) => destruct x
      end ]).

Section reserved.
Context `{kconfig}.

Lemma keeps_proc_create (P : pidtable → Prop) (name : string) :
  table_triple P P P (proc_create name).
Proof. unfold proc_create. punfold. pres. Qed.

Lemma keeps_array_clear (P : pidtable → Prop) (a : option addr) (n : nat) :
  table_triple P P P (array_clear a n).
Proof.
  induction n as [|n IH]; cbn [array_clear]; [apply triple_ret|].
  punfold. pres.
Qed.

Lemma keeps_proc_destroy (P : pidtable → Prop) (p : addr) :
  table_triple P P P (proc_destroy p).
Proof.
  pose proof (keeps_array_clear P) as Hclear.
  unfold proc_destroy, proc_setas. punfold. pres.
Qed.

(** The exit path never writes the hint. *)
Lemma keeps_update_children (R : Z → Prop) (p : addr) :
  table_triple (λ t, R (pid_next t)) (λ t, R (pid_next t))
    (λ t, R (pid_next t)) (pidtable_update_children p).
Proof.
  pose proof (keeps_proc_destroy (λ t, R (pid_next t))) as Hdestroy.
  assert (Hloop : ∀ n, table_triple (λ t, R (pid_next t))
            (λ t, R (pid_next t)) (λ t, R (pid_next t))
            (update_children_from p n)).
  { induction n as [|n IH]; cbn [update_children_from]; [apply triple_ret|].
    unfold update_child. punfold. pres. }
  unfold pidtable_update_children. punfold. pres.
Qed.

Lemma keeps_pidtable_exit (R : Z → Prop) (p : addr) (waitcode : Z) :
  table_triple (λ t, R (pid_next t)) (λ t, R (pid_next t))
    (λ t, R (pid_next t)) (pidtable_exit p waitcode).
Proof.
  pose proof (keeps_proc_destroy (λ t, R (pid_next t))) as Hdestroy.
  pose proof (keeps_update_children R) as Hchildren.
  unfold pidtable_exit. punfold. pres.
Qed.

Lemma keeps_sys__exit (R : Z → Prop) (waitcode : Z) :
  table_triple (λ t, R (pid_next t)) (λ t, R (pid_next t))
    (λ t, R (pid_next t)) (sys__exit waitcode).
Proof.
  pose proof (keeps_pidtable_exit R) as Hexit.
  unfold sys__exit. punfold. pres.
Qed.

(** pidtable_add moves the hint forward only, or sets it to -1. *)
Lemma scan_find_ge (n : nat) : ∀ (i j : Z) (m : gmap Z pstatus),
  scan_find n i m = Some (Some j) → i ≤ j.
Proof.
  induction n as [|n IH]; intros i j m; cbn; [done|].
  destruct (m !! i) as [st|]; [|done].
  destruct (decide (st = READY)).
  - intros [= ->]. lia.
  - intros Hj. apply IH in Hj. lia.
Qed.

Lemma pidtable_add_returns (p : addr) (s : kstate) (v : Z) (s' : kstate) :
  pidtable_add p s = Ret v s' →
  v = pid_next (ptable s) ∧ 0 ≤ v < PID_MAX ∧
  (pid_next (ptable s') = -1 ∨ v ≤ pid_next (ptable s')).
Proof.
  rewrite pidtable_add_run.
  repeat match goal with
  | |- context [match ?x with _ => _ end] =>
      first [is_var x | lazymatch x with _ !! _ => idtac | curproc _ => idtac
                        | children _ => idtac | oracle _ => idtac end];
      destruct x eqn:?; try done
  end;
  cbn zeta;
  repeat match goal with
  | |- context [decide ?Q] => destruct (decide Q); try done
  | |- context [in_table ?x] => destruct (in_table x) eqn:Hin; try done
  end;
  try (destruct (scan_find _ _ _) as [[j|]|] eqn:Hscan; try done);
  intros [= <- <-]; apply in_table_spec in Hin; cbn;
  (split; [done|]); (split; [done|]);
  first [ by left | right; lia | right; by apply scan_find_ge in Hscan ].
Qed.

Lemma keeps_pidtable_add (p : addr) :
  table_triple hint_ok hint_ok hint_ok (pidtable_add p).
Proof.
  intros s Hs.
  destruct (pidtable_add p s) as [v s'| | | |] eqn:Hrun; cbn; try done.
  - destruct (pidtable_add_returns p s v s' Hrun) as (-> & Hv & Hnext).
    unfold hint_ok in *. destruct Hs as [Hs | Hs]; [lia|].
    destruct Hnext; [by left | right; lia].
  - exfalso. revert Hrun. rewrite pidtable_add_run. cbn zeta.
    repeat case_match; done.
  - exfalso. revert Hrun. rewrite pidtable_add_run. cbn zeta.
    repeat case_match; done.
Qed.

Lemma keeps_sys_fork (tf : addr) (retval0 : option addr) :
  table_triple hint_ok hint_ok hint_ok (sys_fork tf retval0).
Proof.
  pose proof (keeps_proc_create hint_ok) as Hcreate.
  pose proof keeps_pidtable_add as Hadd.
  unfold sys_fork. punfold. pres.
Qed.

Lemma keeps_proc_create_runprogram (name : string) :
  table_triple hint_ok hint_ok hint_ok (proc_create_runprogram name).
Proof.
  pose proof (keeps_proc_create hint_ok) as Hcreate.
  pose proof keeps_pidtable_add as Hadd.
  unfold proc_create_runprogram. punfold. pres.
Qed.

(** The bootstrap leaves the hint on the first slot. *)
Lemma keeps_bootstrap_slots (R : Z → Prop) (n : nat) : ∀ i,
  table_triple (λ t, R (pid_next t)) (λ t, R (pid_next t))
    (λ _, True) (bootstrap_slots n i).
Proof.
  induction n as [|n IH]; intros i; cbn [bootstrap_slots]; [apply triple_ret|].
  punfold. pres.
Qed.

Lemma triple_pidtable_bootstrap :
  table_triple (λ _, True) hint_ok (λ _, True) pidtable_bootstrap.
Proof.
  unfold pidtable_bootstrap.
  do 13 (apply (triple_bind (λ _, True)); [punfold; pres | intros]).
  apply (triple_bind hint_ok).
  - apply triple_modify. intros s _. right. cbn. lia.
  - intros ?. apply (keeps_bootstrap_slots (λ n, n = -1 ∨ PID_MIN ≤ n)).
Qed.

Lemma triple_boot : table_triple (λ _, True) hint_ok (λ _, True) boot.
Proof.
  unfold boot.
  apply (triple_bind (λ _, True)).
  { pose proof (keeps_proc_create (λ _, True)) as Hcreate.
    unfold proc_bootstrap. punfold. pres. }
  intros ?. apply (triple_bind (λ _, True)); [punfold; pres|].
  intros ?. apply (triple_bind (λ _, True)); [punfold; pres|].
  intros ?. apply triple_pidtable_bootstrap.
Qed.

Lemma reachable_hint_ok (s : kstate) : reachable s → hint_ok (ptable s).
Proof.
  induction 1 as [o s Hboot | s s' _ IH Hstep].
  - pose proof (triple_boot (kstate_init o) I) as Hpost.
    rewrite Hboot in Hpost. exact Hpost.
  - destruct Hstep as [tf rv s r s' Hrun | code s s' Hrun
                      | name s r s' Hrun | s s' Hpt _].
    + pose proof (keeps_sys_fork tf rv s IH) as Hpost.
      rewrite Hrun in Hpost. exact Hpost.
    + pose proof (keeps_sys__exit (λ n, n = -1 ∨ PID_MIN ≤ n) code s IH) as Hpost.
      rewrite Hrun in Hpost. exact Hpost.
    + pose proof (keeps_proc_create_runprogram name s IH) as Hpost.
      rewrite Hrun in Hpost. exact Hpost.
    + rewrite Hpt. exact IH.
Qed.

(** C8.  With pid 1 kept for the kernel (1 < PID_MIN): in every state
    that the kernel reaches, a pid that pidtable_add returns lies in
    [PID_MIN, PID_MAX) and so is not 1; and proc_destroy on the kernel
    process fails its assertion KASSERT(proc != kproc) and halts the system
    before anything is freed. *)
Theorem pid_one_reserved (s : kstate) :
  1 < PID_MIN → reachable s →
  (∀ p v s', pidtable_add p s = Ret v s' → PID_MIN ≤ v < PID_MAX ∧ v ≠ 1) ∧
  (∀ kp, kproc s = Some kp → proc_destroy kp s = Panic "assertion failed").
Proof.
  intros Hmin Hreach. split.
  - intros p v s' Hrun.
    destruct (pidtable_add_returns p s v s' Hrun) as (-> & Hv & _).
    destruct (reachable_hint_ok s Hreach) as [Hn | Hn]; lia.
  - intros kp Hkp. rewrite proc_destroy_run, Hkp.
    by rewrite decide_True.
Qed.
End reserved.

Lemma pid_one_reserved_witness :
  (∀ p v s', @pidtable_add small_config p s_boot = Ret v s' →
     2 ≤ v < 6 ∧ v ≠ 1) ∧
  (∀ kp, kproc s_boot = Some kp →
     proc_destroy kp s_boot = Panic "assertion failed").
Proof.
  apply (@pid_one_reserved small_config s_boot).
  - vm_compute. reflexivity.
  - apply (@reach_boot small_config []). vm_compute. reflexivity.
Defined.

(** ** proc_addthread and proc_remthread *)

Ltac tunfold :=
  unfold threadarray_num, threadarray_get, threadarray_add, threadarray_remove
    in *;
  munfold.

(** The search of proc_remthread from index [i] on: the first entry equal
    to [t] is removed, and the entries before and after it stay in order. *)
Lemma find_thread_found (owner t : addr) (p : proc) (l1 l2 : list addr) :
  ∀ (pre : list addr) (s : kstate),
  procs s !! owner = Some p → p_threads p = pre ++ l1 ++ t :: l2 → t ∉ l1 →
  find_thread owner t (length (l1 ++ t :: l2)) (length pre) s =
  Ret true (set_procs <[owner := set_p_threads (pre ++ l1 ++ l2) p]> s).
Proof.
  induction l1 as [|x l1 IH]; intros pre s Hp Hl Hnot.
  - cbn [app length find_thread]. tunfold. cbn. rewrite Hp. cbn.
    rewrite Hl, lookup_app_r, Nat.sub_diag by done. cbn.
    rewrite decide_True by done. cbn. rewrite Hp. cbn.
    rewrite Hl, decide_True by (rewrite length_app; cbn; lia).
    cbn. rewrite Hp. cbn. rewrite Hp. cbn.
    by rewrite delete_middle.
  - cbn [app length find_thread]. rewrite run_bind.
    unfold threadarray_get at 1. munfold. cbn. rewrite Hp. cbn.
    rewrite Hl, lookup_app_r, Nat.sub_diag by done. cbn.
    rewrite decide_False by (intros ->; apply Hnot; set_solver).
    replace (S (length pre)) with (length (pre ++ [x]))
      by (rewrite length_app; cbn; lia).
    replace (pre ++ x :: l1 ++ l2) with ((pre ++ [x]) ++ l1 ++ l2)
      by (by rewrite <- app_assoc).
    apply IH; [done | by rewrite <- app_assoc | set_solver].
Qed.

Lemma find_thread_missing (owner t : addr) (p : proc) (l : list addr) :
  ∀ (pre : list addr) (s : kstate),
  procs s !! owner = Some p → p_threads p = pre ++ l → t ∉ l →
  find_thread owner t (length l) (length pre) s = Ret false s.
Proof.
  induction l as [|x l IH]; intros pre s Hp Hl Hnot; [done|].
  cbn [length find_thread]. rewrite run_bind.
  unfold threadarray_get at 1. munfold. cbn. rewrite Hp. cbn.
  rewrite Hl, lookup_app_r, Nat.sub_diag by done. cbn.
  rewrite decide_False by (intros ->; apply Hnot; set_solver).
  replace (S (length pre)) with (length (pre ++ [x]))
    by (rewrite length_app; cbn; lia).
  apply IH; [done | by rewrite <- app_assoc | set_solver].
Qed.

(** proc_remthread when the thread array lists the thread. *)
Lemma proc_remthread_first_run (t owner : addr) (ts : gmap addr (option addr))
    (p : proc) (l1 l2 : list addr) (s : kstate) :
  ts !! t = Some (Some owner) → procs s !! owner = Some p →
  p_threads p = l1 ++ t :: l2 → t ∉ l1 →
  proc_remthread t ts s =
  Ret (<[t := None]> ts) (set_procs <[owner := set_p_threads (l1 ++ l2) p]> s).
Proof.
  intros Ht Hp Hl Hnot. unfold proc_remthread.
  rewrite run_bind. unfold deref at 1. rewrite Ht. cbn [mret M_ret].
  rewrite run_bind. unfold threadarray_num at 1. munfold. cbn.
  rewrite Hp. cbn. rewrite Hl.
  pose proof (find_thread_found owner t p l1 l2 [] s Hp Hl Hnot) as Hf.
  cbn [length app] in Hf. rewrite Hf. done.
Qed.

(** X1.  proc_remthread takes the first entry for the thread out of the
    thread array of its process, keeps the other entries in their order
    (a second entry for the same thread stays), and clears t_proc. *)
Theorem proc_remthread_first_entry (t owner : addr) (ts : gmap addr (option addr))
    (p : proc) (l1 l2 : list addr) (s : kstate) :
  ts !! t = Some (Some owner) → procs s !! owner = Some p →
  p_threads p = l1 ++ t :: l2 → t ∉ l1 →
  ∃ s', proc_remthread t ts s = Ret (<[t := None]> ts) s' ∧
        (∃ p', procs s' !! owner = Some p' ∧ p_threads p' = l1 ++ l2) ∧
        (∀ a, a ≠ owner → procs s' !! a = procs s !! a).
Proof.
  intros Ht Hp Hl Hnot.
  rewrite (proc_remthread_first_run t owner ts p l1 l2) by done.
  eexists. split; [reflexivity|]. cbn. split.
  - eexists. rewrite lookup_insert_eq. done.
  - intros a Ha. by rewrite lookup_insert_ne.
Qed.

(** X2.  A thread whose process does not list it has escaped: proc_remthread
    halts the system, having changed nothing. *)
Theorem proc_remthread_escaped (t owner : addr) (ts : gmap addr (option addr))
    (p : proc) (s : kstate) :
  ts !! t = Some (Some owner) → procs s !! owner = Some p → t ∉ p_threads p →
  proc_remthread t ts s = Panic "Thread has escaped from its process".
Proof.
  intros Ht Hp Hnot. unfold proc_remthread.
  rewrite run_bind. unfold deref at 1. rewrite Ht. cbn [mret M_ret].
  rewrite run_bind. unfold threadarray_num at 1. munfold. cbn.
  rewrite Hp. cbn.
  pose proof (find_thread_missing owner t p (p_threads p) [] s Hp eq_refl Hnot) as Hf.
  cbn [length] in Hf. rewrite Hf. done.
Qed.

(** X3.  proc_addthread appends the thread to the thread array of the
    process and makes the process its owner; proc_remthread on that thread
    then undoes both.  The thread belongs to no process before, the array
    does not list it, and threadarray_add does not fail. *)
Theorem proc_addthread_remthread (t owner : addr) (ts : gmap addr (option addr))
    (p : proc) (s : kstate) :
  ts !! t = Some None → procs s !! owner = Some p → t ∉ p_threads p →
  hd 0 (oracle s) = 0 →
  ∃ ts1 s1 p1,
    proc_addthread owner t ts s = Ret (0, ts1) s1 ∧
    ts1 !! t = Some (Some owner) ∧
    procs s1 !! owner = Some p1 ∧ p_threads p1 = p_threads p ++ [t] ∧
    proc_remthread t ts1 s1 = Ret ts (set_oracle (tl (oracle s)) s).
Proof.
  intros Ht Hp Hnot Ho.
  exists (<[t := Some owner]> ts),
    (set_procs <[owner := set_p_threads (p_threads p ++ [t]) p]>
       (set_oracle (tl (oracle s)) s)),
    (set_p_threads (p_threads p ++ [t]) p).
  split; [|split; [by rewrite lookup_insert_eq|split;
    [cbn; by rewrite lookup_insert_eq|split; [done|]]]].
  - destruct s as [pr nm ft ar tfs ass vn wd kp cp pt o lg].
    unfold proc_addthread. tunfold. cbn in *. rewrite Ht. cbn. rewrite Hp. cbn.
    destruct o as [|r o]; cbn in *; subst;
      rewrite ?(decide_True (P := 0 = 0)) by done; cbn; rewrite Hp; cbn;
      rewrite Hp; cbn;
      rewrite (decide_False (P := 0 ≠ 0)) by (intros Hz; by apply Hz); done.
  - erewrite (proc_remthread_first_run t owner _ _ (p_threads p) []);
      [| by rewrite lookup_insert_eq | cbn; by rewrite lookup_insert_eq
       | done | done].
    f_equal.
    + rewrite insert_insert_eq. by apply insert_id.
    + apply kstate_eq; cbn; try done.
      rewrite insert_insert_eq, app_nil_r. apply insert_id.
      destruct p; cbn in *. done.
Qed.

(** X4.  proc_addthread refuses a thread that has an owner: its first
    assertion halts the system.  When threadarray_add fails it returns
    that error, and the thread and the thread array are as before. *)
Theorem proc_addthread_refusals (t owner : addr) (ts : gmap addr (option addr))
    (s : kstate) :
  (∀ q, ts !! t = Some (Some q) →
     proc_addthread owner t ts s = Panic "assertion failed") ∧
  (∀ r o, ts !! t = Some None → is_Some (procs s !! owner) →
     oracle s = r :: o → r ≠ 0 →
     proc_addthread owner t ts s = Ret (r, ts) (set_oracle o s)).
Proof.
  split.
  - intros q Ht. unfold proc_addthread. tunfold. cbn. rewrite Ht. done.
  - intros r o Ht [p Hp] Ho Hr.
    destruct s as [pr nm ft ar tfs ass vn wd kp cp pt o' lg]. cbn in *. subst o'.
    unfold proc_addthread. tunfold. cbn. rewrite Ht. cbn. rewrite Hp. cbn.
    rewrite (decide_False (P := r = 0)) by done. cbn.
    rewrite (decide_True (P := r ≠ 0)) by done. done.
Qed.

(** Thread 7 leaves the user process of the scenario, whose thread array
    holds 5 and 7: the array is left with 5. *)
Lemma proc_remthread_first_entry_witness :
  ∃ s', proc_remthread 7%positive
          {[5%positive := Some 2%positive; 7%positive := Some 2%positive]}
          s_threads
        = Ret (<[7%positive := None]>
                 {[5%positive := Some 2%positive; 7%positive := Some 2%positive]})
            s' ∧
        p_threads <$> procs s' !! 2%positive = Some [5%positive].
Proof.
  destruct (proc_remthread_first_entry 7%positive 2%positive
              {[5%positive := Some 2%positive; 7%positive := Some 2%positive]}
              {| p_name := Some 2%positive; p_threads := [5; 7]%positive;
                 p_addrspace := Some 1%positive; p_cwd := None;
                 proc_ft := Some 2%positive; children := Some 2%positive;
                 pid := 2 |} [5%positive] [] s_threads)
    as (s' & Hrun & (p' & Hp' & Hl) & _).
  - vm_compute. reflexivity.
  - vm_compute. reflexivity.
  - reflexivity.
  - intros Hin. apply list_elem_of_singleton in Hin. discriminate.
  - exists s'. split; [exact Hrun|]. rewrite Hp'. cbn. rewrite Hl. reflexivity.
Defined.

Lemma proc_remthread_escaped_witness :
  proc_remthread 9%positive {[9%positive := Some 2%positive]} s_threads
  = Panic "Thread has escaped from its process".
Proof.
  apply (proc_remthread_escaped 9%positive 2%positive
           {[9%positive := Some 2%positive]}
           {| p_name := Some 2%positive; p_threads := [5; 7]%positive;
              p_addrspace := Some 1%positive; p_cwd := None;
              proc_ft := Some 2%positive; children := Some 2%positive;
              pid := 2 |} s_threads).
  - vm_compute. reflexivity.
  - vm_compute. reflexivity.
  - cbn. intros Hin. apply elem_of_cons in Hin as [Hin | Hin]; [discriminate|].
    apply list_elem_of_singleton in Hin. discriminate.
Defined.

Lemma proc_addthread_remthread_witness :
  ∃ ts1 s1,
    proc_addthread 2%positive 5%positive {[5%positive := None]} s_user
      = Ret (0, ts1) s1 ∧
    proc_remthread 5%positive ts1 s1 = Ret {[5%positive := None]} s_user.
Proof.
  destruct (proc_addthread_remthread 5%positive 2%positive {[5%positive := None]}
              {| p_name := Some 2%positive; p_threads := [];
                 p_addrspace := Some 1%positive; p_cwd := None;
                 proc_ft := Some 2%positive; children := Some 2%positive;
                 pid := 2 |} s_user)
    as (ts1 & s1 & p1 & Hadd & _ & _ & _ & Hrem).
  - vm_compute. reflexivity.
  - vm_compute. reflexivity.
  - cbn. apply not_elem_of_nil.
  - vm_compute. reflexivity.
  - exists ts1, s1. split; [exact Hadd | exact Hrem].
Defined.

(** ** The life of a process object: proc_create, proc_destroy, proc_bootstrap *)

Section create.
Context `{kconfig}.

(** proc_create when one of its allocations fails. *)
Lemma proc_create_null (name : string) (s : kstate) :
  Exists (λ x, x ≠ 0) (take 4 (oracle s)) →
  ∃ s', proc_create name s = Ret None s' ∧ kproc s' = kproc s.
Proof.
  destruct s as [pr nm ft ar tfs ass vn wd kp cp pt o lg].
  unfold proc_create. munfold. intros Hex.
  repeat (first [ progress msimpl
    | match goal with
      | |- context [match ?o with [] => _ | _ :: _ => _ end] => destruct o
      | |- context [decide (?r = 0)] => destruct (decide (r = 0)) as [->|?]
      end ]);
  msimpl; inv_lists; try done; eauto.
Qed.

(** X5.  A process object that proc_create returns is new: no live object
    had its address.  It starts with the pid of the kernel, 1, with no
    address space, no working directory and no thread, and with a name, an
    empty file table and an empty children list of its own, all new.  Every
    other process object and the pid table are as before. *)
Theorem proc_create_new_object (name : string) (s : kstate) :
  Forall (λ x, x = 0) (take 4 (oracle s)) →
  ∃ a pc nm ft ch s',
    proc_create name s = Ret (Some a) s' ∧
    procs s !! a = None ∧ procs s' !! a = Some pc ∧
    pid pc = 1 ∧ p_addrspace pc = None ∧ p_cwd pc = None ∧ p_threads pc = [] ∧
    p_name pc = Some nm ∧ names s !! nm = None ∧ names s' !! nm = Some name ∧
    proc_ft pc = Some ft ∧ filetables s !! ft = None ∧
    filetables s' !! ft = Some [] ∧
    children pc = Some ch ∧ arrays s !! ch = None ∧ arrays s' !! ch = Some [] ∧
    (∀ b, b ≠ a → procs s' !! b = procs s !! b) ∧
    ptable s' = ptable s.
Proof.
  intros Hok. rewrite proc_create_ok by done.
  eexists _, _, _, _, _, _. split; [reflexivity|].
  unfold created, new_proc_at. cbn.
  rewrite !lookup_insert_eq, !fresh_lookup.
  repeat split; try done.
  intros b Hb. by rewrite lookup_insert_ne.
Qed.

(** X6.  proc_destroy undoes proc_create: the object, its name, its file
    table and its children list are freed again, and the state is the one
    before proc_create but for the four results used up.  The pointer
    kproc is null or points to a live object. *)
Theorem proc_create_destroy (name : string) (s : kstate) :
  Forall (λ x, x = 0) (take 4 (oracle s)) →
  (∀ k, kproc s = Some k → is_Some (procs s !! k)) →
  ∃ a s1, proc_create name s = Ret (Some a) s1 ∧
          proc_destroy a s1 = Ret tt (set_oracle (drop 4 (oracle s)) s).
Proof.
  intros Hok Hk. rewrite proc_create_ok by done.
  eexists _, _. split; [reflexivity|].
  rewrite proc_destroy_run.
  rewrite decide_False.
  2:{ cbn. intros Heq. symmetry in Heq. destruct (Hk _ Heq) as [x Hx].
      rewrite fresh_lookup in Hx. done. }
  unfold destroyed, created, new_proc_at. cbn.
  repeat (progress (cbn; rewrite ?lookup_insert_eq)).
  f_equal. apply kstate_eq; cbn; rewrite ?fresh_delete_insert, ?app_nil_r; done.
Qed.

(** X7.  proc_bootstrap halts the system as soon as one of the four
    allocations of proc_create fails; otherwise kproc points to a new
    process object whose pid is 1. *)
Theorem proc_bootstrap_outcomes (s : kstate) :
  (Exists (λ x, x ≠ 0) (take 4 (oracle s)) →
   proc_bootstrap s = Panic "proc_create for kproc failed") ∧
  (Forall (λ x, x = 0) (take 4 (oracle s)) →
   ∃ k pk s', proc_bootstrap s = Ret tt s' ∧ kproc s' = Some k ∧
              procs s !! k = None ∧ procs s' !! k = Some pk ∧ pid pk = 1).
Proof.
  unfold proc_bootstrap. split.
  - intros Hex. destruct (proc_create_null "[kernel]" s Hex) as (s' & Hs' & _).
    rewrite run_bind, Hs'. done.
  - intros Hok. rewrite run_bind, proc_create_ok by done.
    eexists _, _, _. split; [reflexivity|]. cbn.
    rewrite lookup_insert_eq, fresh_lookup. done.
Qed.
End create.

Lemma proc_create_new_object_witness :
  ∃ s', @proc_create "sh" s_boot = Ret (Some 2%positive) s' ∧
        procs s_boot !! 2%positive = None ∧
        pid <$> procs s' !! 2%positive = Some 1.
Proof.
  destruct (proc_create_new_object "sh" s_boot)
    as (a & pc & nm & ft & ch & s' & Hrun & Hnew & Hpc & Hpid & _);
    [vm_compute; constructor|].
  assert (Ha : a = 2%positive).
  { vm_compute in Hrun. by injection Hrun as <- _. }
  subst a. exists s'. rewrite Hpc. cbn. rewrite Hpid. done.
Defined.

Lemma proc_create_destroy_witness :
  ∃ a s1, proc_create "sh" s_boot = Ret (Some a) s1 ∧
          proc_destroy a s1 = Ret tt (set_oracle (drop 4 (oracle s_boot)) s_boot).
Proof.
  apply (proc_create_destroy "sh" s_boot).
  - vm_compute. constructor.
  - intros k Hk. vm_compute in Hk. injection Hk as <-. vm_compute. eauto.
Defined.

Lemma proc_bootstrap_outcomes_witness :
  proc_bootstrap (kstate_init [0; 0; 1]) = Panic "proc_create for kproc failed".
Proof.
  apply (proc_bootstrap_outcomes (kstate_init [0; 0; 1])).
  vm_compute. apply Exists_cons_tl, Exists_cons_tl, Exists_cons_hd. lia.
Defined.

(** ** pidtable_bootstrap: its failures and the table it builds *)

Section bootstrap_table.
Context `{kconfig}.

Lemma ready_slots_procs (n : nat) : ∀ (i j : Z) (t : pidtable),
  pid_procs (ready_slots n i t) !! j =
  if decide (i ≤ j < i + Z.of_nat n) then Some None else pid_procs t !! j.
Proof.
  induction n as [|n IH]; intros i j t; cbn [ready_slots].
  - rewrite decide_False by lia. done.
  - rewrite IH. cbn.
    destruct (decide (i + 1 ≤ j < i + 1 + Z.of_nat n)).
    + rewrite decide_True by lia. done.
    + destruct (decide (i = j)) as [->|].
      * rewrite lookup_insert_eq, decide_True by lia. done.
      * rewrite lookup_insert_ne, decide_False by lia. done.
Qed.

Lemma ready_slots_waitcode (n : nat) : ∀ (i j : Z) (t : pidtable),
  pid_waitcode (ready_slots n i t) !! j =
  if decide (i ≤ j < i + Z.of_nat n) then Some 0 else pid_waitcode t !! j.
Proof.
  induction n as [|n IH]; intros i j t; cbn [ready_slots].
  - rewrite decide_False by lia. done.
  - rewrite IH. cbn.
    destruct (decide (i + 1 ≤ j < i + 1 + Z.of_nat n)).
    + rewrite decide_True by lia. done.
    + destruct (decide (i = j)) as [->|].
      * rewrite lookup_insert_eq, decide_True by lia. done.
      * rewrite lookup_insert_ne, decide_False by lia. done.
Qed.

(** X8.  pidtable_bootstrap halts the system when the table cannot be
    allocated and when its lock cannot be created.  It never halts it with
    the message for the condition variable: the test that follows cv_create
    looks at the lock again, which is not NULL there, so that a failure of
    cv_create is not noticed by it. *)
Theorem pidtable_bootstrap_failures (s : kstate) :
  (∀ r o, oracle s = r :: o → r ≠ 0 →
     pidtable_bootstrap s = Panic "Unable to initialize PID table.") ∧
  (∀ r o, oracle s = 0 :: r :: o → r ≠ 0 →
     pidtable_bootstrap s = Panic "Unable to intialize PID table's lock.") ∧
  pidtable_bootstrap s ≠ Panic "Unable to intialize PID table's cv.".
Proof.
  destruct s as [pr nm ft ar tfs ass vn wd kp cp pt o' lg]. cbn.
  split; [|split].
  - intros r o -> Hr. unfold pidtable_bootstrap. munfold. cbn.
    by rewrite (decide_False (P := r = 0)).
  - intros r o -> Hr. unfold pidtable_bootstrap. munfold. cbn.
    rewrite (decide_True (P := 0 = 0)) by done. cbn.
    by rewrite (decide_False (P := r = 0)).
  - unfold pidtable_bootstrap, tbl_set_proc, tbl_set_status, tbl_set_waitcode.
    munfold.
    assert (Hslots : ∀ n i s0,
              bootstrap_slots n i s0
              ≠ Panic "Unable to intialize PID table's cv.").
    { induction n as [|n IH]; intros i s0; cbn [bootstrap_slots]; [done|].
      unfold tbl_set_proc, tbl_set_status, tbl_set_waitcode. munfold.
      destruct (in_table i); cbn; [apply IH | done]. }
    destruct o' as [|r1 [|r2 [|r3 o]]]; cbn -[bootstrap_slots];
      repeat match goal with
      | |- context [decide (?x = 0)] =>
          destruct (decide (x = 0)); cbn -[bootstrap_slots]; try done
      | |- context [match ?m !! ?k with _ => _ end] =>
          destruct (m !! k); cbn -[bootstrap_slots]; try done
      | |- context [match kp with _ => _ end] =>
          destruct kp; cbn -[bootstrap_slots]; try done
      | |- context [in_table ?x] =>
          destruct (in_table x); cbn -[bootstrap_slots]; try done
      end;
      apply Hslots.
Qed.

(** X9.  The table that pidtable_bootstrap builds, for a kernel process
    whose pid is a cell of the table: every slot from PID_MIN up to
    PID_MAX - 1 is READY with no process and exit code 0; the slot of the
    kernel process is RUNNING and points to it, unless it is one of those
    slots, which the loop then overwrites; no other cell is written.  The
    hint is PID_MIN, and nothing but the table changes. *)
Theorem pidtable_bootstrap_table (kp : addr) (k : proc) (s : kstate) :
  kproc s = Some kp → procs s !! kp = Some k →
  0 ≤ pid k < PID_MAX → 0 ≤ PID_MIN ≤ PID_MAX → oracle s = [] →
  ∃ t, pidtable_bootstrap s = Ret tt (set_ptable (λ _, t) s) ∧
       pid_next t = PID_MIN ∧
       ∀ j,
         pid_status t !! j =
           (if decide (PID_MIN ≤ j < PID_MAX) then Some READY
            else if decide (j = pid k) then Some RUNNING else None) ∧
         pid_procs t !! j =
           (if decide (PID_MIN ≤ j < PID_MAX) then Some None
            else if decide (j = pid k) then Some (Some kp) else None) ∧
         pid_waitcode t !! j =
           (if decide (PID_MIN ≤ j < PID_MAX ∨ j = pid k) then Some 0 else None).
Proof.
  intros Hkp Hk Hpid Hmin Ho.
  destruct s as [pr nm ft ar tfs ass vn wd kp' cp pt o lg]. cbn in *. subst.
  assert (Hin : in_table (pid k) = true) by (apply in_table_spec; lia).
  unfold pidtable_bootstrap, tbl_set_proc, tbl_set_status, tbl_set_waitcode.
  munfold.
  repeat (cbn -[bootstrap_slots];
    rewrite ?Hk, ?Hin, ?(decide_True (P := 0 = 0)) by done).
  rewrite bootstrap_slots_run by lia.
  exists (ready_slots (Z.to_nat (PID_MAX - PID_MIN)) PID_MIN
    (set_pid_next PID_MIN (set_pid_available (PID_MAX - 1)
       (set_pid_waitcode <[pid k := 0]> (set_pid_status <[pid k := RUNNING]>
          (set_pid_procs <[pid k := Some kp]> pidtable_blank)))))).
  split.
  - f_equal.
  - split.
    + match goal with |- pid_next (ready_slots ?n ?i ?t) = _ =>
        destruct (ready_slots_available n i t) as [_ ->] end. done.
    + intros j.
      rewrite ready_slots_status, ready_slots_procs, ready_slots_waitcode.
      rewrite Z2Nat.id by lia.
      replace (PID_MIN + (PID_MAX - PID_MIN)) with PID_MAX by lia. cbn.
      destruct (decide (PID_MIN ≤ j < PID_MAX)).
      * rewrite decide_True by (by left). done.
      * destruct (decide (j = pid k)) as [->|].
        -- rewrite !lookup_insert_eq, decide_True by (by right). done.
        -- rewrite !lookup_insert_ne, !lookup_empty by done.
           rewrite decide_False by (intros [?|?]; done). done.
Qed.
End bootstrap_table.

Lemma pidtable_bootstrap_table_witness :
  ∃ t, @pidtable_bootstrap small_config (set_ptable (λ _, pidtable_blank) s_boot)
         = Ret tt (set_ptable (λ _, t) (set_ptable (λ _, pidtable_blank) s_boot)) ∧
       pid_status t !! 1 = Some RUNNING ∧ pid_status t !! 2 = Some READY ∧
       pid_status t !! 0 = None.
Proof.
  destruct (@pidtable_bootstrap_table small_config 1%positive
              {| p_name := Some 1%positive; p_threads := [];
                 p_addrspace := None; p_cwd := None;
                 proc_ft := Some 1%positive; children := Some 1%positive;
                 pid := 1 |} (set_ptable (λ _, pidtable_blank) s_boot))
    as (t & Hrun & _ & Ht);
    [vm_compute; reflexivity | vm_compute; reflexivity | vm_compute; done
    | vm_compute; done | vm_compute; reflexivity |].
  exists t. split; [exact Hrun|].
  split; [apply (Ht 1) | split; [apply (Ht 2) | apply (Ht 0)]].
Defined.

(** ** pidtable_add: the pids it hands out *)

Section pids.
Context `{kconfig}.

(** Registrations in a table that has only been filled so far return the
    slots in increasing order. *)
Lemma add_each_after (ps : list addr) : ∀ (k : Z) (s : kstate),
  1 < PID_MIN → 0 ≤ k → PID_MIN + k + Z.of_nat (length ps) ≤ PID_MAX →
  add_ready s → table_after k (ptable s) → pid_next (ptable s) = PID_MIN + k →
  ∃ s', add_each ps s = Ret (seqZ (PID_MIN + k) (Z.of_nat (length ps))) s' ∧
        add_ready s' ∧
        table_after (k + Z.of_nat (length ps)) (ptable s') ∧
        (ps = [] ∨ PID_MIN + k + Z.of_nat (length ps) < PID_MAX →
         pid_next (ptable s') = PID_MIN + k + Z.of_nat (length ps)) ∧
        (ps ≠ [] → PID_MIN + k + Z.of_nat (length ps) = PID_MAX →
         pid_next (ptable s') = PID_MAX - 1).
Proof.
  induction ps as [|p ps IH]; intros k s Hmin Hk Hlen Hr Ht Hn.
  - exists s. cbn [length add_each] in *. rewrite !Z.add_0_r in *.
    split; [done|]. split; [done|]. split; [done|]. split; [done|]. done.
  - cbn [add_each]. cbn [length] in *.
    destruct (pidtable_add_after p k s) as (s1 & Hadd & Hr1 & Ht1 & Hn1);
      [lia..|done|done|done|].
    rewrite (run_bind_Ret _ _ _ _ _ Hadd).
    rewrite Nat2Z.inj_succ, seqZ_cons by lia.
    replace (Z.pred (Z.succ (Z.of_nat (length ps)))) with (Z.of_nat (length ps))
      by lia.
    destruct (decide (PID_MIN + k + 1 < PID_MAX)) as [Hmore|Hlast].
    + destruct (IH (k + 1) s1) as (s' & Hrun & Hr' & Ht' & Hn' & Hl');
        [lia..|done|done|lia|].
      rewrite run_bind.
      replace (Z.succ (PID_MIN + k)) with (PID_MIN + (k + 1)) by lia.
      rewrite Hrun. exists s'. split; [done|]. split; [done|].
      replace (k + Z.succ (Z.of_nat (length ps)))
        with (k + 1 + Z.of_nat (length ps)) by lia.
      split; [done|]. split.
      * intros [?|Hlt]; [done|]. rewrite Hn' by (right; lia). lia.
      * intros _ Heq. destruct ps as [|p' ps]; [cbn in *; lia|].
        apply Hl'; [done | lia].
    + destruct ps as [|p' ps]; [|cbn [length] in *; lia].
      cbn [length add_each] in *.
      exists s1. split; [done|]. split; [done|].
      replace (k + Z.succ (Z.of_nat 0)) with (k + 1) by lia.
      split; [done|]. split; [intros [?|?]; [done | lia] | intros _ ?; lia].
Qed.

(** Filling the table: after as many registrations as there are slots the
    process that registers is still fit to do so. *)
Lemma add_each_boot (ps : list addr) :
  1 < PID_MIN → PID_MIN + Z.of_nat (length ps) ≤ PID_MAX →
  ∃ s, (boot;; add_each ps) (kstate_init []) =
         Ret (seqZ PID_MIN (Z.of_nat (length ps))) s ∧
       add_ready s ∧ table_after (Z.of_nat (length ps)) (ptable s) ∧
       (ps ≠ [] → PID_MIN + Z.of_nat (length ps) = PID_MAX →
        pid_next (ptable s) = PID_MAX - 1).
Proof.
  intros Hmin Hlen.
  destruct (boot_run Hmin ltac:(lia)) as (s0 & Hboot & Hr & Ht & Hn & _).
  rewrite (run_bind_Ret _ _ _ _ _ Hboot).
  destruct (add_each_after ps 0 s0) as (s & Hs & Hr' & Ht' & _ & Hl);
    [lia..|done|done|lia|].
  rewrite Z.add_0_r in Hs. exists s. split; [done|]. split; [done|].
  split; [done|]. intros Hne Heq. apply Hl; [done | lia].
Qed.

(** X10.  After the bootstrap, registrations with no exit in between get the
    pids PID_MIN, PID_MIN + 1, ... in this order, as long as there are
    slots. *)
Theorem pids_in_order (ps : list addr) :
  1 < PID_MIN → PID_MIN + Z.of_nat (length ps) ≤ PID_MAX →
  ∃ s, (boot;; add_each ps) (kstate_init []) =
         Ret (seqZ PID_MIN (Z.of_nat (length ps))) s.
Proof.
  intros Hmin Hlen.
  destruct (add_each_boot ps Hmin Hlen) as (s & Hs & _). eauto.
Qed.

(** X11.  With pid 1 kept for the kernel, the registration that follows
    the one that took the last slot is not refused: it gets the pid of the
    last slot a second time, and the slot then points to the newcomer.  Two
    processes hold the pid PID_MAX - 1. *)
Theorem last_pid_handed_out_twice (ps : list addr) (p q : addr) :
  1 < PID_MIN → PID_MIN + Z.of_nat (length ps) + 1 = PID_MAX →
  ∃ s, (boot;; add_each (ps ++ [p; q])) (kstate_init []) =
         Ret (seqZ PID_MIN (PID_MAX - PID_MIN) ++ [PID_MAX - 1]) s ∧
       pid_procs (ptable s) !! (PID_MAX - 1) = Some (Some q) ∧
       pid_status (ptable s) !! (PID_MAX - 1) = Some RUNNING.
Proof.
  intros Hmin Hlen.
  destruct (add_each_boot (ps ++ [p])) as (s1 & Hs1 & Hr & [Hst Hav] & Hnext);
    [done | rewrite length_app; cbn; lia |].
  rewrite length_app in *. cbn [length] in *.
  assert (Hnext' : pid_next (ptable s1) = PID_MAX - 1)
    by (apply Hnext; [by destruct ps | lia]).
  clear Hnext.
  assert (Hsplit : ∀ l1 l2 s, add_each (l1 ++ l2) s =
            (vs ← add_each l1; ws ← add_each l2; mret (vs ++ ws)) s).
  { induction l1 as [|x l1 IH]; intros l2 s; cbn [add_each app].
    - rewrite !run_bind. cbn. rewrite run_bind.
      destruct (add_each l2 s); done.
    - rewrite !run_bind. destruct (pidtable_add x s); try done.
      rewrite !run_bind, IH, !run_bind. destruct (add_each l1 s0); try done.
      cbn. rewrite !run_bind. destruct (add_each l2 s2); done. }
  replace (ps ++ [p; q]) with ((ps ++ [p]) ++ [q]) by (by rewrite <- app_assoc).
  rewrite run_bind in Hs1 |- *.
  destruct (boot (kstate_init [])) as [[] s0| | | |]; try done.
  rewrite Hsplit, run_bind, Hs1. cbn [add_each].
  destruct Hr as (cur & c & arr & l & Hcur & Hc & Harr & Hl & Ho).
  rewrite !run_bind, pidtable_add_run, Hcur, Hc, Harr, Hl, Ho, Hnext', Hav.
  cbn zeta.
  rewrite (decide_True (P := PID_MAX - 1 - Z.of_nat (length ps + 1) > 0))
    by lia.
  assert (Hin : in_table (PID_MAX - 1) = true) by (apply in_table_spec; lia).
  rewrite Hin.
  replace (Z.to_nat (PID_MAX - (PID_MAX - 1))) with 1%nat by lia.
  cbn [scan_find]. rewrite lookup_insert_eq.
  rewrite (decide_False (P := RUNNING = READY)) by done.
  replace (Z.of_nat (length ps + 1)) with (PID_MAX - PID_MIN) by lia.
  destruct (decide (_ - 1 > 0)); cbn;
    (eexists; split; [reflexivity|]); cbn; rewrite !lookup_insert_eq; done.
Qed.
End pids.

Lemma pids_in_order_witness :
  ∃ s, (@boot small_config;; @add_each small_config [2; 3; 4; 5]%positive)
         (kstate_init []) = Ret [2; 3; 4; 5] s.
Proof.
  apply (@pids_in_order small_config [2; 3; 4; 5]%positive); vm_compute; done.
Defined.

(** Pids 2 to 5: the fifth registration gets pid 5 again, and slot 5 then
    points to the fifth process. *)
Lemma last_pid_handed_out_twice_witness :
  ∃ s, (@boot small_config;;
        @add_each small_config [2; 3; 4; 5; 6]%positive) (kstate_init []) =
         Ret [2; 3; 4; 5; 5] s ∧
       pid_procs (ptable s) !! 5 = Some (Some 6%positive) ∧
       pid_status (ptable s) !! 5 = Some RUNNING.
Proof.
  apply (@last_pid_handed_out_twice small_config [2; 3; 4]%positive
           5%positive 6%positive); vm_compute; done.
Defined.

(** ** sys_fork when it succeeds *)

(** The run of sys_fork is computed forward with what is known of the
    parent. *)
Ltac fork_step Hpp Has Hasc Harr Hl Hft Hftc Htf :=
  repeat (cbn -[pidtable_add];
    first [ rewrite lookup_insert_eq
          | rewrite lookup_insert_ne by done
          | rewrite Hpp | rewrite Has | rewrite Hasc | rewrite Harr
          | rewrite Hl | rewrite Hft | rewrite Hftc | rewrite Htf
          | rewrite (decide_True (P := 0 = 0)) by done
          | rewrite (decide_False (P := 0 ≠ 0)) by (intros Hz; apply Hz; done) ]);
  cbn -[pidtable_add].

Section fork_ok.
Context `{kconfig}.

(** The run of a fork in which nothing fails, for a parent that is fit to
    fork: the current process is live with an address space, a file table
    and a children list, its working directory (if any) and the trap frame
    are live, and the pid table has room at the hint. *)
Lemma sys_fork_ok (tf rv parent asp arr ftp : addr) (pp : proc)
    (l : list addr) (asc : Z) (ftc : list Z) (tfc : trapframe) (o : list Z)
    (s : kstate) :
  oracle s = 0 :: 0 :: 0 :: 0 :: 0 :: 0 :: 0 :: 0 :: o →
  curproc s = Some parent → procs s !! parent = Some pp →
  p_addrspace pp = Some asp → addrspaces s !! asp = Some asc →
  children pp = Some arr → arrays s !! arr = Some l →
  proc_ft pp = Some ftp → filetables s !! ftp = Some ftc →
  (∀ vn, p_cwd pp = Some vn → is_Some (vnodes s !! vn)) →
  trapframes s !! tf = Some tfc →
  pid_available (ptable s) > 0 → in_table (pid_next (ptable s)) = true →
  (∀ j, pid_next (ptable s) ≤ j < PID_MAX → is_Some (pid_status (ptable s) !! j)) →
  let child := fresh (dom (procs s)) in
  let new_tf := fresh (dom (trapframes s)) in
  let new_as := fresh (dom (addrspaces s)) in
  let new_ft := fresh (dom (filetables s)) in
  let pid_c := pid_next (ptable s) in
  ∃ s' pc, sys_fork tf (Some rv) s = Ret 0 s' ∧
    procs s' !! child = Some pc ∧ pid pc = pid_c ∧
    p_addrspace pc = Some new_as ∧ p_cwd pc = p_cwd pp ∧
    proc_ft pc = Some new_ft ∧
    procs s' !! parent = Some pp ∧
    addrspaces s' = <[new_as := asc]> (addrspaces s) ∧
    filetables s' = <[new_ft := ftc]> (filetables s) ∧
    vnodes s' = match p_cwd pp with
                | Some vn => <[vn := default 0 (vnodes s !! vn) + 1]> (vnodes s)
                | None => vnodes s
                end ∧
    trapframes s' !! new_tf =
      Some (Trapframe 0 (tf_v1 tfc) (tf_a3 tfc) (wrap32 (tf_epc tfc + 4))
              (tf_other tfc)) ∧
    trapframes s' !! tf = Some (Trapframe 0 0 0 (tf_epc tfc) (tf_other tfc)) ∧
    words s' = <[rv := pid_c]> (words s) ∧
    log s' = log s ++ [LockAcquire; LockRelease; ThreadFork child new_tf 0] ∧
    pid_status (ptable s') = <[pid_c := RUNNING]> (pid_status (ptable s)) ∧
    pid_procs (ptable s') = <[pid_c := Some child]> (pid_procs (ptable s)) ∧
    pid_waitcode (ptable s') = <[pid_c := 0]> (pid_waitcode (ptable s)) ∧
    pid_available (ptable s') = pid_available (ptable s) - 1 ∧
    arrays s' !! arr = Some (l ++ [child]).
Proof.
  destruct s as [pr nm ft ar tfs ass vn wd kp cp pt o' lg]. cbn.
  intros -> -> Hpp Has Hasc Harr Hl Hft Hftc Hcwd Htf Hav Hin Hcells.
  assert (Hnp : fresh (dom pr) ≠ parent)
    by (intros <-; rewrite fresh_lookup in Hpp; done).
  assert (Hna : fresh (dom ar) ≠ arr)
    by (intros <-; rewrite fresh_lookup in Hl; done).
  assert (Hnf : fresh (dom ft) ≠ ftp)
    by (intros <-; rewrite fresh_lookup in Hftc; done).
  assert (Hnt : fresh (dom tfs) ≠ tf)
    by (intros <-; rewrite fresh_lookup in Htf; done).
  unfold sys_fork. rewrite run_bind, proc_create_ok by (cbn; repeat constructor).
  unfold created, new_proc_at. munfold.
  assert (Hcw : ∃ vs, match p_cwd pp with
                      | Some v => vn !! v = Some vs
                      | None => True
                      end).
  { destruct (p_cwd pp) as [v|]; [|by exists 0].
    destruct (Hcwd v eq_refl) as [vs Hvs]. eauto. }
  destruct Hcw as [vs Hvs].
  fork_step Hpp Has Hasc Harr Hl Hft Hftc Htf.
  destruct (p_cwd pp) as [v|];
    repeat (cbn -[pidtable_add];
            first [rewrite Hvs | rewrite lookup_insert_eq]).
  all: match goal with
       | |- context [pidtable_add ?c ?S] =>
         destruct (pidtable_add_ok c parent arr pp l (0 :: o) S) as [hint Hadd];
           [ reflexivity
           | cbn; rewrite ?lookup_insert_ne by done; exact Hpp
           | exact Harr
           | cbn; rewrite lookup_insert_ne by done; exact Hl
           | reflexivity | exact Hav | exact Hin | exact Hcells
           | rewrite Hadd; clear Hadd ]
       end.
  all: assert (Hn1 : pid_next pt ≠ -1) by (apply in_table_spec in Hin; lia).
  all: fork_step Hpp Has Hasc Harr Hl Hft Hftc Htf.
  all: rewrite (decide_False (P := pid_next pt = -1)) by done.
  all: fork_step Hpp Has Hasc Harr Hl Hft Hftc Htf.
  all: eexists _, _; (split; [reflexivity|]); cbn.
  all: rewrite ?lookup_insert_eq.
  all: rewrite ?(lookup_insert_ne _ arr (fresh (dom ar))) by done.
  all: rewrite ?(lookup_insert_ne _ (fresh (dom pr)) parent) by done.
  all: rewrite ?lookup_insert_eq.
  all: rewrite ?(lookup_insert_ne _ tf (fresh (dom tfs))) by done.
  all: rewrite ?lookup_insert_eq.
  all: rewrite ?insert_insert_eq, <- ?app_assoc.
  all: repeat split; eauto.
Qed.

(** A parent that is fit to fork, in a run in which nothing fails. *)
Section fork_succeeds.
Variables (tf rv parent asp arr ftp : addr) (pp : proc) (l : list addr)
  (asc : Z) (ftc : list Z) (tfc : trapframe) (o : list Z) (s : kstate)
  (rv' : addr).
Hypothesis Hora : oracle s = 0 :: 0 :: 0 :: 0 :: 0 :: 0 :: 0 :: 0 :: o.
Hypothesis Hcur : curproc s = Some parent.
Hypothesis Hpp : procs s !! parent = Some pp.
Hypothesis Has : p_addrspace pp = Some asp.
Hypothesis Hasc : addrspaces s !! asp = Some asc.
Hypothesis Harr : children pp = Some arr.
Hypothesis Hl : arrays s !! arr = Some l.
Hypothesis Hft : proc_ft pp = Some ftp.
Hypothesis Hftc : filetables s !! ftp = Some ftc.
Hypothesis Hcwd : ∀ vn, p_cwd pp = Some vn → is_Some (vnodes s !! vn).
Hypothesis Htf : trapframes s !! tf = Some tfc.
Hypothesis Hav : pid_available (ptable s) > 0.
Hypothesis Hin : in_table (pid_next (ptable s)) = true.
Hypothesis Hcells :
  ∀ j, pid_next (ptable s) ≤ j < PID_MAX → is_Some (pid_status (ptable s) !! j).

(** X12.  A fork that succeeds returns 0 and stores the pid of the child
    through retval0.  The trap frame made for the child is the frame of
    the parent with v0 = 0 and epc moved on by 4, modulo 2^32, whereas the
    frame of the parent keeps its epc and has v0, v1 and a3 cleared.
    thread_fork is the last thing asked for, with the child and the new
    frame. *)
Theorem sys_fork_trap_frames :
  let child := fresh (dom (procs s)) in
  let new_tf := fresh (dom (trapframes s)) in
  ∃ s', sys_fork tf (Some rv) s = Ret 0 s' ∧
    new_tf ≠ tf ∧
    trapframes s' !! new_tf =
      Some (Trapframe 0 (tf_v1 tfc) (tf_a3 tfc) (wrap32 (tf_epc tfc + 4))
              (tf_other tfc)) ∧
    trapframes s' !! tf = Some (Trapframe 0 0 0 (tf_epc tfc) (tf_other tfc)) ∧
    words s' !! rv = Some (pid_next (ptable s)) ∧
    ∃ pre, log s' = pre ++ [ThreadFork child new_tf 0].
Proof.
  destruct (sys_fork_ok tf rv parent asp arr ftp pp l asc ftc tfc o s)
    as (s' & pc & Hrun & _ & _ & _ & _ & _ & _ & _ & _ & _ & Hn & Ht & Hw
        & Hlog & _); try done.
  exists s'. split; [done|]. split; [|split; [done|split; [done|split]]].
  - intros Heq. rewrite <- Heq, fresh_lookup in Htf. done.
  - rewrite Hw. apply lookup_insert_eq.
  - rewrite Hlog. exists (log s ++ [LockAcquire; LockRelease]).
    by rewrite <- app_assoc.
Qed.

(** X13.  What the child of a successful fork is made of: an address space
    of its own, new, with the contents of the parent's, which is left as it
    was; a file table of its own with the entries of the parent's; the
    working directory of the parent, whose vnode gains one reference.
    The parent object itself is unchanged. *)
Theorem sys_fork_child_resources :
  let child := fresh (dom (procs s)) in
  ∃ s' pc new_as new_ft, sys_fork tf (Some rv) s = Ret 0 s' ∧
    procs s' !! child = Some pc ∧ procs s' !! parent = Some pp ∧
    p_addrspace pc = Some new_as ∧ new_as ≠ asp ∧
    addrspaces s !! new_as = None ∧
    addrspaces s' !! new_as = Some asc ∧ addrspaces s' !! asp = Some asc ∧
    proc_ft pc = Some new_ft ∧ new_ft ≠ ftp ∧
    filetables s' !! new_ft = Some ftc ∧ filetables s' !! ftp = Some ftc ∧
    p_cwd pc = p_cwd pp ∧
    (∀ vn n, p_cwd pp = Some vn → vnodes s !! vn = Some n →
       vnodes s' !! vn = Some (n + 1)) ∧
    (p_cwd pp = None → vnodes s' = vnodes s).
Proof.
  destruct (sys_fork_ok tf rv parent asp arr ftp pp l asc ftc tfc o s)
    as (s' & pc & Hrun & Hpc & _ & Hpas & Hpcwd & Hpft & Hpar & Hass & Hfts
        & Hvn & _); try done.
  exists s', pc, (fresh (dom (addrspaces s))), (fresh (dom (filetables s))).
  assert (Hna : fresh (dom (addrspaces s)) ≠ asp)
    by (intros Heq; rewrite <- Heq, fresh_lookup in Hasc; done).
  assert (Hnf : fresh (dom (filetables s)) ≠ ftp)
    by (intros Heq; rewrite <- Heq, fresh_lookup in Hftc; done).
  rewrite Hass, Hfts, Hvn, !lookup_insert_eq, !lookup_insert_ne by done.
  repeat split; try done.
  - apply fresh_lookup.
  - intros vn n -> Hn. by rewrite lookup_insert_eq, Hn.
  - by intros ->.
Qed.

(** X14.  A fork that succeeds registers the child in the slot that the
    hint named: the slot is RUNNING with exit code 0 and points to the
    child, the pid of the child is the index of the slot, the counter of
    free slots is one down, no other slot changes its status, and the child
    is the last entry of the children list of the parent. *)
Theorem sys_fork_registers_child :
  let child := fresh (dom (procs s)) in
  let pid_c := pid_next (ptable s) in
  ∃ s' pc, sys_fork tf (Some rv) s = Ret 0 s' ∧
    procs s !! child = None ∧
    procs s' !! child = Some pc ∧ pid pc = pid_c ∧
    pid_status (ptable s') !! pid_c = Some RUNNING ∧
    pid_procs (ptable s') !! pid_c = Some (Some child) ∧
    pid_waitcode (ptable s') !! pid_c = Some 0 ∧
    pid_available (ptable s') = pid_available (ptable s) - 1 ∧
    (∀ j, j ≠ pid_c → pid_status (ptable s') !! j = pid_status (ptable s) !! j) ∧
    arrays s' !! arr = Some (l ++ [child]).
Proof.
  destruct (sys_fork_ok tf rv parent asp arr ftp pp l asc ftc tfc o s)
    as (s' & pc & Hrun & Hpc & Hpid & _ & _ & _ & _ & _ & _ & _ & _ & _ & _
        & _ & Hst & Hpr & Hwc & Hav' & Harr'); try done.
  exists s', pc. rewrite Hst, Hpr, Hwc, !lookup_insert_eq.
  repeat split; try done.
  - apply fresh_lookup.
  - intros j Hj. by rewrite lookup_insert_ne.
Qed.

(** X15.  The pid that the parent is given is the pid that the child sees:
    when the child of a successful fork runs and calls sys_getpid, the
    value stored for it is the one that the fork stored through retval0
    for the parent. *)
Theorem fork_then_getpid :
  let child := fresh (dom (procs s)) in
  ∃ s' s'' v, sys_fork tf (Some rv) s = Ret 0 s' ∧
    sys_getpid (Some rv') (set_curproc (Some child) s') = Ret 0 s'' ∧
    words s' !! rv = Some v ∧ words s'' !! rv' = Some v.
Proof.
  destruct (sys_fork_ok tf rv parent asp arr ftp pp l asc ftc tfc o s)
    as (s' & pc & Hrun & Hpc & Hpid & _ & _ & _ & _ & _ & _ & _ & _ & _ & Hw
        & _); try done.
  exists s'. unfold sys_getpid. munfold. cbn. rewrite Hpc. cbn.
  eexists _, _. split; [done|]. split; [reflexivity|]. cbn.
  rewrite Hw, !lookup_insert_eq, Hpid. done.
Qed.
End fork_succeeds.
End fork_ok.

(** The hypotheses on the scenario are settled by evaluation. *)
Ltac scenario_hyp :=
  first
  [ vm_compute; reflexivity
  | vm_compute; done
  | let vn := fresh "vn" in let Hvn := fresh "Hvn" in
    intros vn Hvn; vm_compute in Hvn; injection Hvn as <-; vm_compute; eauto
  | let j := fresh "j" in let Hj := fresh "Hj" in
    intros j Hj; change (3 ≤ j < 6) in Hj;
    assert (j = 3 ∨ j = 4 ∨ j = 5) as [-> | [-> | ->]] by lia;
    vm_compute; eauto ].

(** The user process of the scenario forks at the top of the address
    space: the child resumes at address 0 with v0 = 0. *)
Lemma sys_fork_trap_frames_witness :
  ∃ s', @sys_fork small_config 1%positive (Some 1%positive) s_user_cwd = Ret 0 s' ∧
    trapframes s' !! 2%positive = Some (Trapframe 0 8 1 0 [5]) ∧
    trapframes s' !! 1%positive = Some (Trapframe 0 0 0 4294967292 [5]) ∧
    words s' !! 1%positive = Some 3.
Proof.
  destruct (@sys_fork_trap_frames small_config 1%positive 1%positive
              2%positive 1%positive 2%positive 2%positive
              {| p_name := Some 2%positive; p_threads := [];
                 p_addrspace := Some 1%positive; p_cwd := Some 1%positive;
                 proc_ft := Some 2%positive; children := Some 2%positive;
                 pid := 2 |} [] 0 [0; 1; 2] (Trapframe 9 8 1 4294967292 [5])
              [] s_user_cwd)
    as (s' & Hrun & _ & Hchild & Hparent & Hw & _); [scenario_hyp..|].
  exists s'. split; [exact Hrun|]. split; [exact Hchild|].
  split; [exact Hparent | exact Hw].
Defined.

Lemma sys_fork_child_resources_witness :
  ∃ s' pc, @sys_fork small_config 1%positive (Some 1%positive) s_user_cwd
             = Ret 0 s' ∧
    procs s' !! 3%positive = Some pc ∧ p_cwd pc = Some 1%positive ∧
    vnodes s' !! 1%positive = Some 2.
Proof.
  destruct (@sys_fork_child_resources small_config 1%positive 1%positive
              2%positive 1%positive 2%positive 2%positive
              {| p_name := Some 2%positive; p_threads := [];
                 p_addrspace := Some 1%positive; p_cwd := Some 1%positive;
                 proc_ft := Some 2%positive; children := Some 2%positive;
                 pid := 2 |} [] 0 [0; 1; 2] (Trapframe 9 8 1 4294967292 [5])
              [] s_user_cwd)
    as (s' & pc & new_as & new_ft & Hrun & Hpc & _ & _ & _ & _ & _ & _ & _
        & _ & _ & _ & Hcwd & Hvn & _); [scenario_hyp..|].
  exists s', pc. split; [exact Hrun|]. split; [exact Hpc|].
  split; [exact Hcwd|]. apply (Hvn 1%positive 1); reflexivity.
Defined.

Lemma sys_fork_registers_child_witness :
  ∃ s' pc, @sys_fork small_config 1%positive (Some 1%positive) s_user_cwd
             = Ret 0 s' ∧
    procs s' !! 3%positive = Some pc ∧ pid pc = 3 ∧
    pid_status (ptable s') !! 3 = Some RUNNING ∧
    pid_procs (ptable s') !! 3 = Some (Some 3%positive) ∧
    arrays s' !! 2%positive = Some [3%positive].
Proof.
  destruct (@sys_fork_registers_child small_config 1%positive 1%positive
              2%positive 1%positive 2%positive 2%positive
              {| p_name := Some 2%positive; p_threads := [];
                 p_addrspace := Some 1%positive; p_cwd := Some 1%positive;
                 proc_ft := Some 2%positive; children := Some 2%positive;
                 pid := 2 |} [] 0 [0; 1; 2] (Trapframe 9 8 1 4294967292 [5])
              [] s_user_cwd)
    as (s' & pc & Hrun & _ & Hpc & Hpid & Hst & Hpr & _ & _ & _ & Harr);
    [scenario_hyp..|].
  exists s', pc. repeat split; assumption.
Defined.

Lemma fork_then_getpid_witness :
  ∃ s' s'', @sys_fork small_config 1%positive (Some 1%positive) s_user_cwd
              = Ret 0 s' ∧
    @sys_getpid (Some 2%positive) (set_curproc (Some 3%positive) s') = Ret 0 s'' ∧
    words s'' !! 2%positive = words s' !! 1%positive.
Proof.
  destruct (@fork_then_getpid small_config 1%positive 1%positive
              2%positive 1%positive 2%positive 2%positive
              {| p_name := Some 2%positive; p_threads := [];
                 p_addrspace := Some 1%positive; p_cwd := Some 1%positive;
                 proc_ft := Some 2%positive; children := Some 2%positive;
                 pid := 2 |} [] 0 [0; 1; 2] (Trapframe 9 8 1 4294967292 [5])
              [] s_user_cwd 2%positive)
    as (s' & s'' & v & Hrun & Hget & Hw & Hw'); [scenario_hyp..|].
  exists s', s''. split; [exact Hrun|]. split; [exact Hget|].
  rewrite Hw, Hw'. reflexivity.
Defined.

(** ** A full table, and proc_create_runprogram *)

Section full.
Context `{kconfig}.

(** pidtable_add with the counter of free slots used up. *)
Lemma pidtable_add_full (p cur arr : addr) (c : proc) (l : list addr)
    (s : kstate) :
  curproc s = Some cur → procs s !! cur = Some c → children c = Some arr →
  arrays s !! arr = Some l → pid_available (ptable s) ≤ 0 →
  pidtable_add p s = Panic "PID table full!".
Proof.
  intros Hcur Hc Harr Hl Hav.
  rewrite pidtable_add_run, Hcur, Hc, Harr, Hl. cbn zeta.
  by rewrite (decide_False (P := pid_available (ptable s) > 0)) by lia.
Qed.

(** X16.  When the counter of free slots is used up, a fork is not refused
    with ENPROC: pidtable_add halts the system with its own message, and
    the test for -1 that follows it in sys_fork is never made. *)
Theorem sys_fork_full_table_panics (tf parent asp arr : addr) (pp : proc)
    (retval0 : option addr) (o : list Z) (cs : list addr) (s : kstate) :
  oracle s = 0 :: 0 :: 0 :: 0 :: 0 :: 0 :: o →
  curproc s = Some parent → procs s !! parent = Some pp →
  p_addrspace pp = Some asp → is_Some (addrspaces s !! asp) →
  children pp = Some arr → arrays s !! arr = Some cs →
  (∀ vn, p_cwd pp = Some vn → is_Some (vnodes s !! vn)) →
  pid_available (ptable s) ≤ 0 →
  sys_fork tf retval0 s = Panic "PID table full!".
Proof.
  destruct s as [pr nm ft ar tfs ass vn wd kp cp pt o' lg]. cbn.
  intros -> -> Hpp Has [asc Hasc] Harr Hl Hcwd Hav.
  assert (Hnp : fresh (dom pr) ≠ parent)
    by (intros <-; rewrite fresh_lookup in Hpp; done).
  assert (Hna : fresh (dom ar) ≠ arr)
    by (intros <-; rewrite fresh_lookup in Hl; done).
  unfold sys_fork. rewrite run_bind, proc_create_ok by (cbn; repeat constructor).
  unfold created, new_proc_at. munfold.
  assert (Hcw : ∃ vs, match p_cwd pp with
                      | Some v => vn !! v = Some vs
                      | None => True
                      end).
  { destruct (p_cwd pp) as [v|]; [|by exists 0].
    destruct (Hcwd v eq_refl) as [vs Hvs]. eauto. }
  destruct Hcw as [vs Hvs].
  repeat (cbn -[pidtable_add];
    first [ rewrite lookup_insert_eq
          | rewrite lookup_insert_ne by done
          | rewrite Hpp | rewrite Has | rewrite Hasc
          | rewrite (decide_True (P := 0 = 0)) by done
          | rewrite (decide_False (P := 0 ≠ 0)) by (intros Hz; apply Hz; done) ]).
  destruct (p_cwd pp) as [v|];
    repeat (cbn -[pidtable_add];
            first [rewrite Hvs | rewrite lookup_insert_eq]).
  all: erewrite (pidtable_add_full _ parent arr pp cs);
    [ done | reflexivity
    | cbn; rewrite ?lookup_insert_ne by done; exact Hpp
    | exact Harr
    | cbn; rewrite lookup_insert_ne by done; exact Hl
    | exact Hav ].
Qed.
End full.

Section runprogram.
Context `{kconfig}.

(** X17.  When ft_init_std fails (the fifth result drawn, after the four of
    proc_create), proc_create_runprogram returns null having freed the
    process object only: the name, the file table and the children list
    made by proc_create stay allocated, and the pid table is not touched. *)
Theorem proc_create_runprogram_ft_failure (name : string) (s : kstate)
    (r : Z) (o : list Z) :
  oracle s = 0 :: 0 :: 0 :: 0 :: r :: o → r ≠ 0 →
  ∃ s', proc_create_runprogram name s = Ret None s' ∧
    procs s' = procs s ∧ ptable s' = ptable s ∧
    names s' = <[fresh (dom (names s)) := name]> (names s) ∧
    filetables s' = <[fresh (dom (filetables s)) := []]> (filetables s) ∧
    arrays s' = <[fresh (dom (arrays s)) := []]> (arrays s) ∧
    names s' ≠ names s ∧ filetables s' ≠ filetables s ∧ arrays s' ≠ arrays s.
Proof.
  destruct s as [pr nm ft ar tfs ass vn wd kp cp pt o' lg].
  cbn. intros -> Hr.
  unfold proc_create_runprogram.
  rewrite run_bind, proc_create_ok by (cbn; repeat constructor).
  unfold created, new_proc_at. munfold. msimpl.
  rewrite (decide_False (P := r = 0)) by done. msimpl.
  rewrite (decide_True (P := r ≠ 0)) by done. msimpl.
  eexists. split; [reflexivity|]. cbn.
  rewrite ?insert_insert_eq, ?fresh_delete_insert.
  repeat split; try done; apply insert_fresh_ne.
Qed.

(** X18.  proc_create_runprogram, when nothing fails, registers the new
    process in the slot that the hint named, as one more child of the
    current process: its pid is the index of the slot, which is RUNNING
    and points to it.  The new process has no address space and the working
    directory of the current process, whose vnode gains one reference. *)
Theorem proc_create_runprogram_registers (name : string) (cur arr : addr)
    (c : proc) (l : list addr) (o : list Z) (s : kstate) :
  oracle s = 0 :: 0 :: 0 :: 0 :: 0 :: 0 :: o →
  curproc s = Some cur → procs s !! cur = Some c →
  children c = Some arr → arrays s !! arr = Some l →
  (∀ vn, p_cwd c = Some vn → is_Some (vnodes s !! vn)) →
  pid_available (ptable s) > 0 → in_table (pid_next (ptable s)) = true →
  (∀ j, pid_next (ptable s) ≤ j < PID_MAX → is_Some (pid_status (ptable s) !! j)) →
  let new := fresh (dom (procs s)) in
  let pid_n := pid_next (ptable s) in
  ∃ s' pn, proc_create_runprogram name s = Ret (Some new) s' ∧
    procs s !! new = None ∧ procs s' !! new = Some pn ∧
    pid pn = pid_n ∧ p_addrspace pn = None ∧ p_cwd pn = p_cwd c ∧
    vnodes s' = match p_cwd c with
                | Some vn => <[vn := default 0 (vnodes s !! vn) + 1]> (vnodes s)
                | None => vnodes s
                end ∧
    pid_status (ptable s') !! pid_n = Some RUNNING ∧
    pid_procs (ptable s') !! pid_n = Some (Some new) ∧
    pid_available (ptable s') = pid_available (ptable s) - 1 ∧
    arrays s' !! arr = Some (l ++ [new]).
Proof.
  destruct s as [pr nm ft ar tfs ass vn wd kp cp pt o' lg]. cbn.
  intros -> -> Hc Harr Hl Hcwd Hav Hin Hcells.
  assert (Hnp : fresh (dom pr) ≠ cur)
    by (intros <-; rewrite fresh_lookup in Hc; done).
  assert (Hna : fresh (dom ar) ≠ arr)
    by (intros <-; rewrite fresh_lookup in Hl; done).
  unfold proc_create_runprogram.
  rewrite run_bind, proc_create_ok by (cbn; repeat constructor).
  unfold created, new_proc_at. munfold.
  assert (Hcw : ∃ vs, match p_cwd c with
                      | Some v => vn !! v = Some vs
                      | None => True
                      end).
  { destruct (p_cwd c) as [v|]; [|by exists 0].
    destruct (Hcwd v eq_refl) as [vs Hvs]. eauto. }
  destruct Hcw as [vs Hvs].
  repeat (cbn -[pidtable_add];
    first [ rewrite lookup_insert_eq
          | rewrite (decide_True (P := 0 = 0)) by done
          | rewrite (decide_False (P := 0 ≠ 0)) by (intros Hz; apply Hz; done) ]).
  match goal with
  | |- context [pidtable_add ?p ?S] =>
    destruct (pidtable_add_ok p cur arr c l o S) as [hint Hadd];
      [ reflexivity
      | cbn; rewrite ?lookup_insert_ne by done; exact Hc
      | exact Harr
      | cbn; rewrite lookup_insert_ne by done; exact Hl
      | reflexivity | exact Hav | exact Hin | exact Hcells
      | rewrite Hadd; clear Hadd ]
  end.
  assert (Hn1 : pid_next pt ≠ -1) by (apply in_table_spec in Hin; lia).
  repeat (cbn;
    first [ rewrite lookup_insert_eq
          | rewrite lookup_insert_ne by done
          | rewrite Hc
          | rewrite (decide_False (P := pid_next pt = -1)) by done ]).
  destruct (p_cwd c) as [v|];
    repeat (cbn; first [rewrite Hvs | rewrite lookup_insert_eq]).
  all: eexists _, _; (split; [reflexivity|]); cbn.
  all: rewrite ?lookup_insert_eq, ?fresh_lookup.
  all: rewrite ?(lookup_insert_ne _ (fresh (dom ar)) arr) by done.
  all: rewrite ?lookup_insert_eq.
  all: repeat split; eauto.
Qed.

(** X19.  Once the hint is the sentinel -1 no pid is handed out any more.
    An exit frees slots and raises the counter of free slots, but leaves
    the hint at -1; and pidtable_add, which takes the hint for the slot,
    then never returns: it halts the system when the counter is used up,
    and otherwise indexes the arrays of the table at -1. *)
Theorem hint_sentinel_is_final (s : kstate) :
  pid_next (ptable s) = -1 →
  (∀ code s', sys__exit code s = Exited s' → pid_next (ptable s') = -1) ∧
  (∀ p v s', pidtable_add p s ≠ Ret v s') ∧
  (∀ p cur c arr l, curproc s = Some cur → procs s !! cur = Some c →
     children c = Some arr → arrays s !! arr = Some l →
     pidtable_add p s =
       if decide (pid_available (ptable s) > 0) then Undefined
       else Panic "PID table full!").
Proof.
  intros Hn. split; [|split].
  - intros code s' Hrun.
    pose proof (keeps_sys__exit (λ n, n = -1) code s Hn) as Hpost.
    rewrite Hrun in Hpost. exact Hpost.
  - intros p v s' Hrun.
    destruct (pidtable_add_returns p s v s' Hrun) as (-> & Hv & _). lia.
  - intros p cur c arr l Hcur Hc Harr Hl.
    rewrite pidtable_add_run, Hcur, Hc, Harr, Hl, Hn. cbn zeta.
    assert (Hin : in_table (-1) = false).
    { destruct (in_table (-1)) eqn:E; [|done].
      apply in_table_spec in E. lia. }
    rewrite Hin. done.
Qed.
End runprogram.

(** The user process of the scenario has forked four times, and the counter
    of free slots is at 0: the fifth fork halts the system. *)
Lemma sys_fork_full_table_panics_witness :
  @sys_fork small_config 1%positive (Some 1%positive) s_full
  = Panic "PID table full!".
Proof.
  apply (@sys_fork_full_table_panics small_config 1%positive 2%positive
           1%positive 2%positive
           {| p_name := Some 2%positive; p_threads := [];
              p_addrspace := Some 1%positive; p_cwd := None;
              proc_ft := Some 2%positive; children := Some 2%positive;
              pid := 2 |} (Some 1%positive) []
           [3; 4; 5; 6]%positive s_full).
  - vm_compute. reflexivity.
  - vm_compute. reflexivity.
  - vm_compute. reflexivity.
  - vm_compute. reflexivity.
  - vm_compute. eauto.
  - vm_compute. reflexivity.
  - vm_compute. reflexivity.
  - intros vn Hvn. vm_compute in Hvn. discriminate.
  - vm_compute. discriminate.
Defined.

Lemma hint_sentinel_is_final_witness :
  (∀ code s', @sys__exit small_config code s_full = Exited s' →
     pid_next (ptable s') = -1) ∧
  (∀ p v s', @pidtable_add small_config p s_full ≠ Ret v s').
Proof.
  destruct (@hint_sentinel_is_final small_config s_full) as (Hexit & Hadd & _);
    [vm_compute; reflexivity|].
  split; [exact Hexit | exact Hadd].
Defined.

(** The user process (pid 2) forks three children (pids 3, 4, 5) and the
    first of them forks in turn: the table is full and the hint is -1.
    The second child exits, then the user process, which reaps it: slot 4
    is READY and the counter of free slots is 1 again, yet the hint is
    still -1, and the program that the kernel starts next is not given
    slot 4. *)
Example freed_slot_not_reused :
  let fork := @sys_fork small_config 1%positive (Some 1%positive) in
  let s1 := final ((fork;; fork;; fork;;
                    modify (set_curproc (Some 3%positive));; fork) s_user) in
  let s2 := final (@sys__exit small_config 0 (set_curproc (Some 4%positive) s1)) in
  let s3 := final (@sys__exit small_config 0 (set_curproc (Some 2%positive) s2)) in
  pid_next (ptable s1) = -1 ∧
  pid_status (ptable s3) !! 4 = Some READY ∧
  pid_available (ptable s3) = 1 ∧ pid_next (ptable s3) = -1 ∧
  @proc_create_runprogram small_config "sh"
    (set_curproc (Some 1%positive) s3) = Undefined.
Proof. vm_compute. done. Qed.

Lemma proc_create_runprogram_ft_failure_witness :
  ∃ s', @proc_create_runprogram small_config "sh"
          (set_oracle [0; 0; 0; 0; 1] s_boot) = Ret None s' ∧
        procs s' = procs s_boot ∧ names s' ≠ names s_boot ∧
        filetables s' ≠ filetables s_boot ∧ arrays s' ≠ arrays s_boot.
Proof.
  destruct (@proc_create_runprogram_ft_failure small_config "sh"
              (set_oracle [0; 0; 0; 0; 1] s_boot) 1 [])
    as (s' & Hrun & Hp & _ & _ & _ & _ & Hn & Hf & Ha);
    [reflexivity | lia |].
  exists s'. split; [exact Hrun|]. split; [exact Hp|].
  split; [exact Hn|]. split; [exact Hf | exact Ha].
Defined.

(** The first program that the booted kernel starts gets pid 2 and is a
    child of the kernel process. *)
Lemma proc_create_runprogram_registers_witness :
  ∃ s' pn, @proc_create_runprogram small_config "sh"
             (set_oracle [0; 0; 0; 0; 0; 0] s_boot) = Ret (Some 2%positive) s' ∧
    procs s' !! 2%positive = Some pn ∧ pid pn = 2 ∧
    pid_status (ptable s') !! 2 = Some RUNNING ∧
    arrays s' !! 1%positive = Some [2%positive].
Proof.
  destruct (@proc_create_runprogram_registers small_config "sh" 1%positive
              1%positive
              {| p_name := Some 1%positive; p_threads := [];
                 p_addrspace := None; p_cwd := None;
                 proc_ft := Some 1%positive; children := Some 1%positive;
                 pid := 1 |} [] [] (set_oracle [0; 0; 0; 0; 0; 0] s_boot))
    as (s' & pn & Hrun & _ & Hpn & Hpid & _ & _ & _ & Hst & _ & _ & Harr).
  - reflexivity.
  - vm_compute. reflexivity.
  - vm_compute. reflexivity.
  - reflexivity.
  - vm_compute. reflexivity.
  - intros vn Hvn. discriminate.
  - vm_compute. reflexivity.
  - vm_compute. reflexivity.
  - intros j Hj. change (2 ≤ j < 6) in Hj.
    assert (j = 2 ∨ j = 3 ∨ j = 4 ∨ j = 5) as [-> | [-> | [-> | ->]]] by lia;
      vm_compute; eauto.
  - exists s', pn. repeat split; assumption.
Defined.

(** ** What exit and waitpid leave in place *)

Section frames.
Context `{kconfig}.



Lemma elem_of_rev (x : addr) (l : list addr) : x ∈ rev l ↔ x ∈ l.
Proof. rewrite !list_elem_of_In. symmetry. apply in_rev. Qed.

Lemma visit_all_frame (parent arr : addr) (cs : list addr) :
  ∀ s s', visit_all cs s = Ret tt s' → parent ∉ cs →
    (∀ c pc, c ∈ cs → procs s !! c = Some pc → children pc ≠ Some arr) →
    arrays s' !! arr = arrays s !! arr ∧ procs s' !! parent = procs s !! parent.
Proof.
  induction cs as [|c cs IH]; intros s s' Hrun Hself Hapart; cbn in Hrun.
  - by injection Hrun as <-.
  - rewrite run_bind in Hrun.
    destruct (reap_or_orphan c s) as [[] s1| | | |] eqn:Hc; try done.
    destruct (reap_or_orphan_frame c s s1 Hc) as (pc & Hpc & Hne & Hsub & Harrs).
    destruct (IH s1 s' Hrun) as [Ha Hp].
    + intros Hin. apply Hself. by right.
    + intros c' pc' Hc' Hpc'. apply (Hapart c' pc'); [by right | by apply Hsub].
    + rewrite Ha, Hp. split.
      * apply Harrs. apply (Hapart c pc); [by left | done].
      * apply Hne. intros ->. apply Hself. by left.
Qed.

(** X21.  pidtable_update_children takes no child out of the children list:
    when it returns, the list of the exiting process holds the same
    entries as before, those of the children that it has just destroyed
    among them, and the exiting process itself is untouched.  The parent
    is not among its own children, and no child owns the list. *)
Theorem update_children_keeps_list (parent arr : addr) (l : list addr)
    (s : kstate) (p : proc) (s' : kstate) :
  procs s !! parent = Some p → children p = Some arr →
  arrays s !! arr = Some l →
  parent ∉ l →
  (∀ c pc, c ∈ l → procs s !! c = Some pc → children pc ≠ Some arr) →
  pidtable_update_children parent s = Ret tt s' →
  arrays s' !! arr = Some l ∧ procs s' !! parent = Some p.
Proof.
  intros Hp Harr Hl Hself Hapart.
  unfold pidtable_update_children. munfold.
  cbn -[update_children_from]. rewrite Hp.
  cbn -[update_children_from]. rewrite Harr.
  cbn -[update_children_from]. rewrite Hl.
  cbn -[update_children_from].
  rewrite (update_children_from_visit parent arr l [] s p)
    by (rewrite ?app_nil_r; done).
  intros Hrun.
  destruct (visit_all_frame parent arr (rev l) s s' Hrun) as [Ha Hpar].
  - by rewrite elem_of_rev.
  - intros c pc Hc. apply Hapart. by apply elem_of_rev.
  - by rewrite Ha, Hpar.
Qed.

(** X22.  The exit of a running process that has no children frees nothing:
    its slot becomes ZOMBIE with the code recorded, the counter of free
    slots stays, and the process object, its address space and all other
    kernel objects are as before.  The lock is taken and released around
    the change, and the thread ends. *)
Theorem sys__exit_frees_nothing (code : Z) (a arr : addr) (p : proc)
    (s : kstate) :
  curproc s = Some a → procs s !! a = Some p →
  children p = Some arr → arrays s !! arr = Some [] →
  pid_status (ptable s) !! pid p = Some RUNNING → in_table (pid p) = true →
  ∃ s', sys__exit code s = Exited s' ∧ same_objects s s' ∧
        pid_status (ptable s') !! pid p = Some ZOMBIE ∧
        pid_waitcode (ptable s') !! pid p = Some code ∧
        pid_available (ptable s') = pid_available (ptable s) ∧
        log s' = log s ++ [LockAcquire; CvBroadcast; LockRelease; ThreadExit].
Proof.
  intros Hcur Hp Harr Hl Hst Hin.
  unfold sys__exit. rewrite run_bind.
  unfold get_curproc at 1, get at 1, deref at 1. munfold. cbn. rewrite Hcur. cbn.
  rewrite pidtable_exit_run.
  unfold pidtable_update_children. munfold.
  cbn -[update_children_from]. rewrite Hp.
  cbn -[update_children_from]. rewrite Harr.
  cbn -[update_children_from]. rewrite Hl.
  cbn. rewrite Hp, Hst, Hin.
  eexists. split; [reflexivity|]. unfold same_objects. cbn.
  rewrite !lookup_insert_eq, <- !app_assoc. done.
Qed.

(** Whether proc_destroy succeeds does not depend on the trace. *)
Lemma destroyed_log (a : addr) (f : list event → list event) (s : kstate) :
  is_Some (destroyed a s) → is_Some (destroyed a (set_log f s)).
Proof.
  unfold destroyed. cbn.
  destruct (procs s !! a) as [pc|]; cbn; [|done].
  destruct (p_cwd pc) as [v|]; cbn;
    [destruct (vnodes s !! v); cbn; [|done]|];
  (destruct (children pc) as [ac|]; cbn; [|done]);
  (destruct (arrays s !! ac); cbn; [|done]);
  (destruct (p_addrspace pc) as [asp|]; cbn;
     [destruct (addrspaces s !! asp); cbn; [|done]|]);
  (destruct (proc_ft pc) as [ftp|]; cbn; [|done]);
  (destruct (filetables s !! ftp); cbn; [|done]);
  (destruct (p_name pc) as [n|]; cbn; [destruct (names s !! n); cbn; [|done]|]);
  eauto.
Qed.

(** X23.  In its ORPHAN case pidtable_exit frees the slot of the process it
    is given but destroys the current process.  Called for an orphan that
    is not the current process, it leaves the object of the orphan
    allocated, with its slot READY and pointing nowhere, and the object of
    the current process is gone.  (sys__exit, the one caller in proc.c,
    passes the current process.) *)
Theorem pidtable_exit_destroys_current (code : Z) (orphan cur arr : addr)
    (p : proc) (s : kstate) :
  orphan ≠ cur → curproc s = Some cur → Some cur ≠ kproc s →
  is_Some (destroyed cur s) →
  procs s !! orphan = Some p → children p = Some arr →
  arrays s !! arr = Some [] →
  pid_status (ptable s) !! pid p = Some ORPHAN → in_table (pid p) = true →
  ∃ s', pidtable_exit orphan code s = Exited s' ∧
        procs s' !! cur = None ∧ procs s' !! orphan = Some p ∧
        pid_status (ptable s') !! pid p = Some READY ∧
        pid_procs (ptable s') !! pid p = Some None ∧
        pid_available (ptable s') = pid_available (ptable s) + 1.
Proof.
  intros Hne Hcur Hk [sd Hd] Hp Harr Hl Hst Hin.
  rewrite pidtable_exit_run.
  unfold pidtable_update_children. munfold.
  cbn -[update_children_from proc_destroy]. rewrite Hp.
  cbn -[update_children_from proc_destroy]. rewrite Harr.
  cbn -[update_children_from proc_destroy]. rewrite Hl.
  cbn -[proc_destroy]. rewrite Hp, Hst, Hin, Hcur.
  rewrite proc_destroy_run. cbn -[destroyed].
  rewrite decide_False by done.
  rewrite destroyed_set_ptable.
  destruct (destroyed_log cur (λ l, l ++ [LockAcquire]) s) as [sd' Hd'];
    [by eauto|].
  rewrite Hd'. cbn.
  eexists. split; [reflexivity|].
  apply destroyed_Some in Hd'
    as (pc & ac & Hpc & _ & Hprocs & _ & Hpt & _). cbn in *.
  rewrite Hpt, Hprocs. cbn.
  rewrite !lookup_insert_eq, lookup_delete_eq, lookup_delete_ne by done.
  done.
Qed.
End frames.


(** The parent of the scenario (object 2) exits with its child (object 3) a
    zombie: the child is destroyed and still listed. *)
Lemma update_children_keeps_list_witness :
  let s' := final (@pidtable_update_children small_config 2%positive
                     s_parent_runs) in
  arrays s' !! 2%positive = Some [3%positive] ∧ procs s' !! 3%positive = None.
Proof.
  split; [|vm_compute; reflexivity].
  eapply (@update_children_keeps_list small_config 2%positive 2%positive
            [3%positive] s_parent_runs).
  - vm_compute. reflexivity.
  - reflexivity.
  - vm_compute. reflexivity.
  - intros Hin. apply list_elem_of_singleton in Hin. discriminate.
  - intros c pc Hc Hpc. apply list_elem_of_singleton in Hc. subst c.
    vm_compute in Hpc. injection Hpc as <-. discriminate.
  - vm_compute. reflexivity.
Defined.

(** The child of the scenario (pid 3) exits with 7. *)
Lemma sys__exit_frees_nothing_witness :
  ∃ s', @sys__exit small_config 7 (set_curproc (Some 3%positive) s_forked)
          = Exited s' ∧
        same_objects (set_curproc (Some 3%positive) s_forked) s' ∧
        pid_status (ptable s') !! 3 = Some ZOMBIE ∧
        pid_waitcode (ptable s') !! 3 = Some 7.
Proof.
  destruct (@sys__exit_frees_nothing small_config 7 3%positive 3%positive
              {| p_name := Some 3%positive; p_threads := [];
                 p_addrspace := Some 2%positive; p_cwd := None;
                 proc_ft := Some 3%positive; children := Some 3%positive;
                 pid := 3 |} (set_curproc (Some 3%positive) s_forked))
    as (s' & Hrun & Hobj & Hst & Hwc & _);
    [vm_compute; reflexivity..|].
  exists s'. split; [exact Hrun|]. split; [exact Hobj|].
  split; [exact Hst | exact Hwc].
Defined.

(** The orphan of the scenario (object 3) is exited for by the thread of
    another process (object 2, the zombie parent): object 2 is destroyed
    and object 3 stays. *)
Lemma pidtable_exit_destroys_current_witness :
  ∃ s', @pidtable_exit small_config 3%positive 5
          (set_curproc (Some 2%positive) s_orphaned) = Exited s' ∧
        procs s' !! 2%positive = None ∧ is_Some (procs s' !! 3%positive) ∧
        pid_status (ptable s') !! 3 = Some READY.
Proof.
  destruct (@pidtable_exit_destroys_current small_config 5 3%positive
              2%positive 3%positive
              {| p_name := Some 3%positive; p_threads := [];
                 p_addrspace := Some 2%positive; p_cwd := None;
                 proc_ft := Some 3%positive; children := Some 3%positive;
                 pid := 3 |} (set_curproc (Some 2%positive) s_orphaned))
    as (s' & Hrun & Hgone & Hstay & Hst & _).
  - discriminate.
  - reflexivity.
  - vm_compute. discriminate.
  - vm_compute. eauto.
  - vm_compute. reflexivity.
  - reflexivity.
  - vm_compute. reflexivity.
  - vm_compute. reflexivity.
  - vm_compute. reflexivity.
  - exists s'. split; [exact Hrun|]. split; [exact Hgone|].
    split; [rewrite Hstay; eauto | exact Hst].
Defined.

(** ** Properties kept along the code *)

Section hoare.
Context {P E : kstate → Prop}.

Lemma hoare_bind {A B} (Q R : kstate → Prop) (m : M A) (k : A → M B) :
  hoare P Q E m → (∀ a, hoare Q R E (k a)) → hoare P R E (m ≫= k).
Proof.
  intros Hm Hk s Hs. rewrite run_bind. specialize (Hm s Hs).
  destruct (m s); cbn in *; try done. by apply Hk.
Qed.

Lemma hoare_keep_bind {A B} (R : kstate → Prop) (m : M A) (k : A → M B) :
  hoare P P E m → (∀ a, hoare P R E (k a)) → hoare P R E (m ≫= k).
Proof. apply hoare_bind. Qed.

Lemma hoare_ret {A} (a : A) : hoare P P E (mret a).
Proof. intros s Hs. exact Hs. Qed.

Lemma hoare_get : hoare P P E get.
Proof. intros s Hs. exact Hs. Qed.

Lemma hoare_modify (Q : kstate → Prop) (f : kstate → kstate) :
  (∀ s, P s → Q (f s)) → hoare P Q E (modify f).
Proof. intros Hf s Hs. by apply Hf. Qed.

Lemma hoare_panic {A} (Q : kstate → Prop) msg : hoare P Q E (@panic A msg).
Proof. intros s Hs. exact I. Qed.

Lemma hoare_undefined {A} (Q : kstate → Prop) : hoare P Q E (@undefined A).
Proof. intros s Hs. exact I. Qed.

Lemma hoare_deref {A} (o : option A) : hoare P P E (deref o).
Proof. intros s Hs. by destruct o. Qed.

Lemma hoare_draw :
  (∀ s o, P s → P (set_oracle o s)) → hoare P P E draw.
Proof. intros Ho s Hs. unfold draw. destruct (oracle s); cbn; auto. Qed.

Lemma hoare_cv_sleep {A} (Q : kstate → Prop) :
  (∀ s, P s → E (set_log (λ l, l ++ [CvWait]) s)) → hoare P Q E (@cv_sleep A).
Proof. intros Hl s Hs. by apply Hl. Qed.

Lemma hoare_thread_exit {A} (Q : kstate → Prop) :
  (∀ s, P s → E (set_log (λ l, l ++ [ThreadExit]) s)) →
  hoare P Q E (@thread_exit A).
Proof. intros Hl s Hs. by apply Hl. Qed.
End hoare.

(** The code is taken apart along its binds and case distinctions; [side]
    settles that a store keeps the property. *)
Ltac hpres side :=
  repeat (cbv zeta;
    first
    [ eassumption
    | match goal with
      | Hk : ∀ _, hoare _ _ _ _ |- _ => apply Hk
      | Hk : ∀ _ _, hoare _ _ _ _ |- _ => apply Hk
      | Hk : ∀ _ _ _, hoare _ _ _ _ |- _ => apply Hk
      end
    | apply hoare_ret | apply hoare_get | apply hoare_deref
    | apply hoare_panic | apply hoare_undefined
    | apply hoare_draw; side
    | apply hoare_cv_sleep; side
    | apply hoare_thread_exit; side
    | apply hoare_modify; side
    | apply hoare_keep_bind; [|intros]
    | match goal with
      | |- hoare _ _ _ (match ?x with _ => _ end) => destruct x
      | |- hoare _ _ _ (if ?b then _ else _) => destruct b
      | |- hoare _ _ _ (let (_, _) := ?x in _) => destruct x
      end ]).

(** *** Trap frames outlive the system calls *)

Section trapframes.
Context `{kconfig}.
Variable a : addr.

Ltac live_side :=
  intros; unfold frame_live in *; cbn;
  first [ assumption | apply lookup_insert_is_Some'; by right ].

Lemma live_proc_create name :
  hoare (frame_live a) (frame_live a) (frame_live a) (proc_create name).
Proof. unfold proc_create. punfold. hpres live_side. Qed.

Lemma live_array_clear arr n :
  hoare (frame_live a) (frame_live a) (frame_live a) (array_clear arr n).
Proof.
  induction n as [|n IH]; cbn [array_clear]; [apply hoare_ret|].
  punfold. hpres live_side.
Qed.

Lemma live_proc_destroy p :
  hoare (frame_live a) (frame_live a) (frame_live a) (proc_destroy p).
Proof.
  pose proof live_array_clear as Hclear.
  unfold proc_destroy, proc_setas. punfold. hpres live_side.
Qed.

Lemma live_update_children p :
  hoare (frame_live a) (frame_live a) (frame_live a) (pidtable_update_children p).
Proof.
  pose proof live_proc_destroy as Hdestroy.
  assert (Hloop : ∀ n,
            hoare (frame_live a) (frame_live a) (frame_live a)
              (update_children_from p n)).
  { induction n as [|n IH]; cbn [update_children_from]; [apply hoare_ret|].
    unfold update_child. punfold. hpres live_side. }
  unfold pidtable_update_children. punfold. hpres live_side.
Qed.

Lemma live_pidtable_exit p code :
  hoare (frame_live a) (frame_live a) (frame_live a) (pidtable_exit p code).
Proof.
  pose proof live_proc_destroy as Hdestroy.
  pose proof live_update_children as Hchildren.
  unfold pidtable_exit. punfold. hpres live_side.
Qed.

Lemma live_scan_ready n : ∀ i,
  hoare (frame_live a) (frame_live a) (frame_live a) (scan_ready n i).
Proof.
  induction n as [|n IH]; intros i; cbn [scan_ready]; [apply hoare_ret|].
  punfold. hpres live_side.
Qed.

Lemma live_pidtable_add p :
  hoare (frame_live a) (frame_live a) (frame_live a) (pidtable_add p).
Proof.
  pose proof live_scan_ready as Hscan.
  unfold pidtable_add. punfold. hpres live_side.
Qed.

Lemma live_wait_zombie q wakes :
  ∀ status, hoare (frame_live a) (frame_live a) (frame_live a) (wait_zombie q status wakes).
Proof.
  induction wakes as [|t wakes IH]; intros status; cbn [wait_zombie];
    punfold; hpres live_side.
Qed.

(** X24.  sys_fork, sys__exit, sys_waitpid, sys_getpid and
    proc_create_runprogram free no trap frame that they find: a trap frame
    that is allocated when one of these five is entered is still allocated
    when the call returns, ends the thread or falls asleep. *)
Theorem trap_frames_never_freed (s : kstate) :
  frame_live a s →
  (∀ tf rv, post (frame_live a) (frame_live a) (sys_fork tf rv s)) ∧
  (∀ code, post (frame_live a) (frame_live a) (sys__exit code s)) ∧
  (∀ q rv wakes,
     post (frame_live a) (frame_live a) (sys_waitpid q rv wakes s)) ∧
  (∀ rv, post (frame_live a) (frame_live a) (sys_getpid rv s)) ∧
  (∀ name, post (frame_live a) (frame_live a) (proc_create_runprogram name s)).
Proof.
  intros Hs.
  pose proof live_proc_create as Hcreate.
  pose proof live_pidtable_add as Hadd.
  pose proof live_pidtable_exit as Hexit.
  pose proof live_wait_zombie as Hwait.
  split; [|split; [|split; [|split]]].
  - intros tf rv.
    assert (Hh :
                   hoare (frame_live a) (frame_live a) (frame_live a)
                     (sys_fork tf rv))
      by (unfold sys_fork; punfold; hpres live_side).
    by apply Hh.
  - intros code.
    assert (Hh :
                   hoare (frame_live a) (frame_live a) (frame_live a)
                     (sys__exit code))
      by (unfold sys__exit; punfold; hpres live_side).
    by apply Hh.
  - intros q rv wakes.
    assert (Hh :
                   hoare (frame_live a) (frame_live a) (frame_live a)
                     (sys_waitpid q rv wakes))
      by (unfold sys_waitpid; punfold; hpres live_side).
    by apply Hh.
  - intros rv.
    assert (Hh :
                   hoare (frame_live a) (frame_live a) (frame_live a)
                     (sys_getpid rv))
      by (unfold sys_getpid; punfold; hpres live_side).
    by apply Hh.
  - intros name.
    assert (Hh :
                   hoare (frame_live a) (frame_live a) (frame_live a)
                     (proc_create_runprogram name))
      by (unfold proc_create_runprogram; punfold; hpres live_side).
    by apply Hh.
Qed.
End trapframes.


(** *** The pid-table lock is taken and released in turn *)

Lemma lock_run_snoc (l : list event) (e : event) :
  lock_run (l ++ [e]) = h ← lock_run l; lock_step h e.
Proof. unfold lock_run. by rewrite foldl_app. Qed.

Ltac lock_side :=
  intros; unfold lock_is in *; cbn; rewrite ?lock_run_snoc;
  first [ assumption
        | match goal with
          | Hh : lock_run _ = Some _ |- _ => rewrite Hh; reflexivity
          end ].

Ltac lunfold :=
  unfold kstrdup, ft_create, ft_init_std, ft_copy, ft_destroy, array_create,
    array_num, array_get, array_add, array_remove, array_destroy, as_copy,
    as_destroy, as_deactivate, VOP_INCREF, VOP_DECREF, thread_fork,
    store_word, get_curproc, store_proc, load_proc, kmalloc, alloc, kfree,
    store, load, emit, KASSERT,
    tbl_status, tbl_set_status, tbl_set_proc, tbl_set_waitcode.

Section lock.
Context `{kconfig}.

Lemma hoare_lock_acquire E :
  hoare (lock_is false) (lock_is true) E lock_acquire.
Proof. unfold lock_acquire, emit. apply hoare_modify. lock_side. Qed.

Lemma hoare_lock_release E :
  hoare (lock_is true) (lock_is false) E lock_release.
Proof. unfold lock_release, emit. apply hoare_modify. lock_side. Qed.

Lemma hoare_cv_broadcast E :
  hoare (lock_is true) (lock_is true) E cv_broadcast.
Proof. unfold cv_broadcast, emit. apply hoare_modify. lock_side. Qed.

Lemma hoare_cv_wait E t :
  hoare (lock_is true) (lock_is true) E (cv_wait t).
Proof.
  unfold cv_wait, emit. apply (hoare_bind (lock_is true)).
  - apply hoare_modify. lock_side.
  - intros _. apply hoare_modify. lock_side.
Qed.

Ltac lpres :=
  repeat (cbv zeta;
    first
    [ eassumption
    | match goal with
      | Hk : ∀ _, hoare _ _ _ _ |- _ => apply Hk
      | Hk : ∀ _ _, hoare _ _ _ _ |- _ => apply Hk
      | Hk : ∀ _ _ _, hoare _ _ _ _ |- _ => apply Hk
      | Hk : ∀ _ _ _ _, hoare _ _ _ _ |- _ => apply Hk
      end
    | apply hoare_ret | apply hoare_get | apply hoare_deref
    | apply hoare_panic | apply hoare_undefined
    | apply hoare_draw; lock_side
    | apply hoare_cv_sleep; lock_side
    | apply hoare_thread_exit; lock_side
    | apply hoare_modify; lock_side
    | match goal with
      | |- hoare _ _ _ cv_broadcast => apply hoare_cv_broadcast
      | |- hoare _ _ _ (cv_wait _) => apply hoare_cv_wait
      | |- hoare _ _ _ (lock_acquire ≫= _) =>
          eapply hoare_bind; [apply hoare_lock_acquire | intros]
      | |- hoare _ _ _ (lock_release ≫= _) =>
          eapply hoare_bind; [apply hoare_lock_release | intros]
      end
    | apply hoare_keep_bind; [|intros]
    | match goal with
      | |- hoare _ _ _ (match ?x with _ => _ end) => destruct x
      | |- hoare _ _ _ (if ?b then _ else _) => destruct b
      | |- hoare _ _ _ (let (_, _) := ?x in _) => destruct x
      end ]).

(** The code that does not touch the lock leaves it as it is. *)
Lemma lock_proc_create E b name :
  hoare (lock_is b) (lock_is b) E (proc_create name).
Proof. unfold proc_create. lunfold. lpres. Qed.

Lemma lock_array_clear E b arr n :
  hoare (lock_is b) (lock_is b) E (array_clear arr n).
Proof.
  induction n as [|n IH]; cbn [array_clear]; [apply hoare_ret|].
  lunfold. lpres.
Qed.

Lemma lock_proc_destroy E b p :
  hoare (lock_is b) (lock_is b) E (proc_destroy p).
Proof.
  pose proof lock_array_clear as Hclear.
  unfold proc_destroy, proc_setas. lunfold. lpres.
Qed.

Lemma lock_update_children E b p :
  hoare (lock_is b) (lock_is b) E (pidtable_update_children p).
Proof.
  pose proof lock_proc_destroy as Hdestroy.
  assert (Hloop : ∀ n, hoare (lock_is b) (lock_is b) E (update_children_from p n)).
  { induction n as [|n IH]; cbn [update_children_from]; [apply hoare_ret|].
    unfold update_child. lunfold. lpres. }
  unfold pidtable_update_children. lunfold. lpres.
Qed.

Lemma lock_scan_ready E b n : ∀ i,
  hoare (lock_is b) (lock_is b) E (scan_ready n i).
Proof.
  induction n as [|n IH]; intros i; cbn [scan_ready]; [apply hoare_ret|].
  lunfold. lpres.
Qed.

(** The functions that take the lock. *)
Lemma lock_pidtable_add E p :
  hoare (lock_is false) (lock_is false) E (pidtable_add p).
Proof.
  pose proof lock_scan_ready as Hscan.
  unfold pidtable_add. lunfold. lpres.
Qed.

Lemma lock_pidtable_exit Q p code :
  hoare (lock_is false) Q (lock_is false) (pidtable_exit p code).
Proof.
  pose proof lock_proc_destroy as Hdestroy.
  pose proof lock_update_children as Hchildren.
  unfold pidtable_exit. lunfold. lpres.
Qed.

Lemma lock_wait_zombie q wakes : ∀ status,
  hoare (lock_is true) (lock_is true) (lock_is true)
    (wait_zombie q status wakes).
Proof.
  induction wakes as [|t wakes IH]; intros status; cbn [wait_zombie];
    lunfold; lpres.
Qed.

(** X25.  The functions of proc.c keep the contract of the pid-table lock.
    Entered by a thread that does not hold the lock, each of pidtable_add,
    pidtable_pid_status, sys_getpid, sys_fork and proc_create_runprogram
    returns with the lock released, and sys__exit ends the thread with the
    lock released; sys_waitpid returns with the lock released or sleeps in
    cv_wait, which it called with the lock held.  Along the way the lock
    is never taken twice nor released when not held, and the condition
    variable is used with the lock held only. *)
Theorem pid_lock_discipline (s : kstate) :
  lock_is false s →
  (∀ p, post (lock_is false) (lock_is false) (pidtable_add p s)) ∧
  (∀ q, post (lock_is false) (lock_is false) (pidtable_pid_status q s)) ∧
  (∀ rv, post (lock_is false) (lock_is false) (sys_getpid rv s)) ∧
  (∀ tf rv, post (lock_is false) (lock_is false) (sys_fork tf rv s)) ∧
  (∀ name, post (lock_is false) (lock_is false) (proc_create_runprogram name s)) ∧
  (∀ code, post (lock_is false) (lock_is false) (sys__exit code s)) ∧
  (∀ q rv wakes, post (lock_is false) (lock_is true)
                   (sys_waitpid q rv wakes s)).
Proof.
  intros Hs.
  pose proof lock_proc_create as Hcreate.
  pose proof lock_pidtable_add as Hadd.
  pose proof lock_pidtable_exit as Hexit.
  pose proof lock_wait_zombie as Hwait.
  split; [|split; [|split; [|split; [|split; [|split]]]]].
  - intros p. by apply Hadd.
  - intros q.
    assert (Hh : hoare (lock_is false) (lock_is false) (lock_is false)
                   (pidtable_pid_status q))
      by (unfold pidtable_pid_status; lunfold; lpres).
    by apply Hh.
  - intros rv.
    assert (Hh : hoare (lock_is false) (lock_is false) (lock_is false)
                   (sys_getpid rv))
      by (unfold sys_getpid; lunfold; lpres).
    by apply Hh.
  - intros tf rv.
    assert (Hh : hoare (lock_is false) (lock_is false) (lock_is false)
                   (sys_fork tf rv))
      by (unfold sys_fork; lunfold; lpres).
    by apply Hh.
  - intros name.
    assert (Hh : hoare (lock_is false) (lock_is false) (lock_is false)
                   (proc_create_runprogram name))
      by (unfold proc_create_runprogram; lunfold; lpres).
    by apply Hh.
  - intros code.
    assert (Hh : hoare (lock_is false) (lock_is false) (lock_is false)
                   (sys__exit code))
      by (unfold sys__exit; lunfold; lpres).
    by apply Hh.
  - intros q rv wakes.
    assert (Hh : hoare (lock_is false) (lock_is false) (lock_is true)
                   (sys_waitpid q rv wakes))
      by (unfold sys_waitpid; lunfold; lpres).
    by apply Hh.
Qed.
End lock.

(** The child of the scenario has exited, and the trap frame that sys_fork
    made for it (object 2) is allocated: it still is after the exit or a
    fork of the parent. *)
Lemma trap_frames_never_freed_witness :
  frame_live 2%positive s_parent_runs ∧
  (∀ code, post (frame_live 2%positive) (frame_live 2%positive)
             (@sys__exit small_config code s_parent_runs)) ∧
  (∀ tf rv, post (frame_live 2%positive) (frame_live 2%positive)
              (@sys_fork small_config tf rv s_parent_runs)).
Proof.
  assert (Hlive : frame_live 2%positive s_parent_runs) by (vm_compute; eauto).
  destruct (@trap_frames_never_freed small_config 2%positive s_parent_runs Hlive)
    as (Hfork & Hexit & _).
  split; [exact Hlive|]. split; [exact Hexit | exact Hfork].
Defined.

(** The trace of the scenario leaves the lock free. *)
Lemma pid_lock_discipline_witness :
  lock_is false s_forked ∧
  (∀ tf rv, post (lock_is false) (lock_is false)
              (@sys_fork small_config tf rv s_forked)) ∧
  (∀ q rv wakes, post (lock_is false) (lock_is true)
                   (@sys_waitpid small_config q rv wakes s_forked)).
Proof.
  assert (Hfree : lock_is false s_forked) by (vm_compute; reflexivity).
  destruct (@pid_lock_discipline small_config s_forked Hfree)
    as (_ & _ & _ & Hfork & _ & _ & Hwait).
  split; [exact Hfree|]. split; [exact Hfork | exact Hwait].
Defined.

(** ** proc_getas and proc_setas *)

(** X26.  proc_setas installs the new address space in the current process
    and returns the one that proc_getas returned before; proc_getas then
    returns the new one, and setting the old one again returns the new one
    and restores the state.  With no current process proc_getas returns
    null, whereas proc_setas fails its assertion. *)
Theorem proc_setas_getas (newas : option addr) (s : kstate) :
  (curproc s = None →
   proc_getas s = Ret None s ∧ proc_setas newas s = Panic "assertion failed") ∧
  (∀ cur p, curproc s = Some cur → procs s !! cur = Some p →
   ∃ s1, proc_getas s = Ret (p_addrspace p) s ∧
         proc_setas newas s = Ret (p_addrspace p) s1 ∧
         proc_getas s1 = Ret newas s1 ∧
         proc_setas (p_addrspace p) s1 = Ret newas s ∧
         (∀ a, a ≠ cur → procs s1 !! a = procs s !! a)).
Proof.
  split.
  - intros Hcur. unfold proc_getas, proc_setas. munfold. cbn.
    rewrite Hcur. done.
  - intros cur p Hcur Hp.
    exists (set_procs <[cur := set_p_addrspace newas p]> s).
    destruct s as [pr nm ft ar tfs ass vn wd kp cp pt o lg]. cbn in *. subst cp.
    unfold proc_getas, proc_setas. munfold.
    repeat (progress (cbn; rewrite ?Hp, ?lookup_insert_eq)).
    repeat split; try done.
    + f_equal. apply kstate_eq; cbn; try done. rewrite insert_insert_eq.
      replace (set_p_addrspace (p_addrspace p) (set_p_addrspace newas p))
        with p by (by destruct p).
      by apply insert_id.
    + intros a Ha. by rewrite lookup_insert_ne.
Qed.

(** The user process of the scenario swaps its address space (object 1) for
    another (object 9) and back. *)
Lemma proc_setas_getas_witness :
  ∃ s1, proc_setas (Some 9%positive) s_user = Ret (Some 1%positive) s1 ∧
        proc_getas s1 = Ret (Some 9%positive) s1 ∧
        proc_setas (Some 1%positive) s1 = Ret (Some 9%positive) s_user.
Proof.
  destruct (proc_setas_getas (Some 9%positive) s_user) as [_ Hlive].
  destruct (Hlive 2%positive
              {| p_name := Some 2%positive; p_threads := [];
                 p_addrspace := Some 1%positive; p_cwd := None;
                 proc_ft := Some 2%positive; children := Some 2%positive;
                 pid := 2 |})
    as (s1 & _ & Hset & Hget & Hback & _); [vm_compute; reflexivity..|].
  exists s1. split; [exact Hset|]. split; [exact Hget | exact Hback].
Defined.
